(** * mini-agents: the weather agent and the language agent

    A shallow embedding of [src/weather_agent.py] and [src/language_agent.py].

    Modelling conventions.
    - Text is a list of characters.  The characters considered are ASCII
      (code below 128): on them [str.lower], [str.strip], [str.split] and the
      classes [\w] and [\s] of [re] are the ones written below.
    - Python numbers (int and float alike) are modelled by their exact
      rational value in [Q]; [int(x)] truncates towards zero and
      [round(x, n)] rounds half to even on the exact value.  The rounding
      of binary64 arithmetic and the [OverflowError] of an int too large
      for a float are therefore absent from the model, and what the code
      computes in floats (units, scores) is stated at given inputs only.
    - The body of a provider's reply is a JSON object or is not JSON; a
      body that is another JSON value (null, a list, a number, a string)
      is not modelled.
    - An exception is a value: a computation returns [Ok v] or [Raise e].
    - The clock, the language-model client, the HTTP client and the
      renderings of timestamps, hashes and values are collaborators given by
      a [World]; the agents thread their own fields, the number of clock
      readings and the log of outbound calls through a state monad.
    - What the agents [print] is not modelled. *)

From Stdlib Require Import List String Ascii Bool Arith ZArith QArith Qround Lia.
From Stdlib Require Import DecimalString Lqa.
Import ListNotations.

Open Scope string_scope.
Open Scope list_scope.
Open Scope nat_scope.

(** ** Text *)

Definition text := list ascii.

Coercion list_ascii_of_string : string >-> list.

Definition texts (l : list string) : list text := map list_ascii_of_string l.

Module Text.

Definition code (c : ascii) : nat := nat_of_ascii c.

Definition in_range (lo hi : nat) (c : ascii) : bool :=
  (lo <=? code c) && (code c <=? hi).

(** [str.isspace] on ASCII: tab .. carriage return, the four separators
    0x1c .. 0x1f, and the space. *)
Definition is_space (c : ascii) : bool :=
  in_range 9 13 c || in_range 28 31 c || (code c =? 32).

Definition is_upper (c : ascii) : bool := in_range 65 90 c.
Definition is_lower (c : ascii) : bool := in_range 97 122 c.
Definition is_digit (c : ascii) : bool := in_range 48 57 c.

(** The class [\w] on ASCII: letters, digits and the underscore. *)
Definition is_word (c : ascii) : bool :=
  is_upper c || is_lower c || is_digit c || (code c =? 95).

Definition lower_char (c : ascii) : ascii :=
  if is_upper c then ascii_of_nat (code c + 32) else c.

(** [s.lower()] *)
Definition lower (s : text) : text := map lower_char s.

Fixpoint lstrip (s : text) : text :=
  match s with
  | c :: s' => if is_space c then lstrip s' else s
  | [] => []
  end.

Definition rstrip (s : text) : text := rev (lstrip (rev s)).

(** [s.strip()] *)
Definition strip (s : text) : text := rstrip (lstrip s).

(** [s.split()]: the maximal runs of non-whitespace characters.  [cur] is
    the run being read, reversed. *)
Fixpoint split_aux (cur : text) (s : text) : list text :=
  match s with
  | [] => match cur with [] => [] | _ => [rev cur] end
  | c :: s' =>
      if is_space c
      then match cur with
           | [] => split_aux [] s'
           | _ => rev cur :: split_aux [] s'
           end
      else split_aux (c :: cur) s'
  end.

Definition split (s : text) : list text := split_aux [] s.

Definition eqb (a b : text) : bool :=
  if list_eq_dec ascii_dec a b then true else false.

(** [x in xs] for a list of strings *)
Definition mem (x : text) (xs : list text) : bool := existsb (eqb x) xs.

(** [len(s)] *)
Definition len (s : text) : Z := Z.of_nat (List.length s).

(** The decimal rendering of an integer, as an f-string gives it. *)
Definition of_Z (z : Z) : text :=
  match z with
  | Z0 => "0"
  | _ => list_ascii_of_string (NilZero.string_of_int (Z.to_int z))
  end.

End Text.

(** ** Regular expressions

    The fragment of [re] that the agent's patterns use, matched the way [re]
    matches: one alternative after the other, backtracking, a greedy
    quantifier taking the longest run first and a lazy one the shortest.
    Quantified atoms in the source are always character classes; the only
    other repetition is the optional group. *)

Module Re.

Inductive regex : Type :=
| Lit (l : text)                          (* literal text *)
| Alt (r1 r2 : regex)                     (* r1|r2 *)
| Seq (r1 r2 : regex)                     (* r1r2 *)
| Opt (r : regex)                         (* (?:r)? *)
| Plus (cls : ascii -> bool)              (* [cls]+ *)
| LazyPlus (cls : ascii -> bool)          (* [cls]+? *)
| Star (cls : ascii -> bool)              (* [cls]* *)
| Group (r : regex)                       (* (r), the capture group 1 *)
| Eos.                                    (* $ *)

(** A successful match: the text left after it and group 1. *)
Record rmatch : Type := { rest : text; group1 : option text }.

Fixpoint match_lit (l s : text) : option text :=
  match l with
  | [] => Some s
  | c :: l' =>
      match s with
      | d :: s' => if Ascii.eqb c d then match_lit l' s' else None
      | [] => None
      end
  end.

Section Loops.
Context {R : Type}.
Variable cls : ascii -> bool.
Variable k : text -> option R.

(** [cls*], greedy: one more character first, the continuation after. *)
Fixpoint star (s : text) : option R :=
  match s with
  | c :: s' =>
      if cls c
      then match star s' with Some x => Some x | None => k s end
      else k s
  | [] => k []
  end.

(** [cls+], greedy. *)
Definition plus (s : text) : option R :=
  match s with
  | c :: s' => if cls c then star s' else None
  | [] => None
  end.

(** [cls+?], lazy: the continuation first, one more character after. *)
Fixpoint lazy_plus (s : text) : option R :=
  match s with
  | c :: s' =>
      if cls c
      then match k s' with Some x => Some x | None => lazy_plus s' end
      else None
  | [] => None
  end.
End Loops.

(** [run r s g k]: match [r] at the head of [s], group 1 being [g] so far,
    and continue with [k] on what is left; [None] when every way fails. *)
Fixpoint run {R : Type} (r : regex) (s : text) (g : option text)
         (k : text -> option text -> option R) : option R :=
  match r with
  | Lit l =>
      match match_lit l s with Some s' => k s' g | None => None end
  | Alt r1 r2 =>
      match run r1 s g k with Some x => Some x | None => run r2 s g k end
  | Seq r1 r2 => run r1 s g (fun s' g' => run r2 s' g' k)
  | Opt r1 =>
      match run r1 s g k with Some x => Some x | None => k s g end
  | Plus cls => plus cls (fun s' => k s' g) s
  | LazyPlus cls => lazy_plus cls (fun s' => k s' g) s
  | Star cls => star cls (fun s' => k s' g) s
  | Group r1 =>
      run r1 s g
          (fun s' _ => k s' (Some (firstn (List.length s - List.length s') s)))
  | Eos =>
      match s with
      | [] => k s g
      | [c] => if Ascii.eqb c "010" then k s g else None
      | _ => None
      end
  end.

(** [re.match]: a match at the head of [s]. *)
Definition match_here (r : regex) (s : text) : option rmatch :=
  run r s None (fun s' g => Some {| rest := s'; group1 := g |}).

(** [re.search]: the leftmost match. *)
Fixpoint search (r : regex) (s : text) : option rmatch :=
  match match_here r s with
  | Some m => Some m
  | None => match s with [] => None | _ :: s' => search r s' end
  end.

(** [re.sub(r, '', s)]: every leftmost non-overlapping match is deleted.
    An empty match deletes nothing.  [fuel] bounds the scan; the length of
    [s] plus one is enough. *)
Fixpoint sub_empty_aux (fuel : nat) (r : regex) (s : text) : text :=
  match fuel with
  | O => s
  | S fuel' =>
      match s with
      | [] => []
      | c :: s' =>
          match match_here r s with
          | Some m =>
              if (List.length (rest m) <? List.length s)%nat
              then sub_empty_aux fuel' r (rest m)
              else c :: sub_empty_aux fuel' r s'
          | None => c :: sub_empty_aux fuel' r s'
          end
      end
  end.

Definition sub_empty (r : regex) (s : text) : text :=
  sub_empty_aux (S (List.length s)) r s.

(** A few abbreviations for writing patterns. *)
Fixpoint alts (l : list text) : regex :=
  match l with
  | [] => Lit []
  | [x] => Lit x
  | x :: xs => Alt (Lit x) (alts xs)
  end.

Fixpoint seqs (l : list regex) : regex :=
  match l with
  | [] => Lit []
  | [r] => r
  | r :: rs => Seq r (seqs rs)
  end.

(** What a pattern can match, read off the pattern: [matches r w rest] says
    that [r] matches exactly [w] when [rest] is what follows. *)
Fixpoint matches (r : regex) (w rest : text) : Prop :=
  match r with
  | Lit l => w = l
  | Alt r1 r2 => matches r1 w rest \/ matches r2 w rest
  | Seq r1 r2 =>
      exists w1 w2,
        w = w1 ++ w2 /\ matches r1 w1 (w2 ++ rest) /\ matches r2 w2 rest
  | Opt r1 => w = [] \/ matches r1 w rest
  | Plus cls | LazyPlus cls => w <> [] /\ forallb cls w = true
  | Star cls => forallb cls w = true
  | Group r1 => matches r1 w rest
  | Eos => w = [] /\ (rest = [] \/ rest = ["010"%char])
  end.

End Re.

(** ** Python values and exceptions *)

Module Py.

(** The exception classes that the two agents can meet. *)
Inductive exn_class : Type :=
| KeyError | IndexError | TypeError | AttributeError | ValueError | OtherError.

Record exn : Type := { cls : exn_class; msg : text }.

Inductive Result (A : Type) : Type :=
| Ok (a : A)
| Raise (e : exn).
Arguments Ok {A} a.
Arguments Raise {A} e.

(** The values of JSON documents and of the dictionaries built from them.
    A dictionary keeps its items in insertion order. *)
#[warnings="-register-all"]
Inductive value : Type :=
| VNone
| VBool (b : bool)
| VNum (q : Q)
| VStr (s : text)
| VList (l : list value)
| VDict (d : list (text * value)).

Definition dict := list (text * value).

Definition item (k : text) (v : value) : text * value := (k, v).

Fixpoint lookup (k : text) (d : dict) : option value :=
  match d with
  | [] => None
  | (k', v) :: d' => if Text.eqb k k' then Some v else lookup k d'
  end.

(** [k in d] *)
Definition has_key (k : text) (d : dict) : bool :=
  match lookup k d with Some _ => true | None => false end.

(** [d.get(k, default)] *)
Definition get (k : text) (default : value) (d : dict) : value :=
  match lookup k d with Some v => v | None => default end.

Definition raise {A} (c : exn_class) (m : text) : Result A :=
  Raise {| cls := c; msg := m |}.

(** [v[k]] for a string key [k]. *)
Definition subscript (v : value) (k : text) : Result value :=
  match v with
  | VDict d =>
      match lookup k d with
      | Some x => Ok x
      | None => raise KeyError k
      end
  | VList _ => raise TypeError "list indices must be integers or slices, not str"
  | VStr _ => raise TypeError "string indices must be integers"
  | _ => raise TypeError "object is not subscriptable"
  end.

(** [v[0]] *)
Definition subscript0 (v : value) : Result value :=
  match v with
  | VList (x :: _) => Ok x
  | VList [] => raise IndexError "list index out of range"
  | VStr (c :: _) => Ok (VStr [c])
  | VStr [] => raise IndexError "string index out of range"
  | VDict _ => raise KeyError "0"
  | _ => raise TypeError "object is not subscriptable"
  end.

(** [v.get(k)], whose default is [None]. *)
Definition get_method (v : value) (k : text) : Result value :=
  match v with
  | VDict d => Ok (get k VNone d)
  | _ => raise AttributeError "object has no attribute 'get'"
  end.

(** The number a value stands for in arithmetic and in [round]: a number
    itself, or a boolean as 0 or 1.  Any other value makes the arithmetic
    of [format_weather_data] raise [TypeError]. *)
Definition number (v : value) : Result Q :=
  match v with
  | VNum q => Ok q
  | VBool true => Ok 1%Q
  | VBool false => Ok 0%Q
  | _ => raise TypeError "unsupported operand type(s)"
  end.

(** [int(x)]: truncation towards zero. *)
Definition int (x : Q) : Z :=
  if (0 <=? Qnum x)%Z then Qfloor x else Qceiling x.

(** Rounding to the nearest integer, a tie to the even one. *)
Definition round_half_even (x : Q) : Z :=
  let f := Qfloor x in
  match Qcompare (x - inject_Z f) (1 # 2) with
  | Lt => f
  | Gt => (f + 1)%Z
  | Eq => if Z.even f then f else (f + 1)%Z
  end.

Definition pow10 (n : nat) : Q := inject_Z (10 ^ Z.of_nat n).

(** [round(x, n)] *)
Definition round (x : Q) (n : nat) : Q :=
  Qred (inject_Z (round_half_even (x * pow10 n)) / pow10 n).

(** [max(0, x)] *)
Definition max0 (x : Q) : Q := if Qle_bool x 0 then 0%Q else x.

(** [sum(l)] *)
Definition sum (l : list Q) : Q := fold_left Qplus l 0%Q.

(** [v[k1][k2]...] on nested dictionaries, [None] where a key is
    missing. *)
Fixpoint path (ks : list text) (v : value) : option value :=
  match ks with
  | [] => Some v
  | k :: ks' =>
      match v with
      | VDict d =>
          match lookup k d with
          | Some x => path ks' x
          | None => None
          end
      | _ => None
      end
  end.

(** The keys of a dictionary, in order. *)
Definition keys (v : value) : list text :=
  match v with
  | VDict d => map fst d
  | _ => []
  end.

End Py.

Export Py(Result, Ok, Raise, value, VNone, VBool, VNum, VStr, VList, VDict, dict, item).

(** ** The collaborators *)

(** A request to [client.messages.create]. *)
Record llm_request : Type := {
  model : text;
  max_tokens : Z;
  temperature : option Q;
  system : text;
  user_content : text              (* messages=[{role: user, content: ...}] *)
}.

(** A content block of a reply; [hasattr(block, 'text')] holds of [TextBlock]
    only. *)
Inductive block : Type :=
| TextBlock (t : text)
| OtherBlock.

(** [message.usage]: a token count is [None] when it is not a number. *)
Record usage_t : Type := {
  input_tokens : option Z;
  output_tokens : option Z
}.

(** The reply of the language model; [usage] is [None] when the reply
    carries no usage metadata. *)
Record message : Type := {
  content : list block;
  usage : option usage_t
}.

(** The answer of [requests.get]; [json_body] is what [response.json()]
    gives: an object, or an exception when the body is not JSON. *)
Record http_response : Type := {
  status_code : Z;
  json_body : Result dict;
  body_text : text
}.

Record World : Type := {
  (** [time.time()], by the number of readings made before *)
  clock : nat -> Q;
  (** the ISO-8601 rendering of a UTC time *)
  isoformat : Q -> text;
  (** [hash(s)] *)
  hash : text -> Z;
  (** [client.messages.create], by the number of calls made before *)
  llm : nat -> llm_request -> Result message;
  (** [requests.get(url, params={q: city, appid: key, units: metric},
      timeout=10)], by the number of calls made before *)
  http_get : nat -> text -> text -> Result http_response;
  (** [json.dumps(v)] and [str(v)] *)
  json_dumps : value -> text;
  py_str : value -> text;
  (** [str(message.content)] *)
  str_content : list block -> text
}.

(** ** The rate-limit counter

    [update_rate_limit] has the same text in both agents
    ([weather_agent.py], lines 236-242, [language_agent.py], lines 34-40).
    It is written here on the dictionary [self.rate_limit] and on the number
    of clock readings made so far, which it returns advanced. *)

Module RateLimit.

Record t : Type := {
  limit : Z;
  remaining : Z;
  reset_at : Z
}.

(** The dictionary [__init__] builds, [now] being its reading of the
    clock. *)
Definition init (now : Q) : t :=
  {| limit := 100000; remaining := 100000;
     reset_at := (Py.int now + 3600)%Z |}.

Definition update_rate_limit (clk : nat -> Q) (rl : t) (tick : nat)
  : t * nat :=
  let rl1 := {| limit := limit rl;
                remaining := (remaining rl - 1)%Z;
                reset_at := reset_at rl |} in
  if (remaining rl1 <=? 0)%Z then
    if Qle_bool (inject_Z (reset_at rl1)) (clk tick) then
      ({| limit := limit rl1;
          remaining := limit rl1;
          reset_at := (Py.int (clk (S tick)) + 3600)%Z |}, S (S tick))
    else (rl1, S tick)
  else (rl1, tick).

(** [n] calls in a row. *)
Fixpoint calls (clk : nat -> Q) (n : nat) (rl : t) (tick : nat) : t * nat :=
  match n with
  | O => (rl, tick)
  | S n' =>
      let (rl', tick') := update_rate_limit clk rl tick in
      calls clk n' rl' tick'
  end.

End RateLimit.

(** ** Effects

    A method of an agent reads and writes the agent's fields ([Self]) and
    the trace of its dealings with the collaborators; it returns a value or
    raises.  What was written before an exception stays written. *)

Module Eff.

Record runtime : Type := {
  ticks : nat;                         (* clock readings made *)
  llm_calls : list llm_request;        (* model calls made, latest first *)
  http_calls : list text               (* cities fetched, latest first *)
}.

Definition M (Self A : Type) : Type :=
  Self -> runtime -> Result A * Self * runtime.

Section Ops.
Context {Self : Type}.

Definition ret {A} (a : A) : M Self A := fun s rt => (Ok a, s, rt).

Definition bind {A B} (m : M Self A) (k : A -> M Self B) : M Self B :=
  fun s rt =>
    match m s rt with
    | (Ok a, s', rt') => k a s' rt'
    | (Raise e, s', rt') => (Raise e, s', rt')
    end.

(** A pure step that may raise. *)
Definition lift {A} (r : Result A) : M Self A := fun s rt => (r, s, rt).

(** [try: m  except <classes>: handler] *)
Definition try_except {A} (m : M Self A) (caught : Py.exn_class -> bool)
           (handler : Py.exn -> M Self A) : M Self A :=
  fun s rt =>
    match m s rt with
    | (Ok a, s', rt') => (Ok a, s', rt')
    | (Raise e, s', rt') =>
        if caught (Py.cls e) then handler e s' rt'
        else (Raise e, s', rt')
    end.

Definition get_self : M Self Self := fun s rt => (Ok s, s, rt).
Definition put_self (s' : Self) : M Self unit := fun _ rt => (Ok tt, s', rt).

Variable W : World.

(** [time.time()] *)
Definition time : M Self Q :=
  fun s rt =>
    (Ok (clock W (ticks rt)), s,
     {| ticks := S (ticks rt);
        llm_calls := llm_calls rt; http_calls := http_calls rt |}).

(** [datetime.now(timezone.utc).isoformat()] *)
Definition now_isoformat : M Self text :=
  bind time (fun t => ret (isoformat W t)).

(** [self.client.messages.create(...)] *)
Definition create (req : llm_request) : M Self message :=
  fun s rt =>
    (llm W (List.length (llm_calls rt)) req, s,
     {| ticks := ticks rt;
        llm_calls := req :: llm_calls rt; http_calls := http_calls rt |}).

(** [requests.get(url, params=..., timeout=10)] *)
Definition requests_get (city key : text) : M Self http_response :=
  fun s rt =>
    (http_get W (List.length (http_calls rt)) city key, s,
     {| ticks := ticks rt;
        llm_calls := llm_calls rt; http_calls := city :: http_calls rt |}).
End Ops.

(** [except Exception] *)
Definition any_exception (c : Py.exn_class) : bool := true.

End Eff.

Declare Scope eff_scope.
Delimit Scope eff_scope with eff.
Notation "x <- m ;; k" := (Eff.bind m (fun x => k))
  (at level 61, m at next level, right associativity) : eff_scope.
Notation "' p <- m ;; k" := (Eff.bind m (fun p => k))
  (at level 61, p pattern, m at next level, right associativity) : eff_scope.
Notation "m ;;; k" := (Eff.bind m (fun _ => k))
  (at level 61, right associativity) : eff_scope.

Declare Scope result_scope.
Delimit Scope result_scope with result.
Notation "'let?' x := r 'in' k" :=
  (match r with Ok x => k | Raise e => Raise e end)
  (at level 10, x name, r at level 100, k at level 200) : result_scope.

(** ** Replies of the language model *)

Module Reply.

Definition haiku : text := "claude-3-haiku-20240307".

(** [message.content[0]] *)
Definition content0 (m : message) : Result block :=
  match content m with
  | b :: _ => Ok b
  | [] => Py.raise Py.IndexError "list index out of range"
  end.

(** [message.content[0].text] *)
Definition content0_text (m : message) : Result text :=
  match content0 m with
  | Ok (TextBlock t) => Ok t
  | Ok OtherBlock => Py.raise Py.AttributeError "object has no attribute 'text'"
  | Raise e => Raise e
  end.

(** [message.content[0].text if hasattr(message.content[0], 'text')
     else str(message.content)] *)
Definition response_text (W : World) (m : message) : Result text :=
  match content0 m with
  | Ok (TextBlock t) => Ok t
  | Ok OtherBlock => Ok (str_content W (content m))
  | Raise e => Raise e
  end.

End Reply.

Export Reply.

(** ** The weather agent ([src/weather_agent.py]) *)

Module WeatherAgent.

Import Eff.
Local Open Scope eff_scope.
Local Open Scope result_scope.

(** A location: the dictionary [{"city": ...}]. *)
Record location : Type := { city : text }.

Definition location_value (l : location) : value :=
  VDict [item "city" (VStr (city l))].

Definition location_eqb (a b : location) : bool := Text.eqb (city a) (city b).

(** The fields of the agent that its methods read or write. *)
Record self_t : Type := {
  weather_api_key : text;
  rate_limit : RateLimit.t;
  last_location : option location
}.

Definition M := Eff.M self_t.

Definition set_rate_limit (rl : RateLimit.t) (s : self_t) : self_t :=
  {| weather_api_key := weather_api_key s;
     rate_limit := rl;
     last_location := last_location s |}.

Definition set_last_location (l : option location) (s : self_t) : self_t :=
  {| weather_api_key := weather_api_key s;
     rate_limit := rate_limit s;
     last_location := l |}.

(** *** The patterns *)

Definition word_or_space (c : ascii) : bool := Text.is_word c || Text.is_space c.

Definition time_words : list text := texts ["today"; "now"; "tomorrow"].

(** [([\w\s]+?)(?:\s+(?:today|now|tomorrow))?\??$] *)
Definition time_tail : Re.regex :=
  Re.seqs [Re.Opt (Re.Seq (Re.Plus Text.is_space) (Re.alts time_words));
           Re.Opt (Re.Lit "?");
           Re.Eos].

Definition city_then_tail : Re.regex :=
  Re.Seq (Re.Group (Re.LazyPlus word_or_space)) time_tail.

Definition in_at_for : Re.regex := Re.alts (texts ["in"; "at"; "for"]).

Definition whats_hows : Re.regex :=
  Re.alts (texts ["what's"; "what is"; "how's"; "how is"]).

Definition location_patterns : list Re.regex :=
  [ Re.seqs [Re.Lit "weather "; in_at_for; Re.Lit " "; city_then_tail];
    Re.seqs [Re.Lit "weather "; city_then_tail];
    Re.seqs [whats_hows; Re.Lit " "; Re.Opt (Re.Lit "the "); Re.Lit "weather ";
             Re.Opt (Re.Lit "like "); in_at_for; Re.Lit " "; city_then_tail];
    Re.seqs [Re.Lit "temperature "; in_at_for; Re.Lit " "; city_then_tail] ].

(** [\s*(?:today|now|tomorrow)\s*$] *)
Definition trailing_time : Re.regex :=
  Re.seqs [Re.Star Text.is_space; Re.alts time_words;
           Re.Star Text.is_space; Re.Eos].

Definition weather_patterns : list Re.regex :=
  [ Re.Seq (Re.Lit "weather ") in_at_for;
    Re.seqs [whats_hows; Re.Lit " "; Re.Opt (Re.Lit "the "); Re.Lit "weather"];
    Re.Seq (Re.Lit "temperature ") in_at_for;
    Re.Seq (Re.Lit "is it ") (Re.alts (texts ["raining"; "snowing"; "sunny"; "cloudy"]));
    Re.Seq (Re.Lit "will it ") (Re.alts (texts ["rain"; "snow"]));
    Re.Lit "forecast" ].

Definition weather_keywords : list text :=
  texts
    [ "weather"; "temperature"; "rain"; "snow"; "wind"; "sunny"; "cloudy";
      "forecast"; "humidity"; "storm"; "climate"; "precipitation"; "cold";
      "hot"; "warm"; "chilly"; "freezing"; "degrees"; "celsius"; "fahrenheit" ].

(** The loop [for pattern in patterns: match = re.search(pattern, query)]
    up to its first match. *)
Fixpoint first_match (patterns : list Re.regex) (query : text)
  : option Re.rmatch :=
  match patterns with
  | [] => None
  | p :: ps =>
      match Re.search p query with
      | Some m => Some m
      | None => first_match ps query
      end
  end.

Definition is_weather_related (query : text) : bool :=
  let query_words := Text.split (Text.lower query) in
  existsb (fun keyword => Text.mem keyword query_words) weather_keywords.

Definition is_weather_query (query : text) : bool :=
  existsb (fun pattern =>
             match Re.search pattern (Text.lower query) with
             | Some _ => true
             | None => false
             end) weather_patterns.

Definition estimate_tokens (t : text) : Z :=
  Z.of_nat (List.length (Text.split t)).

(** *** The formatter *)

Definition unavailable : value :=
  VDict [item "error" (VStr "Weather data currently unavailable")].

Definition formatting_error : value :=
  VDict [item "error" (VStr "Error formatting weather data")].

(** [(c * 9/5) + 32] *)
Definition to_fahrenheit (c : Q) : Q := (c * 9 / 5 + 32)%Q.

(** [speed * 2.237] *)
Definition to_mph (speed : Q) : Q := (speed * (2237 # 1000))%Q.

(** The body of the [try] of [format_weather_data], statement by
    statement. *)
Definition format_body (data : dict) : Result value :=
  let? main := Py.subscript (VDict data) "main" in
  let? temp_c := Py.subscript main "temp" in
  let? temp_c_n := Py.number temp_c in
  let temp_f := to_fahrenheit temp_c_n in
  let? humidity := Py.subscript main "humidity" in
  let? weather := Py.subscript (VDict data) "weather" in
  let? weather0 := Py.subscript0 weather in
  let? description := Py.subscript weather0 "description" in
  let? wind := Py.subscript (VDict data) "wind" in
  let? wind_speed := Py.subscript wind "speed" in
  let? wind_speed_n := Py.number wind_speed in
  let wind_speed_mph := to_mph wind_speed_n in
  let? country := Py.get_method (Py.get "sys" (VDict []) data) "country" in
  let? lat := Py.get_method (Py.get "coord" (VDict []) data) "lat" in
  let? lon := Py.get_method (Py.get "coord" (VDict []) data) "lon" in
  let location_info :=
    VDict [item "city" (Py.get "name" VNone data);
           item "country" country;
           item "coordinates" (VDict [item "lat" lat; item "lon" lon])] in
  let? feels_like := Py.subscript main "feels_like" in
  let? feels_like_n := Py.number feels_like in
  let? conditions_main := Py.subscript weather0 "main" in
  let? icon := Py.subscript weather0 "icon" in
  let? deg := Py.get_method (Py.get "wind" (VDict []) data) "deg" in
  let? gust := Py.get_method (Py.get "wind" (VDict []) data) "gust" in
  let? pressure := Py.get_method main "pressure" in
  Ok (VDict
        [item "location" location_info;
         item "temperature"
           (VDict [item "celsius" (VNum (Py.round temp_c_n 1));
                   item "fahrenheit" (VNum (Py.round temp_f 1));
                   item "feels_like_c" (VNum (Py.round feels_like_n 1));
                   item "feels_like_f"
                     (VNum (Py.round (to_fahrenheit feels_like_n) 1))]);
         item "humidity" humidity;
         item "conditions"
           (VDict [item "main" conditions_main;
                   item "description" description;
                   item "icon_code" icon]);
         item "wind"
           (VDict [item "speed_ms" (VNum (Py.round wind_speed_n 2));
                   item "speed_mph" (VNum (Py.round wind_speed_mph 2));
                   item "direction_degrees" deg;
                   item "gust_ms" gust]);
         item "pressure" pressure;
         item "visibility" (Py.get "visibility" VNone data);
         item "timezone" (Py.get "timezone" VNone data)]).

Definition format_weather_data (data : dict) : Result value :=
  match data with
  | [] => Ok unavailable
  | _ =>
      if Py.has_key "error" data then Ok unavailable
      else
        match format_body data with
        | Ok v => Ok v
        | Raise e =>
            match Py.cls e with
            | Py.KeyError => Ok formatting_error
            | _ => Raise e
            end
        end
  end.

Section WithWorld.
Variable W : World.

Definition extract_location (query : text) : M (option location) :=
  let query := Text.strip (Text.lower query) in
  match first_match location_patterns query with
  | Some m =>
      match Re.group1 m with
      | Some g =>
          let location := Text.strip g in
          let location := Re.sub_empty trailing_time location in
          ret (Some {| city := location |})
      | None =>
          lift (Py.raise Py.AttributeError
                  "'NoneType' object has no attribute 'strip'")
      end
  | None =>
      try_except
        (message <- create W
           {| model := haiku; max_tokens := 70; temperature := None;
              system := "Extract only the city name from the weather query. Remove any time references. Respond with just the city name, nothing else.";
              user_content := query |} ;;
         t <- lift (content0_text message) ;;
         let location := Text.strip t in
         let location := Re.sub_empty trailing_time location in
         ret (match location with
              | [] => None
              | _ => Some {| city := location |}
              end))
        any_exception
        (fun _ => ret None)
  end.

Definition generate_weather_chat_response (query : text) (weather_data : value)
  : M text :=
  let system_prompt : text :=
    "You are a witty weather agent with a great sense of humor. 
        Generate a funny response to the user's weather-related chat that incorporates 
        both the location and current weather conditions. Keep it light and playful, 
        but informative. Use weather puns and jokes when appropriate. Keep the response concise." in
  loc <- lift (match weather_data with
               | VDict d => Ok (Py.get "location" (VDict []) d)
               | _ => Py.raise Py.AttributeError "object has no attribute 'get'"
               end) ;;
  location_name <- lift (match loc with
                         | VDict d => Ok (Py.get "city" (VStr "your area") d)
                         | _ => Py.raise Py.AttributeError "object has no attribute 'get'"
                         end) ;;
  let location_name := py_str W location_name in
  try_except
    (message <- create W
       {| model := haiku; max_tokens := 200; temperature := None;
          system := system_prompt;
          user_content :=
            "Location: " ++ location_name ++ ["010"%char]
            ++ "Current weather: " ++ json_dumps W weather_data ++ ["010"%char]
            ++ "User chat: " ++ query |} ;;
     lift (response_text W message))
    any_exception
    (fun _ => ret ("Well, " ++ location_name
                   ++ " is keeping me on my toes today... even forecasts have their cloudy moments! ðŸ˜…")).

Definition fallback_responses : list text :=
  texts
    [ "Let's forecast a change of topic to the weather instead! â˜”";
      "My expertise is as focused as a laser through a rain cloud - weather only! ðŸŒ§";
      "Like a weather vane, I only point towards meteorological matters! ðŸŒ¤";
      "My forecast shows a 100% chance of weather-related conversations ahead! ðŸŒˆ" ].

Definition generate_non_weather_response (query : text) : M text :=
  let system_prompt : text :=
    "You are a weather agent. When users ask non-weather questions:
        - Respond with EXACTLY ONE short sentence
        - Include a weather-related pun or metaphor
        - Politely redirect to weather topics
        - Keep it under 15 words" in
  try_except
    (message <- create W
       {| model := haiku; max_tokens := 50; temperature := Some (7 # 10)%Q;
          system := system_prompt;
          user_content := "Off-topic question: " ++ query |} ;;
     lift (response_text W message))
    any_exception
    (fun _ =>
       t <- time W ;;
       let i := (Py.int t mod Z.of_nat (List.length fallback_responses))%Z in
       ret (nth (Z.to_nat i) fallback_responses [])).

(** The triple is (payload or [None], elapsed milliseconds, fallback
    used). *)
Definition get_weather_data (l : location) : M (option dict * Z * bool) :=
  try_except
    (let city := Text.strip (city l) in
     match city with
     | [] => ret (None, 0%Z, true)
     | _ =>
         self <- get_self ;;
         start_time <- time W ;;
         response <- requests_get W city (weather_api_key self) ;;
         t <- time W ;;
         let api_response_time := Py.int ((t - start_time) * 1000)%Q in
         if (status_code response =? 200)%Z
         then (payload <- lift (json_body response) ;;
               ret (Some payload, api_response_time, false))
         else ret (None, api_response_time, true)
     end)
    any_exception
    (fun _ => ret (None, 0%Z, true)).

Definition update_rate_limit : M RateLimit.t :=
  fun s rt =>
    let (rl, n) :=
      RateLimit.update_rate_limit (clock W) (rate_limit s) (ticks rt) in
    (Ok rl, set_rate_limit rl s,
     {| ticks := n; llm_calls := llm_calls rt; http_calls := http_calls rt |}).

(** [bool(weather_data)]: neither [None] nor empty. *)
Definition truthy (weather_data : option dict) : bool :=
  match weather_data with
  | Some (_ :: _) => true
  | _ => false
  end.

(** [weather_data if weather_data else {}] *)
Definition or_empty (weather_data : option dict) : dict :=
  match weather_data with
  | Some d => d
  | None => []
  end.

Definition required_fields : list text := texts ["main"; "weather"; "wind"].

(** [sum(1 for field in required_fields if field in weather_data)
     / len(required_fields)] *)
Definition completeness (weather_data : dict) : Q :=
  (inject_Z (Z.of_nat (List.length
               (filter (fun field => Py.has_key field weather_data)
                       required_fields)))
   / inject_Z (Z.of_nat (List.length required_fields)))%Q.

(** [round(sum(factors), 2) if factors else 0.5] *)
Definition score_of (factors : list Q) : Q :=
  match factors with
  | [] => (1 # 2)%Q
  | _ => Py.round (Py.sum factors) 2
  end.

Definition calculate_confidence_score (weather_data : option dict)
           (claude_response : message) (response_time : Z) : M Q :=
  factors1 <-
    (if truthy weather_data && Py.has_key "dt" (or_empty weather_data)
     then
       now <- time W ;;
       dt <- lift (Py.number (Py.get "dt" VNone (or_empty weather_data))) ;;
       let data_age := (now - dt)%Q in
       let freshness_score := Py.max0 (1 - data_age / 3600)%Q in
       ret [(freshness_score * (4 # 10))%Q]
     else ret []) ;;
  let factors2 :=
    if truthy weather_data
    then factors1 ++ [(completeness (or_empty weather_data) * (4 # 10))%Q]
    else factors1 in
  let response_time_score := Py.max0 (1 - inject_Z response_time / 2000)%Q in
  let factors3 := factors2 ++ [(response_time_score * (2 # 10))%Q] in
  ret (score_of factors3).

Definition calculate_token_usage (claude_response : message) : value :=
  match usage claude_response with
  | Some {| input_tokens := Some i; output_tokens := Some o |} =>
      VDict [item "total_tokens" (VNum (inject_Z (i + o)));
             item "input_tokens" (VNum (inject_Z i));
             item "output_tokens" (VNum (inject_Z o));
             item "billable_tokens" (VNum (inject_Z (i + o)))]
  | _ =>
      let estimated_tokens :=
        estimate_tokens (str_content W (content claude_response)) in
      VDict [item "total_tokens" (VNum (inject_Z estimated_tokens));
             item "input_tokens" VNone;
             item "output_tokens" VNone;
             item "billable_tokens" (VNum (inject_Z estimated_tokens));
             item "estimation_method" (VStr "word_count_approximation")]
  end.

(** [f"req_{int(time.time())}_{hash(query) % 10000}"] *)
Definition request_id (query : text) : M value :=
  t <- time W ;;
  ret (VStr ("req_" ++ Text.of_Z (Py.int t) ++ "_"
             ++ Text.of_Z (hash W query mod 10000)%Z)).

(** [int((time.time() - start_time) * 1000)] *)
Definition elapsed_ms (start_time : Q) : M Z :=
  t <- time W ;;
  ret (Py.int ((t - start_time) * 1000)%Q).

(** The dictionary with the reset time rendered, as the off-topic and the
    report envelopes carry it. *)
Definition rate_limit_rendered (rl : RateLimit.t) : value :=
  VDict [item "limit" (VNum (inject_Z (RateLimit.limit rl)));
         item "remaining" (VNum (inject_Z (RateLimit.remaining rl)));
         item "reset_at"
           (VStr (isoformat W (inject_Z (RateLimit.reset_at rl))))].

(** The dictionary [self.rate_limit] itself, as the chat envelope carries
    it. *)
Definition rate_limit_value (rl : RateLimit.t) : value :=
  VDict [item "limit" (VNum (inject_Z (RateLimit.limit rl)));
         item "remaining" (VNum (inject_Z (RateLimit.remaining rl)));
         item "reset_at" (VNum (inject_Z (RateLimit.reset_at rl)))].

Definition location_error : value :=
  VDict [item "error" (VStr "Could not determine location from query")].

Definition general : location := {| city := "general" |}.

Definition off_topic (query : text) (start_time : Q) : M value :=
  rate_limit <- update_rate_limit ;;
  rid <- request_id query ;;
  timestamp <- now_isoformat W ;;
  response_time_ms <- elapsed_ms start_time ;;
  reply <- generate_non_weather_response query ;;
  ret (VDict
         [item "meta"
            (VDict [item "request_id" rid;
                    item "timestamp" (VStr timestamp);
                    item "response_time_ms" (VNum (inject_Z response_time_ms));
                    item "api_response_time_ms" (VNum 0%Q);
                    item "version" (VStr "1.0.0")]);
          item "rate_limit" (rate_limit_rendered rate_limit);
          item "response"
            (VDict [item "text" (VStr reply);
                    item "type" (VStr "off_topic_response");
                    item "confidence_score" (VNum 1%Q);
                    item "data_freshness" (VStr "N/A");
                    item "fallback_used" (VBool false)]);
          item "usage"
            (VDict [item "total_tokens" (VNum 0%Q);
                    item "input_tokens" (VNum 0%Q);
                    item "output_tokens" (VNum 0%Q);
                    item "billable_tokens" (VNum 0%Q);
                    item "estimation_method" (VStr "no_tokens_used")]);
          item "query"
            (VDict [item "text" (VStr query);
                    item "is_weather_related" (VBool false);
                    item "extracted_location" VNone])]).

(** Lines 345-385: the weather-related chat. *)
Definition weather_chat (query : text) (start_time : Q) (l : location)
           (formatted_weather : value) (api_response_time : Z)
           (fallback_used : bool) : M value :=
  message <- create W
    {| model := haiku; max_tokens := 200; temperature := None;
       system := "You are a witty weather chatbot. Be funny and engaging while discussing weather. Reference the location if available.";
       user_content :=
         "The user is talking about " ++ city l ++ ". Their message: " ++ query |} ;;
  total_response_time <- elapsed_ms start_time ;;
  let token_usage := calculate_token_usage message in
  rate_limit <- update_rate_limit ;;
  rid <- request_id query ;;
  timestamp <- now_isoformat W ;;
  reply <- generate_weather_chat_response query formatted_weather ;;
  self <- get_self ;;
  let location_context : text :=
    match last_location self with
    | Some last => if location_eqb l last then "cached" else "new"
    | None => "new"
    end in
  ret (VDict
         [item "meta"
            (VDict [item "request_id" rid;
                    item "timestamp" (VStr timestamp);
                    item "response_time_ms" (VNum (inject_Z total_response_time));
                    item "api_response_time_ms" (VNum (inject_Z api_response_time));
                    item "version" (VStr "1.0.0")]);
          item "rate_limit" (rate_limit_value rate_limit);
          item "weather_data" formatted_weather;
          item "response"
            (VDict [item "text" (VStr reply);
                    item "type" (VStr "weather_chat");
                    item "confidence_score" (VNum (8 # 10)%Q);
                    item "data_freshness" (VStr "chat response");
                    item "fallback_used" (VBool fallback_used);
                    item "location_context" (VStr location_context)]);
          item "usage" token_usage;
          item "query"
            (VDict [item "text" (VStr query);
                    item "is_weather_related" (VBool true);
                    item "extracted_location" (location_value l)])]).

(** Lines 387-432: the weather report of a direct query. *)
Definition weather_report (query : text) (start_time : Q) (l : location)
           (weather_data : option dict) (formatted_weather : value)
           (api_response_time : Z) (fallback_used : bool) : M value :=
  message <- create W
    {| model := haiku; max_tokens := 400; temperature := None;
       system := "You are a helpful and friendly weather assistant. Provide your response as plain text.";
       user_content :=
         "Current weather data: " ++ json_dumps W formatted_weather
         ++ " User query: " ++ query |} ;;
  total_response_time <- elapsed_ms start_time ;;
  data_freshness <-
    (if truthy weather_data && Py.has_key "dt" (or_empty weather_data)
     then
       now <- time W ;;
       dt <- lift (Py.number (Py.get "dt" VNone (or_empty weather_data))) ;;
       ret (Some (Py.int (now - dt)%Q))
     else ret None) ;;
  confidence_score <-
    calculate_confidence_score weather_data message total_response_time ;;
  let token_usage := calculate_token_usage message in
  rate_limit <- update_rate_limit ;;
  reply <- lift (response_text W message) ;;
  rid <- request_id query ;;
  timestamp <- now_isoformat W ;;
  let freshness_text : text :=
    match data_freshness with
    | Some 0%Z | None => "unknown"
    | Some n => Text.of_Z n ++ " seconds ago"
    end in
  ret (VDict
         [item "meta"
            (VDict [item "request_id" rid;
                    item "timestamp" (VStr timestamp);
                    item "response_time_ms" (VNum (inject_Z total_response_time));
                    item "api_response_time_ms" (VNum (inject_Z api_response_time));
                    item "version" (VStr "1.0.0")]);
          item "rate_limit" (rate_limit_rendered rate_limit);
          item "weather_data" formatted_weather;
          item "response"
            (VDict [item "text" (VStr reply);
                    item "type" (VStr "weather_report");
                    item "confidence_score" (VNum confidence_score);
                    item "data_freshness" (VStr freshness_text);
                    item "fallback_used" (VBool fallback_used)]);
          item "usage" token_usage;
          item "query"
            (VDict [item "text" (VStr query);
                    item "extracted_location" (location_value l)])]).

(** Lines 341-432: fetch, format, then the chat or the report. *)
Definition answer (query : text) (start_time : Q)
           (is_direct_weather_query is_weather_chat : bool) (l : location)
  : M value :=
  ' (weather_data, api_response_time, fallback_used) <- get_weather_data l ;;
  formatted_weather <- lift (format_weather_data (or_empty
                               (if truthy weather_data then weather_data else None))) ;;
  if is_weather_chat && negb is_direct_weather_query
  then weather_chat query start_time l formatted_weather
                    api_response_time fallback_used
  else weather_report query start_time l weather_data formatted_weather
                      api_response_time fallback_used.

(** [process_query].  The chain of lines 329-339 is written on the two
    options: a location dictionary is never empty, so [not location]
    holds of [None] only, and [self.last_location] is [None] or such a
    dictionary. *)
Definition process_query (query : text) : M value :=
  start_time <- time W ;;
  let is_direct_weather_query := is_weather_query query in
  let is_weather_chat := is_weather_related query in
  if negb (is_direct_weather_query || is_weather_chat)
  then off_topic query start_time
  else
    found <- extract_location query ;;
    self <- get_self ;;
    match found, last_location self with
    | None, Some last =>
        if is_weather_chat && negb is_direct_weather_query
        then answer query start_time is_direct_weather_query is_weather_chat last
        else if is_direct_weather_query
             then ret location_error
             else answer query start_time is_direct_weather_query
                         is_weather_chat general
    | Some l, _ =>
        put_self (set_last_location (Some l) self) ;;;
        answer query start_time is_direct_weather_query is_weather_chat l
    | None, None =>
        if is_direct_weather_query
        then ret location_error
        else answer query start_time is_direct_weather_query
                    is_weather_chat general
    end.

End WithWorld.

End WeatherAgent.

(** ** The language agent ([src/language_agent.py]) *)

Module LanguageAgent.

Import Eff.
Local Open Scope eff_scope.

Record self_t : Type := { rate_limit : RateLimit.t }.

Definition M := Eff.M self_t.

(** The token limits that [__init__] sets and nothing changes. *)
Definition MIN_INPUT_TOKENS : Z := 1.
Definition MAX_OUTPUT_TOKENS : Z := 512.
Definition MAX_TOTAL_TOKENS : Z := 200000.

(** [max(1, len(text) // 4)] *)
Definition estimate_tokens (t : text) : Z := Z.max 1 (Text.len t / 4).

Definition validate_input_length (t : text) : bool :=
  let estimated_tokens := estimate_tokens t in
  (MIN_INPUT_TOKENS <=? estimated_tokens)%Z
  && (estimated_tokens <=? MAX_TOTAL_TOKENS)%Z.

Section WithWorld.
Variable W : World.

Definition update_rate_limit : M RateLimit.t :=
  fun s rt =>
    let (rl, n) :=
      RateLimit.update_rate_limit (clock W) (rate_limit s) (ticks rt) in
    (Ok rl, {| rate_limit := rl |},
     {| ticks := n; llm_calls := llm_calls rt; http_calls := http_calls rt |}).

Definition calculate_token_usage (claude_response : message) : value :=
  match usage claude_response with
  | Some {| input_tokens := Some i; output_tokens := Some o |} =>
      VDict [item "total_tokens" (VNum (inject_Z (i + o)));
             item "input_tokens" (VNum (inject_Z i));
             item "output_tokens" (VNum (inject_Z o));
             item "billable_tokens" (VNum (inject_Z (i + o)))]
  | _ =>
      let estimated_tokens :=
        estimate_tokens (str_content W (content claude_response)) in
      VDict [item "total_tokens" (VNum (inject_Z estimated_tokens));
             item "input_tokens" VNone;
             item "output_tokens" VNone;
             item "billable_tokens" (VNum (inject_Z estimated_tokens));
             item "estimation_method" (VStr "word_count_approximation")]
  end.

(** The envelope of both error returns: [{"error": ..., "meta":
    {"timestamp": ...}}]. *)
Definition error_envelope (message : text) : M value :=
  timestamp <- now_isoformat W ;;
  ret (VDict [item "error" (VStr message);
              item "meta" (VDict [item "timestamp" (VStr timestamp)])]).

Definition process_query (user_input language : text) : M value :=
  start_time <- time W ;;
  try_except
    (if negb (validate_input_length user_input)
     then
       error_envelope
         ("Input text must be between " ++ Text.of_Z MIN_INPUT_TOKENS
          ++ " and " ++ Text.of_Z MAX_TOTAL_TOKENS ++ " tokens")
     else
       message <- create W
         {| model := haiku;
            max_tokens := MAX_OUTPUT_TOKENS;
            temperature := None;
            system := "You are a helpful language assistant. Respond in "
                      ++ language ++ " language only.";
            user_content := user_input |} ;;
       t <- time W ;;
       let total_response_time := Py.int ((t - start_time) * 1000)%Q in
       let token_usage := calculate_token_usage message in
       rate_limit <- update_rate_limit ;;
       response_text <- lift (response_text W message) ;;
       t_id <- time W ;;
       timestamp <- now_isoformat W ;;
       ret (VDict
              [item "meta"
                 (VDict [item "request_id"
                           (VStr ("req_" ++ Text.of_Z (Py.int t_id) ++ "_"
                                  ++ Text.of_Z (hash W user_input mod 10000)%Z));
                         item "timestamp" (VStr timestamp);
                         item "response_time_ms"
                           (VNum (inject_Z total_response_time));
                         item "version" (VStr "1.0.0");
                         item "token_limits"
                           (VDict [item "min_input"
                                     (VNum (inject_Z MIN_INPUT_TOKENS));
                                   item "max_output"
                                     (VNum (inject_Z MAX_OUTPUT_TOKENS))])]);
               item "rate_limit"
                 (VDict [item "limit"
                           (VNum (inject_Z (RateLimit.limit rate_limit)));
                         item "remaining"
                           (VNum (inject_Z (RateLimit.remaining rate_limit)));
                         item "reset_at"
                           (VStr (isoformat W
                                    (inject_Z (RateLimit.reset_at rate_limit))))]);
               item "response"
                 (VDict [item "text" (VStr response_text);
                         item "type" (VStr "language_response");
                         item "language" (VStr language)]);
               item "usage" token_usage;
               item "query"
                 (VDict [item "text" (VStr user_input);
                         item "target_language" (VStr language)])]))
    any_exception
    (fun e => error_envelope (Py.msg e)).

End WithWorld.

End LanguageAgent.

(** ** The routes ([src/combined_agent.py])

    The handler of [POST /weather/query], on what Flask hands it: the value
    of the [X-API-Key] header and the outcome of [request.get_json()].  Its
    answer is the body given to [jsonify] and the status code.  The language
    route forwards any JSON value to the model client as the message
    content; it is modelled where that value is a string. *)

Module Routes.

Import Eff.
Local Open Scope eff_scope.

Definition API_KEY : text := "neha-2024".

Record request : Type := {
  x_api_key : option text;           (* request.headers.get("X-API-Key") *)
  get_json : Result value            (* request.get_json() *)
}.

(** [bool(v)] *)
Definition truth (v : value) : bool :=
  match v with
  | VNone => false
  | VBool b => b
  | VNum q => negb (Qeq_bool q 0)
  | VStr [] => false
  | VStr _ => true
  | VList [] => false
  | VList _ => true
  | VDict [] => false
  | VDict _ => true
  end.

(** [k in s] for two strings: [k] occurs in [s]. *)
Fixpoint occurs (k s : text) : bool :=
  match Re.match_lit k s with
  | Some _ => true
  | None => match s with [] => false | _ :: s' => occurs k s' end
  end.

(** [k in v] for a string [k]: a key of a dictionary, an element of a
    list, a part of a string; other values are not iterable. *)
Definition contains (k : text) (v : value) : Result bool :=
  match v with
  | VDict d => Ok (Py.has_key k d)
  | VList l =>
      Ok (existsb (fun x => match x with
                            | VStr s => Text.eqb k s
                            | _ => false
                            end) l)
  | VStr s => Ok (occurs k s)
  | _ => Py.raise Py.TypeError "argument is not iterable"
  end.

Definition error_body (m : text) : value := VDict [item "error" (VStr m)].

Section WithWorld.
Variable W : World.

(** [weather_agent.process_query(query)] for whatever the body holds under
    [query]: a value that is not a string has no [lower], which
    [is_weather_query] asks for right after the clock is read. *)
Definition process_query_of (query : value) : WeatherAgent.M value :=
  match query with
  | VStr q => WeatherAgent.process_query W q
  | _ =>
      start_time <- time W ;;
      lift (Py.raise Py.AttributeError "object has no attribute 'lower'")
  end.

Definition weather_query (req : request) : WeatherAgent.M (value * Z) :=
  let api_key := x_api_key req in
  if match api_key with
     | None => true
     | Some k => match k with [] => true | _ => negb (Text.eqb k API_KEY) end
     end
  then ret (error_body "Invalid API key", 401%Z)
  else
    data <- lift (get_json req) ;;
    missing <- lift (if negb (truth data) then Ok true
                     else match contains "query" data with
                          | Ok b => Ok (negb b)
                          | Raise e => Raise e
                          end) ;;
    if (missing : bool)
    then ret (error_body "Missing query parameter", 400%Z)
    else
      try_except
        (query <- lift (Py.subscript data "query") ;;
         response <- process_query_of query ;;
         ret (response, 200%Z))
        any_exception
        (fun e =>
           timestamp <- now_isoformat W ;;
           ret (VDict [item "error" (VStr (Py.msg e));
                       item "meta"
                         (VDict [item "timestamp" (VStr timestamp)])],
                500%Z)).

(** The handler of [POST /language/query], which reads no header.  The
    agent is modelled on strings: where [user_input] or [language] is
    another JSON value the answer is [None], outside the model. *)
Definition language_query (req : request)
  : LanguageAgent.M (option (value * Z)) :=
  data <- lift (get_json req) ;;
  missing <- lift (if negb (truth data) then Ok true
                   else match contains "user_input" data with
                        | Ok b => Ok (negb b)
                        | Raise e => Raise e
                        end) ;;
  if (missing : bool)
  then ret (Some (error_body "Missing user_input parameter", 400%Z))
  else
    try_except
      (user_input <- lift (Py.subscript data "user_input") ;;
       language <- lift (match data with
                         | VDict d => Ok (Py.get "language" (VStr "en") d)
                         | _ => Py.raise Py.AttributeError
                                  "object has no attribute 'get'"
                         end) ;;
       match user_input, language with
       | VStr u, VStr l =>
           response <- LanguageAgent.process_query W u l ;;
           ret (Some (response, 200%Z))
       | _, _ => ret None
       end)
      any_exception
      (fun e => ret (Some (error_body (Py.msg e), 500%Z))).

End WithWorld.

End Routes.

(** ** Sample worlds and inputs

    Concrete collaborators, agents and inputs at which the properties below
    are evaluated. *)

Module Samples.

(** A world in which nothing answers: the model client and the HTTP client
    raise, the clock stands at 0 and every rendering is empty. *)
Definition silent_world : World :=
  {| clock := fun _ => 0%Q;
     isoformat := fun _ => [];
     hash := fun _ => 0%Z;
     llm := fun _ _ => Py.raise Py.OtherError "connection error";
     http_get := fun _ _ _ => Py.raise Py.OtherError "connection error";
     json_dumps := fun _ => [];
     py_str := fun _ => [];
     str_content := fun _ => [] |}.

Definition fresh_runtime : Eff.runtime :=
  {| Eff.ticks := 0; Eff.llm_calls := []; Eff.http_calls := [] |}.

(** A language agent just built, at time 0. *)
Definition fresh_language_agent : LanguageAgent.self_t :=
  {| LanguageAgent.rate_limit := RateLimit.init 0 |}.

(** An input of 800004 characters: its estimate is 200001 tokens. *)
Definition long_input : text := repeat "a"%char (Z.to_nat 800004).

(** A payload with every field the formatter requires, for a temperature
    and a wind speed. *)
Definition sample_payload (temp_c speed_ms : Q) : dict :=
  [item "main" (VDict [item "temp" (VNum temp_c);
                       item "humidity" (VNum 50);
                       item "feels_like" (VNum temp_c)]);
   item "weather" (VList [VDict [item "main" (VStr "Clear");
                                 item "description" (VStr "clear sky");
                                 item "icon" (VStr "01d")]]);
   item "wind" (VDict [item "speed" (VNum speed_ms)])].

(** A payload with every required key but an empty [weather] list. *)
Definition payload_without_conditions : dict :=
  [item "main" (VDict [item "temp" (VNum 20);
                       item "humidity" (VNum 50);
                       item "feels_like" (VNum 19)]);
   item "weather" (VList []);
   item "wind" (VDict [item "speed" (VNum 3)])].

(** A weather agent just built, at time 0. *)
Definition fresh_weather_agent : WeatherAgent.self_t :=
  {| WeatherAgent.weather_api_key := "key";
     WeatherAgent.rate_limit := RateLimit.init 0;
     WeatherAgent.last_location := None |}.

(** A reply of the model with text and usage. *)
Definition sample_reply : message :=
  {| content := [TextBlock "Sunny."];
     usage := Some {| input_tokens := Some 30%Z; output_tokens := Some 5%Z |} |}.

(** A complete payload stamped one hour ahead of the clock of
    [silent_world]. *)
Definition payload_from_the_future : dict :=
  item "dt" (VNum 3600) :: sample_payload 20 3.

(** A world in which the model answers [sample_reply] and the provider
    knows no city: every request gets status 404. *)
Definition world_without_cities : World :=
  {| clock := fun _ => 0%Q;
     isoformat := fun _ => [];
     hash := fun _ => 0%Z;
     llm := fun _ _ => Ok sample_reply;
     http_get := fun _ _ _ =>
       Ok {| status_code := 404;
             json_body := Ok [item "cod" (VStr "404");
                              item "message" (VStr "city not found")];
             body_text := "city not found" |};
     json_dumps := fun _ => [];
     py_str := fun _ => [];
     str_content := fun _ => [] |}.

(** The envelope, or [None] after an exception, and the agent that
    [process_query] leaves. *)
Definition envelope_of (W : World) (q : text) : option value :=
  match WeatherAgent.process_query W q fresh_weather_agent fresh_runtime with
  | (Ok env, _, _) => Some env
  | (Raise _, _, _) => None
  end.

Definition agent_after (W : World) (q : text) : WeatherAgent.self_t :=
  snd (fst (WeatherAgent.process_query W q fresh_weather_agent fresh_runtime)).

Definition runtime_after (W : World) (q : text) : Eff.runtime :=
  snd (WeatherAgent.process_query W q fresh_weather_agent fresh_runtime).

(** A field of an envelope. *)
Definition field (ks : list string) (env : option value) : option value :=
  match env with
  | Some v => Py.path (texts ks) v
  | None => None
  end.

(** A world like [world_without_cities] in which the first model call, the
    extractor's, fails. *)
Definition world_with_failing_extractor : World :=
  {| clock := clock world_without_cities;
     isoformat := isoformat world_without_cities;
     hash := hash world_without_cities;
     llm := fun n req =>
       match n with
       | O => Py.raise Py.OtherError "overloaded"
       | S _ => Ok sample_reply
       end;
     http_get := http_get world_without_cities;
     json_dumps := json_dumps world_without_cities;
     py_str := py_str world_without_cities;
     str_content := str_content world_without_cities |}.

(** A city name as the extractor's claim is settled for: word characters
    and spaces, a word character first and last. *)
Definition plain_city (c : text) : bool :=
  match c with
  | [] => false
  | ch :: _ => Text.is_word ch
  end
  && Text.is_word (last c " "%char)
  && forallb (fun ch => Text.is_word ch || Ascii.eqb ch " ") c.

(** [s.endswith(w)] *)
Definition ends_with (w s : text) : bool :=
  Text.eqb (skipn (List.length s - List.length w) s) w.

Definition ends_with_time_word (s : text) : bool :=
  existsb (fun w => ends_with w s) WeatherAgent.time_words.

(** The continuation that [re] ends a match with. *)
Definition matched (s' : text) (g : option text) : option Re.rmatch :=
  Some {| Re.rest := s'; Re.group1 := g |}.

End Samples.

(** ** Notions used in the statements *)

Module Notions.

Import Eff WeatherAgent.

(** The keys of the complete formatted record. *)
Definition record_keys : list text :=
  texts ["location"; "temperature"; "humidity"; "conditions"; "wind";
         "pressure"; "visibility"; "timezone"].

(** [m] never writes a field of the agent, whether it returns or raises. *)
Definition frames {Self A : Type} (m : Eff.M Self A) : Prop :=
  forall s rt, snd (fst (m s rt)) = s.

(** The counter of [s'] is the counter of [s] after exactly one call of
    [update_rate_limit]. *)
Definition updated_once (W : World) (s s' : self_t) : Prop :=
  exists tick,
    rate_limit s' =
      fst (RateLimit.update_rate_limit (clock W) (rate_limit s) tick).

Definition at_most_once (W : World) (s s' : self_t) : Prop :=
  rate_limit s' = rate_limit s \/ updated_once W s s'.

(** The context that the chat envelope reports for location [l] when the
    agent's last location is [last]. *)
Definition context_of (l : location) (last : option location) : text :=
  match last with
  | Some x => if location_eqb l x then "cached" else "new"
  | None => "new"
  end.

(** The provider answers every request, and never with status 200. *)
Definition provider_never_200 (W : World) : Prop :=
  forall n city key,
    exists resp, http_get W n city key = Ok resp /\ status_code resp <> 200%Z.

(** The runtime after one reading of the clock. *)
Definition ticked (rt : runtime) : runtime :=
  {| ticks := S (ticks rt);
     llm_calls := llm_calls rt; http_calls := http_calls rt |}.

(** The ways through [process_query]: the off-topic reply; the location
    error; or an answer for the location extracted (which is cached first),
    for the last location, or for the sentinel. *)
Inductive route (W : World) (q : text) (s : self_t) (rt : runtime)
          (r : Result value) (s' : self_t) (rt' : runtime) : Prop :=
| OffTopic :
    is_weather_query q || is_weather_related q = false ->
    off_topic W q (clock W (ticks rt)) s (ticked rt) = (r, s', rt') ->
    route W q s rt r s' rt'
| ExtractorRaised (e : Py.exn) :
    is_weather_query q || is_weather_related q = true ->
    extract_location W q s (ticked rt) = (Raise e, s', rt') ->
    r = Raise e -> s' = s ->
    route W q s rt r s' rt'
| NoLocation :
    is_weather_query q = true ->
    extract_location W q s (ticked rt) = (Ok None, s', rt') ->
    r = Ok location_error -> s' = s ->
    route W q s rt r s' rt'
| Extracted (l : location) (rt1 : runtime) :
    is_weather_query q || is_weather_related q = true ->
    extract_location W q s (ticked rt) = (Ok (Some l), s, rt1) ->
    answer W q (clock W (ticks rt)) (is_weather_query q) (is_weather_related q)
           l (set_last_location (Some l) s) rt1 = (r, s', rt') ->
    route W q s rt r s' rt'
| Reused (last : location) (rt1 : runtime) :
    is_weather_query q = false -> is_weather_related q = true ->
    extract_location W q s (ticked rt) = (Ok None, s, rt1) ->
    last_location s = Some last ->
    answer W q (clock W (ticks rt)) false true last s rt1 = (r, s', rt') ->
    route W q s rt r s' rt'
| Sentinel (rt1 : runtime) :
    is_weather_query q = false -> is_weather_related q = true ->
    extract_location W q s (ticked rt) = (Ok None, s, rt1) ->
    last_location s = None ->
    answer W q (clock W (ticks rt)) false true general s rt1 = (r, s', rt') ->
    route W q s rt r s' rt'.

(** Texts that begin, and that end, with a word character. *)
Definition word_first (s : text) : Prop :=
  exists h tl, s = h :: tl /\ Text.is_word h = true.

Definition word_last (s : text) : Prop :=
  exists b z, s = b ++ [z] /\ Text.is_word z = true.

End Notions.

(** ** Further notions and samples *)

Module More.

Import Eff WeatherAgent.

(** A pattern without a capture group. *)
Fixpoint groupless (r : Re.regex) : bool :=
  match r with
  | Re.Group _ => false
  | Re.Alt r1 r2 | Re.Seq r1 r2 => groupless r1 && groupless r2
  | Re.Opt r1 => groupless r1
  | _ => true
  end.

(** A pattern every match of which sets group 1. *)
Fixpoint captures (r : Re.regex) : bool :=
  match r with
  | Re.Group _ => true
  | Re.Seq r1 r2 => captures r2 || (captures r1 && groupless r2)
  | Re.Alt r1 r2 => captures r1 && captures r2
  | _ => false
  end.

(** [m] makes at most [a] model calls and [b] HTTP requests, and logs
    them in front of the calls made before. *)
Definition spends {Self A : Type} (a b : nat) (m : Eff.M Self A) : Prop :=
  forall s rt,
    exists new_llm new_http,
      llm_calls (snd (m s rt)) = new_llm ++ llm_calls rt
      /\ List.length new_llm <= a
      /\ http_calls (snd (m s rt)) = new_http ++ http_calls rt
      /\ List.length new_http <= b.

(** The request of the extractor's fallback. *)
Definition extractor_request (query : text) : llm_request :=
  {| model := haiku; max_tokens := 70; temperature := None;
     system := "Extract only the city name from the weather query. Remove any time references. Respond with just the city name, nothing else.";
     user_content := query |}.

(** A world in which the provider knows every city: status 200 and a
    complete payload, read half a second after the request was sent. *)
Definition world_with_cities : World :=
  {| clock := fun n => (inject_Z (Z.of_nat n) / 2)%Q;
     isoformat := fun _ => [];
     hash := fun _ => 0%Z;
     llm := fun _ _ => Ok Samples.sample_reply;
     http_get := fun _ _ _ =>
       Ok {| status_code := 200;
             json_body := Ok (Samples.sample_payload 20 3);
             body_text := [] |};
     json_dumps := fun _ => [];
     py_str := fun _ => [];
     str_content := fun _ => [] |}.

(** The request of the language agent for an input and a language. *)
Definition language_request (language user_input : text) : llm_request :=
  {| model := haiku; max_tokens := 512; temperature := None;
     system := "You are a helpful language assistant. Respond in "
               ++ language ++ " language only.";
     user_content := user_input |}.

(** The error envelope of the language agent and of the weather route. *)
Definition error_value (message timestamp : text) : value :=
  VDict [item "error" (VStr message);
         item "meta" (VDict [item "timestamp" (VStr timestamp)])].

(** The language agent after one counted request, the counter stepped at
    the clock reading [tick]. *)
Definition counted (W : World) (s : LanguageAgent.self_t) (tick : nat)
  : LanguageAgent.self_t :=
  {| LanguageAgent.rate_limit :=
       fst (RateLimit.update_rate_limit
              (clock W) (LanguageAgent.rate_limit s) tick) |}.

(** A world in which the model replies without any content block. *)
Definition world_with_empty_reply : World :=
  {| clock := fun _ => 0%Q;
     isoformat := fun _ => [];
     hash := fun _ => 0%Z;
     llm := fun _ _ => Ok {| content := []; usage := None |};
     http_get := fun _ _ _ => Py.raise Py.OtherError "connection error";
     json_dumps := fun _ => [];
     py_str := fun _ => [];
     str_content := fun _ => [] |}.

(** A value that arithmetic and [round] take: a number or a boolean. *)
Definition is_number (v : value) : bool :=
  match v with
  | VNum _ | VBool _ => true
  | _ => false
  end.

Definition number_at (k : text) (d : dict) : bool :=
  match Py.lookup k d with
  | Some v => is_number v
  | None => false
  end.

(** [data.get(k, {})] is a dictionary. *)
Definition dict_or_absent (k : text) (data : dict) : bool :=
  match Py.lookup k data with
  | None | Some (VDict _) => true
  | Some _ => false
  end.

(** A payload with what the formatter reads: numbers under [main.temp],
    [main.feels_like] and [wind.speed], [main.humidity], a first element
    of [weather] with [description], [main] and [icon], no [error], and
    [sys] and [coord] dictionaries where they are present. *)
Definition complete_payload (data : dict) : bool :=
  negb (Py.has_key "error" data)
  && match Py.lookup "main" data with
     | Some (VDict m) =>
         number_at "temp" m && Py.has_key "humidity" m
         && number_at "feels_like" m
     | _ => false
     end
  && match Py.lookup "weather" data with
     | Some (VList (VDict w :: _)) =>
         Py.has_key "description" w && Py.has_key "main" w
         && Py.has_key "icon" w
     | _ => false
     end
  && match Py.lookup "wind" data with
     | Some (VDict w) => number_at "speed" w
     | _ => false
     end
  && dict_or_absent "sys" data
  && dict_or_absent "coord" data.

End More.

(** * Properties *)

(** ** The matcher *)

Module ReFacts.

Import Re.

Lemma match_lit_some (l s s' : text) :
  match_lit l s = Some s' -> s = l ++ s'.
Proof.
  revert s. induction l as [|c l IH]; intros s H.
  - cbn in H. now injection H as <-.
  - destruct s as [|d s]; [discriminate H|]. cbn in H.
    destruct (Ascii.eqb c d) eqn:E; [|discriminate H].
    apply Ascii.eqb_eq in E. subst d. cbn. f_equal. now apply IH.
Qed.

Lemma match_lit_app (l s : text) : match_lit l (l ++ s) = Some s.
Proof.
  induction l as [|c l IH]; [reflexivity|]. cbn.
  now rewrite Ascii.eqb_refl.
Qed.

Section Loops.
Context {R : Type}.
Variable cls : ascii -> bool.
Variable k : text -> option R.

Lemma star_some (s : text) (x : R) :
  star cls k s = Some x ->
  exists w rest, s = w ++ rest /\ forallb cls w = true /\ k rest = Some x.
Proof.
  induction s as [|c s IH]; cbn; intro H.
  - now exists [], [].
  - destruct (cls c) eqn:C; [|now exists [], (c :: s)].
    destruct (star cls k s) as [y|] eqn:E.
    + injection H as ->. destruct (IH eq_refl) as (w & rest & -> & F & K).
      exists (c :: w), rest. cbn. now rewrite C.
    + now exists [], (c :: s).
Qed.

Lemma plus_some (s : text) (x : R) :
  plus cls k s = Some x ->
  exists w rest,
    s = w ++ rest /\ w <> [] /\ forallb cls w = true /\ k rest = Some x.
Proof.
  destruct s as [|c s]; cbn; [discriminate|].
  destruct (cls c) eqn:C; [|discriminate]. intro H.
  apply star_some in H as (w & rest & -> & F & K).
  exists (c :: w), rest. cbn. rewrite C. repeat split; try assumption.
  discriminate.
Qed.

Lemma lazy_plus_some (s : text) (x : R) :
  lazy_plus cls k s = Some x ->
  exists w rest,
    s = w ++ rest /\ w <> [] /\ forallb cls w = true /\ k rest = Some x.
Proof.
  induction s as [|c s IH]; cbn; [discriminate|].
  destruct (cls c) eqn:C; [|discriminate].
  destruct (k s) as [y|] eqn:E.
  - intros [= ->]. exists [c], s. cbn. rewrite C. repeat split; try assumption.
    discriminate.
  - intro H. destruct (IH H) as (w & rest & -> & N & F & K).
    exists (c :: w), rest. cbn. rewrite C. repeat split; try assumption.
    discriminate.
Qed.

(** The lazy loop stops at the first place where the continuation
    succeeds. *)
Lemma lazy_plus_first (a b : text) (x : R) :
  a <> [] -> forallb cls a = true ->
  (forall a1 a2, a = a1 ++ a2 -> a1 <> [] -> a2 <> [] -> k (a2 ++ b) = None) ->
  k b = Some x ->
  lazy_plus cls k (a ++ b) = Some x.
Proof.
  induction a as [|c a IH]; intros N F Hnone Hk; [congruence|].
  cbn in F. apply andb_true_iff in F as [C F]. cbn. rewrite C.
  destruct a as [|d a'].
  - cbn. now rewrite Hk.
  - rewrite (Hnone [c] (d :: a')) by (reflexivity || discriminate).
    apply IH; try assumption; [discriminate|].
    intros a1 a2 E N1 N2. apply (Hnone (c :: a1) a2); try assumption.
    + cbn. now rewrite E.
    + discriminate.
Qed.
End Loops.

(** Whatever the matcher accepts, the pattern matches. *)
Lemma run_sound (r : regex) :
  forall (R : Type) (s : text) (g : option text)
         (k : text -> option text -> option R) (x : R),
    run r s g k = Some x ->
    exists w rest g',
      s = w ++ rest /\ matches r w rest /\ k rest g' = Some x.
Proof.
  induction r as [l|r1 IH1 r2 IH2|r1 IH1 r2 IH2|r1 IH1|cls|cls|cls|r1 IH1|];
    intros R s g k x H; cbn in H.
  - destruct (match_lit l s) as [s'|] eqn:E; [|discriminate H].
    apply match_lit_some in E. now exists l, s', g.
  - destruct (run r1 s g k) as [y|] eqn:E.
    + injection H as ->. destruct (IH1 _ _ _ _ _ E) as (w & rest & g' & ? & ? & ?).
      exists w, rest, g'. cbn. auto.
    + destruct (IH2 _ _ _ _ _ H) as (w & rest & g' & ? & ? & ?).
      exists w, rest, g'. cbn. auto.
  - destruct (IH1 _ _ _ _ _ H) as (w1 & rest1 & g1 & -> & M1 & H2).
    destruct (IH2 _ _ _ _ _ H2) as (w2 & rest & g2 & -> & M2 & K).
    exists (w1 ++ w2), rest, g2. rewrite <- app_assoc.
    split; [reflexivity|]. split; [|exact K]. cbn. now exists w1, w2.
  - destruct (run r1 s g k) as [y|] eqn:E.
    + injection H as ->. destruct (IH1 _ _ _ _ _ E) as (w & rest & g' & ? & ? & ?).
      exists w, rest, g'. cbn. auto.
    + exists [], s, g. cbn. auto.
  - apply plus_some in H as (w & rest & -> & N & F & K).
    exists w, rest, g. cbn. auto.
  - apply lazy_plus_some in H as (w & rest & -> & N & F & K).
    exists w, rest, g. cbn. auto.
  - apply star_some in H as (w & rest & -> & F & K).
    exists w, rest, g. cbn. auto.
  - destruct (IH1 _ _ _ _ _ H) as (w & rest & g' & -> & M & K).
    eexists w, rest, _. split; [reflexivity|]. split; [exact M|exact K].
  - destruct s as [|c [|d s]]; try discriminate H.
    + exists [], [], g. cbn. auto.
    + destruct (Ascii.eqb c "010") eqn:E; [|discriminate H].
      apply Ascii.eqb_eq in E. subst c. exists [], ["010"%char], g. cbn. auto.
Qed.

Lemma match_here_sound (r : regex) (s : text) (m : rmatch) :
  match_here r s = Some m ->
  exists w, s = w ++ rest m /\ matches r w (rest m).
Proof.
  unfold match_here. intro H.
  apply run_sound in H as (w & rest0 & g' & -> & M & K).
  injection K as <-. now exists w.
Qed.

(** Where the pattern matches at no place of [s], [re.sub] changes
    nothing. *)
Lemma sub_empty_aux_none (r : regex) (fuel : nat) :
  forall s,
    (forall a b, s = a ++ b -> b <> [] -> match_here r b = None) ->
    sub_empty_aux fuel r s = s.
Proof.
  induction fuel as [|fuel IH]; intros s H; [reflexivity|].
  destruct s as [|c s]; [reflexivity|].
  cbn [sub_empty_aux]. rewrite (H [] (c :: s)) by (reflexivity || discriminate).
  f_equal. apply IH. intros a b -> N. now apply (H (c :: a) b).
Qed.

Lemma sub_empty_none (r : regex) (s : text) :
  (forall a b, s = a ++ b -> b <> [] -> match_here r b = None) ->
  sub_empty r s = s.
Proof. apply sub_empty_aux_none. Qed.

(** A match at the head is the leftmost match. *)
Lemma search_here (r : regex) (s : text) (m : rmatch) :
  match_here r s = Some m -> search r s = Some m.
Proof. intro H. destruct s; cbn; now rewrite H. Qed.

End ReFacts.

(** ** The rate-limit counter *)

Module RateLimitFacts.

Import RateLimit.

Lemma before_reset (clk : nat -> Q) (rl : t) (tick : nat) :
  (clk tick < inject_Z (reset_at rl))%Q ->
  Qle_bool (inject_Z (reset_at rl)) (clk tick) = false.
Proof.
  intro H. destruct (Qle_bool _ _) eqn:E; [|reflexivity].
  apply Qle_bool_iff in E. exfalso. exact (Qlt_not_le _ _ H E).
Qed.

(** While more than one call is left in the budget, a call only
    decrements: the clock is not read. *)
Lemma update_above_one (clk : nat -> Q) (rl : t) (tick : nat) :
  (1 < remaining rl)%Z ->
  update_rate_limit clk rl tick =
    ({| limit := limit rl; remaining := (remaining rl - 1)%Z;
        reset_at := reset_at rl |}, tick).
Proof.
  intro H. unfold update_rate_limit. cbn [remaining].
  destruct (Z.leb_spec (remaining rl - 1) 0); [lia | reflexivity].
Qed.

(** A call that exhausts the budget before the reset time decrements and
    reads the clock once. *)
Lemma update_exhausted_early (clk : nat -> Q) (rl : t) (tick : nat) :
  (remaining rl <= 1)%Z ->
  (clk tick < inject_Z (reset_at rl))%Q ->
  update_rate_limit clk rl tick =
    ({| limit := limit rl; remaining := (remaining rl - 1)%Z;
        reset_at := reset_at rl |}, S tick).
Proof.
  intros H Hc. unfold update_rate_limit. cbn [remaining reset_at limit].
  destruct (Z.leb_spec (remaining rl - 1) 0); [|lia].
  now rewrite (before_reset clk rl tick Hc).
Qed.

(** A call that exhausts the budget at or after the reset time refills. *)
Lemma update_exhausted_late (clk : nat -> Q) (rl : t) (tick : nat) :
  (remaining rl <= 1)%Z ->
  (inject_Z (reset_at rl) <= clk tick)%Q ->
  update_rate_limit clk rl tick =
    ({| limit := limit rl; remaining := limit rl;
        reset_at := (Py.int (clk (S tick)) + 3600)%Z |}, S (S tick)).
Proof.
  intros H Hc. unfold update_rate_limit. cbn [remaining reset_at limit].
  destruct (Z.leb_spec (remaining rl - 1) 0); [|lia].
  apply Qle_bool_iff in Hc. now rewrite Hc.
Qed.

(** A call never touches [limit]. *)
Lemma update_limit (clk : nat -> Q) (rl : t) (tick : nat) :
  limit (fst (update_rate_limit clk rl tick)) = limit rl.
Proof.
  unfold update_rate_limit. cbn [remaining reset_at limit].
  destruct (_ <=? 0)%Z; [destruct (Qle_bool _ _)|]; reflexivity.
Qed.

Lemma calls_S_r (clk : nat -> Q) (n : nat) :
  forall rl tick,
    calls clk (S n) rl tick =
      let (rl', tick') := calls clk n rl tick in
      update_rate_limit clk rl' tick'.
Proof.
  induction n as [|n IH]; intros rl tick.
  - cbn. now destruct (update_rate_limit clk rl tick).
  - change (calls clk (S (S n)) rl tick)
      with (let (rl', tick') := update_rate_limit clk rl tick in
            calls clk (S n) rl' tick').
    destruct (update_rate_limit clk rl tick) as [rl1 tick1] eqn:E.
    rewrite IH. cbn [calls]. now rewrite E.
Qed.

(** [n] calls that leave at least one call in the budget only count
    down. *)
Lemma calls_count_down (clk : nat -> Q) (n : nat) :
  forall rl tick,
    (Z.of_nat n < remaining rl)%Z ->
    calls clk n rl tick =
      ({| limit := limit rl; remaining := (remaining rl - Z.of_nat n)%Z;
          reset_at := reset_at rl |}, tick).
Proof.
  induction n as [|n IH]; intros rl tick H.
  - cbn [calls]. destruct rl as [l r a]. cbn. f_equal. f_equal. lia.
  - cbn [calls]. rewrite update_above_one by lia.
    rewrite IH by (cbn; lia). cbn. f_equal. f_equal. lia.
Qed.

(** With the hour never elapsed, the counter goes on below zero. *)
Lemma calls_no_floor (clk : nat -> Q) (n : nat) :
  forall rl tick,
    (forall i, clk i < inject_Z (reset_at rl))%Q ->
    remaining (fst (calls clk n rl tick)) = (remaining rl - Z.of_nat n)%Z
    /\ reset_at (fst (calls clk n rl tick)) = reset_at rl.
Proof.
  induction n as [|n IH]; intros rl tick H.
  - cbn. split; [lia | reflexivity].
  - cbn [calls].
    destruct (Z_lt_le_dec 1 (remaining rl)) as [Hr|Hr].
    + rewrite update_above_one by exact Hr.
      destruct (IH {| limit := limit rl; remaining := (remaining rl - 1)%Z;
                      reset_at := reset_at rl |} tick H) as [A B].
      rewrite A, B. cbn. split; [lia | reflexivity].
    + rewrite update_exhausted_early by (auto; lia).
      destruct (IH {| limit := limit rl; remaining := (remaining rl - 1)%Z;
                      reset_at := reset_at rl |} (S tick) H) as [A B].
      rewrite A, B. cbn. split; [lia | reflexivity].
Qed.

(** C3, as stated, fails: the counter is not floored at zero.  From the
    dictionary that [__init__] builds (limit 100000), 100001 calls made
    before the reset time leave [remaining] at -1. *)
Lemma remaining_goes_below_zero :
  remaining (fst (calls (fun _ => 0%Q) (Z.to_nat 100001) (init 0) 0)) = (-1)%Z
  /\ reset_at (fst (calls (fun _ => 0%Q) (Z.to_nat 100001) (init 0) 0))
     = 3600%Z.
Proof. vm_compute. split; reflexivity. Qed.

(** C3, amended.  From a full budget, each call decrements [remaining] by
    one; after exactly [limit] calls, the last of which read the clock
    before [reset_at], [remaining] is 0.  The next call, if the clock has
    reached [reset_at], sets [remaining] back to [limit] and [reset_at] to
    one hour after its (truncated) second reading of the clock; if the
    clock has not, it takes [remaining] to -1. *)
Theorem rate_limit_counts_down_then_refills
        (clk : nat -> Q) (rl : t) (tick : nat) :
  remaining rl = limit rl ->
  (1 <= limit rl)%Z ->
  (clk tick < inject_Z (reset_at rl))%Q ->
  let exhausted :=
    {| limit := limit rl; remaining := 0; reset_at := reset_at rl |} in
  (forall k, (Z.of_nat k <= limit rl)%Z ->
     fst (calls clk k rl tick) =
       {| limit := limit rl; remaining := (limit rl - Z.of_nat k)%Z;
          reset_at := reset_at rl |})
  /\ calls clk (Z.to_nat (limit rl)) rl tick = (exhausted, S tick)
  /\ ((inject_Z (reset_at rl) <= clk (S tick))%Q ->
      update_rate_limit clk exhausted (S tick) =
        ({| limit := limit rl; remaining := limit rl;
            reset_at := (Py.int (clk (S (S tick))) + 3600)%Z |},
         S (S (S tick))))
  /\ ((clk (S tick) < inject_Z (reset_at rl))%Q ->
      update_rate_limit clk exhausted (S tick) =
        ({| limit := limit rl; remaining := (-1)%Z;
            reset_at := reset_at rl |}, S (S tick))).
Proof.
  intros Hfull Hpos Hclk exhausted.
  assert (Hlast : forall k, (Z.of_nat (S k) = limit rl)%Z ->
            calls clk (S k) rl tick = (exhausted, S tick)).
  { intros k Hk. rewrite calls_S_r, calls_count_down by lia.
    rewrite update_exhausted_early by (cbn; auto; lia).
    cbn. unfold exhausted. do 2 f_equal. lia. }
  repeat split.
  - intros k Hk. destruct (Z.eq_dec (Z.of_nat k) (limit rl)) as [E|E].
    + destruct k as [|k]; [cbn in E; lia|].
      rewrite Hlast by exact E. cbn. unfold exhausted. f_equal. lia.
    + rewrite calls_count_down by lia. cbn. now rewrite Hfull.
  - destruct (Z.to_nat (limit rl)) as [|k] eqn:E; [lia|].
    apply Hlast. lia.
  - intro H. now rewrite update_exhausted_late by (cbn; auto; lia).
  - intro H. now rewrite update_exhausted_early by (cbn; auto; lia).
Qed.

(** A budget of three calls, read at time 0 by the third call and at time
    4000, past the reset time 3600, by the fourth. *)
Lemma rate_limit_counts_down_then_refills_witness :
  calls (fun i => if (i <? 1)%nat then 0%Q else 4000%Q) 3
        {| limit := 3; remaining := 3; reset_at := 3600 |} 0
  = ({| limit := 3; remaining := 0; reset_at := 3600 |}, 1%nat)
  /\ update_rate_limit (fun i => if (i <? 1)%nat then 0%Q else 4000%Q)
       {| limit := 3; remaining := 0; reset_at := 3600 |} 1
     = ({| limit := 3; remaining := 3; reset_at := 7600 |}, 3%nat).
Proof.
  pose proof (rate_limit_counts_down_then_refills
                (fun i => if (i <? 1)%nat then 0%Q else 4000%Q)
                {| limit := 3; remaining := 3; reset_at := 3600 |} 0
                eq_refl ltac:(cbn; lia) eq_refl) as [_ [H1 [H2 _]]].
  split.
  - exact H1.
  - apply H2. cbn. unfold Qle. cbn. lia.
Defined.

End RateLimitFacts.

(** ** The language agent *)

Module LanguageAgentFacts.

Import Eff LanguageAgent Samples.

Lemma estimate_tokens_ge_1 (t : text) : (1 <= estimate_tokens t)%Z.
Proof. unfold estimate_tokens. lia. Qed.

Lemma validate_input_length_spec (t : text) :
  validate_input_length t = true <->
  (1 <= estimate_tokens t <= 200000)%Z.
Proof.
  unfold validate_input_length, MIN_INPUT_TOKENS, MAX_TOTAL_TOKENS.
  rewrite andb_true_iff, !Z.leb_le. reflexivity.
Qed.

Lemma validate_input_length_false (t : text) :
  validate_input_length t = false <-> (200000 < estimate_tokens t)%Z.
Proof.
  pose proof (estimate_tokens_ge_1 t) as H1.
  pose proof (validate_input_length_spec t) as H2.
  destruct (validate_input_length t); split; intro H.
  - discriminate.
  - assert (true = true) as E by reflexivity. apply H2 in E. lia.
  - destruct (Z_lt_le_dec 200000 (estimate_tokens t)) as [L|L]; [exact L|].
    assert (false = true) as E by (apply H2; lia). discriminate.
  - reflexivity.
Qed.

Lemma rejection_message :
  ("Input text must be between " ++ Text.of_Z MIN_INPUT_TOKENS
   ++ " and " ++ Text.of_Z MAX_TOTAL_TOKENS ++ " tokens")%list
  = list_ascii_of_string "Input text must be between 1 and 200000 tokens".
Proof. reflexivity. Qed.

(** What one call of the agent's [update_rate_limit] does: the shared
    counter step, on the agent's dictionary and the clock. *)
Lemma language_update_rate_limit_run (W : World) (s : self_t) (rt : runtime) :
  update_rate_limit W s rt =
    (Ok (fst (RateLimit.update_rate_limit (clock W) (rate_limit s) (ticks rt))),
     {| rate_limit :=
          fst (RateLimit.update_rate_limit (clock W) (rate_limit s) (ticks rt)) |},
     {| ticks := snd (RateLimit.update_rate_limit
                        (clock W) (rate_limit s) (ticks rt));
        llm_calls := llm_calls rt; http_calls := http_calls rt |}).
Proof.
  unfold update_rate_limit.
  now destruct (RateLimit.update_rate_limit _ _ _).
Qed.

(** What [process_query] does with an input that fails validation. *)
Lemma process_query_rejects (W : World) (user_input language : text)
      (s : self_t) (rt : runtime) :
  validate_input_length user_input = false ->
  process_query W user_input language s rt =
    (Ok (VDict
           [item "error"
              (VStr "Input text must be between 1 and 200000 tokens");
            item "meta"
              (VDict [item "timestamp"
                        (VStr (isoformat W (clock W (S (ticks rt)))))])]),
     s,
     {| ticks := S (S (ticks rt));
        llm_calls := llm_calls rt; http_calls := http_calls rt |}).
Proof.
  intro H. unfold process_query, try_except, bind, time.
  rewrite H. cbn [negb]. rewrite rejection_message.
  reflexivity.
Qed.

(** What [process_query] does with an input that passes validation: the
    model is called, once, first thing. *)
Lemma process_query_calls_model (W : World) (user_input language : text)
      (s : self_t) (rt : runtime) :
  validate_input_length user_input = true ->
  exists req earlier,
    llm_calls (snd (process_query W user_input language s rt))
    = earlier ++ req :: llm_calls rt
    /\ earlier = []
    /\ user_content req = user_input
    /\ max_tokens req = 512%Z.
Proof.
  intro H. unfold process_query, try_except, bind, time.
  rewrite H. cbn [negb]. unfold create at 1. cbn [ticks llm_calls http_calls].
  eexists. exists [].
  destruct (llm W _ _) as [m|e].
  - unfold update_rate_limit.
    destruct (RateLimit.update_rate_limit _ _ _) as [rl n].
    unfold lift. destruct (response_text W m) as [t|e];
      cbn; repeat split; reflexivity.
  - cbn. repeat split; reflexivity.
Qed.

(** C7.  The input is valid when its estimate, [max(1, len // 4)], lies
    between 1 and 200000 ([validate_input_length_spec]); for every input
    whose estimate is out of that range [process_query] returns the error
    envelope, and the log of model calls is as it was. *)
Theorem out_of_range_input_is_rejected_without_model_call
        (W : World) (user_input language : text)
        (s : self_t) (rt : runtime) :
  ~ (1 <= estimate_tokens user_input <= 200000)%Z ->
  estimate_tokens user_input = Z.max 1 (Text.len user_input / 4)
  /\ validate_input_length user_input = false
  /\ exists timestamp rt',
       process_query W user_input language s rt =
         (Ok (VDict
                [item "error"
                   (VStr "Input text must be between 1 and 200000 tokens");
                 item "meta" (VDict [item "timestamp" (VStr timestamp)])]),
          s, rt')
       /\ llm_calls rt' = llm_calls rt.
Proof.
  intro Hout.
  assert (Hv : validate_input_length user_input = false).
  { destruct (validate_input_length user_input) eqn:E; [|reflexivity].
    apply validate_input_length_spec in E. contradiction. }
  split; [reflexivity|]. split; [exact Hv|].
  do 2 eexists. split.
  - apply process_query_rejects. exact Hv.
  - reflexivity.
Qed.

Lemma out_of_range_input_is_rejected_without_model_call_witness :
  exists timestamp rt',
    process_query silent_world long_input "en"
                  fresh_language_agent fresh_runtime =
      (Ok (VDict
             [item "error"
                (VStr "Input text must be between 1 and 200000 tokens");
              item "meta" (VDict [item "timestamp" (VStr timestamp)])]),
       fresh_language_agent, rt')
    /\ llm_calls rt' = llm_calls fresh_runtime.
Proof.
  apply (out_of_range_input_is_rejected_without_model_call
           silent_world long_input "en" fresh_language_agent fresh_runtime).
  vm_compute. intros [_ H]. apply H. reflexivity.
Defined.

(** C10.  [estimate_tokens] is at least 1 on every input, so the minimum
    bound of [validate_input_length] never fails; the empty input passes
    validation and [process_query] calls the model with it; an input is
    rejected exactly when its estimate exceeds 200000. *)
Theorem only_the_maximum_bound_can_reject :
  (forall t, (1 <= estimate_tokens t)%Z)
  /\ (forall t, (MIN_INPUT_TOKENS <=? estimate_tokens t)%Z = true)
  /\ estimate_tokens [] = 1%Z
  /\ validate_input_length [] = true
  /\ (forall W language s rt,
        exists req,
          llm_calls (snd (process_query W [] language s rt))
          = req :: llm_calls rt
          /\ user_content req = [])
  /\ (forall t, validate_input_length t = false
                <-> (200000 < estimate_tokens t)%Z).
Proof.
  split; [exact estimate_tokens_ge_1|].
  split; [intro t; apply Z.leb_le; exact (estimate_tokens_ge_1 t)|].
  split; [reflexivity|]. split; [reflexivity|].
  split; [|exact validate_input_length_false].
  intros W language s rt.
  destruct (process_query_calls_model W [] language s rt eq_refl)
    as (req & earlier & H & -> & Hc & _).
  exists req. split; assumption.
Qed.

End LanguageAgentFacts.

(** ** The formatter *)

Module FormatFacts.

Import WeatherAgent Samples Notions.
Local Open Scope Q_scope.

Ltac step_result H :=
  match type of H with
  | context [match ?r with Ok _ => _ | Raise _ => _ end] =>
      let E := fresh "E" in
      destruct r eqn:E; [|discriminate H]
  end.

(** What a successful run of the body of the [try] read and built. *)
Lemma format_body_ok (data : dict) (v : value) :
  format_body data = Ok v ->
  exists main temp_c c wind speed w,
    Py.subscript (VDict data) "main" = Ok main
    /\ Py.subscript main "temp" = Ok temp_c
    /\ Py.number temp_c = Ok c
    /\ Py.subscript (VDict data) "wind" = Ok wind
    /\ Py.subscript wind "speed" = Ok speed
    /\ Py.number speed = Ok w
    /\ Py.keys v = record_keys
    /\ Py.path (texts ["temperature"; "celsius"]) v = Some (VNum (Py.round c 1))
    /\ Py.path (texts ["temperature"; "fahrenheit"]) v
       = Some (VNum (Py.round (to_fahrenheit c) 1))
    /\ Py.path (texts ["wind"; "speed_ms"]) v = Some (VNum (Py.round w 2))
    /\ Py.path (texts ["wind"; "speed_mph"]) v
       = Some (VNum (Py.round (to_mph w) 2)).
Proof.
  unfold format_body. intro H.
  repeat step_result H.
  injection H as <-.
  do 6 eexists. repeat split; try eassumption; reflexivity.
Qed.

(** The formatter returns one of the two markers or what the body built;
    a [KeyError] of the body is the only exception it absorbs. *)
Lemma format_weather_data_cases (data : dict) :
  format_weather_data data = Ok unavailable
  \/ (format_body data = Raise {| Py.cls := Py.KeyError;
                                  Py.msg := match format_body data with
                                            | Raise e => Py.msg e
                                            | Ok _ => []
                                            end |}
      /\ format_weather_data data = Ok formatting_error)
  \/ (exists v, format_body data = Ok v /\ format_weather_data data = Ok v)
  \/ (exists e, format_body data = Raise e /\ Py.cls e <> Py.KeyError
                /\ format_weather_data data = Raise e).
Proof.
  unfold format_weather_data. destruct data as [|kv data']; [now left|].
  destruct (Py.has_key "error" (kv :: data')); [now left|].
  right. destruct (format_body (kv :: data')) as [v|[c m]].
  - right; left. eauto.
  - destruct c; cbn;
      try (right; right; eexists; repeat split; [discriminate]);
      left; split; reflexivity.
Qed.

Lemma subscript_path (v x : value) (k : text) :
  Py.subscript v k = Ok x -> Py.path [k] v = Some x.
Proof.
  destruct v; cbn; try discriminate.
  destruct (Py.lookup k d); [|discriminate]. now intros [= ->].
Qed.

Lemma path_step (v m : value) (k : text) (ks : list text) :
  Py.path [k] v = Some m -> Py.path (k :: ks) v = Py.path ks m.
Proof.
  destruct v; cbn; try discriminate.
  destruct (Py.lookup k d); [|discriminate]. now intros [= ->].
Qed.

(** All or nothing: a result is one of the two markers or carries every key
    of the record. *)
Lemma format_weather_data_all_or_nothing (data : dict) (v : value) :
  format_weather_data data = Ok v ->
  v = unavailable \/ v = formatting_error \/ Py.keys v = record_keys.
Proof.
  intro H.
  destruct (format_weather_data_cases data)
    as [E|[[_ E]|[(v' & B & E)|(e & _ & _ & E)]]]; rewrite E in H.
  - injection H as <-. now left.
  - injection H as <-. right; now left.
  - injection H as <-. right; right.
    destruct (format_body_ok data v' B) as (? & ? & ? & ? & ? & ? & K).
    apply K.
  - discriminate.
Qed.

(** A payload without [main] gives the formatting-error marker. *)
Lemma missing_main (data : dict) :
  data <> [] -> Py.has_key "error" data = false ->
  Py.lookup "main" data = None ->
  format_weather_data data = Ok formatting_error.
Proof.
  intros Hne Herr Hmiss.
  unfold format_weather_data. destruct data as [|kv data']; [congruence|].
  rewrite Herr. unfold format_body, Py.subscript at 1.
  now rewrite Hmiss.
Qed.

(** C6, at a payload the code can receive: every required key is there but
    the [weather] list is empty.  [data['weather'][0]] raises [IndexError],
    which [except KeyError] lets through: the formatter raises instead of
    returning the formatting-error marker. *)
Theorem format_weather_data_raises_on_empty_conditions :
  format_weather_data payload_without_conditions
  = Raise {| Py.cls := Py.IndexError; Py.msg := "list index out of range" |}
  /\ Py.has_key "main" payload_without_conditions = true
  /\ Py.has_key "weather" payload_without_conditions = true
  /\ Py.has_key "wind" payload_without_conditions = true
  /\ forall v, format_weather_data payload_without_conditions <> Ok v.
Proof.
  repeat split; try reflexivity. intros v H. discriminate H.
Qed.

End FormatFacts.

(** ** The confidence score *)

Module ConfidenceFacts.

Import Eff WeatherAgent Samples.
Local Open Scope Q_scope.

(** C5.  A complete payload stamped one hour ahead of the clock, answered in
    0 ms, scores 1.4.  The freshness factor is [max(0, 1 - age / 3600)] of
    an age that is negative: the factor is bounded below and not above, it
    is 2 here, and the weighted factors 0.8, 0.4 and 0.2 sum to more than
    1. *)
Theorem confidence_score_above_one :
  calculate_confidence_score silent_world (Some payload_from_the_future)
                             sample_reply 0 fresh_weather_agent fresh_runtime
  = (Ok (7 # 5), fresh_weather_agent,
     {| ticks := 1; llm_calls := []; http_calls := [] |})
  /\ ~ (7 # 5 <= 1)
  /\ Py.max0 (1 - (clock silent_world 0 - 3600) / 3600) == 2.
Proof.
  split; [reflexivity|]. split; [|reflexivity].
  intro H. apply Qle_bool_iff in H. discriminate H.
Qed.

End ConfidenceFacts.

(** ** Effects that leave the agent's fields alone *)

Module EffFacts.

Import Eff Notions.

Section Frames.
Context {Self : Type}.

Lemma frames_run {A} (m : M Self A) (s s' : Self) (rt rt' : runtime)
      (r : Result A) :
  frames m -> m s rt = (r, s', rt') -> s' = s.
Proof. intros F E. specialize (F s rt). now rewrite E in F. Qed.

Lemma run_frames {A} (m : M Self A) (s s' : Self) (rt rt' : runtime)
      (r : Result A) :
  m s rt = (r, s', rt') -> frames m -> s' = s.
Proof. intros E F. exact (frames_run m s s' rt rt' r F E). Qed.

Lemma frames_ret {A} (a : A) : frames (ret a : M Self A).
Proof. intros s rt. reflexivity. Qed.

Lemma frames_lift {A} (r : Result A) : frames (lift r : M Self A).
Proof. intros s rt. reflexivity. Qed.

Lemma frames_get_self : frames (get_self : M Self Self).
Proof. intros s rt. reflexivity. Qed.

Lemma frames_time (W : World) : frames (time W : M Self Q).
Proof. intros s rt. reflexivity. Qed.

Lemma frames_create (W : World) (req : llm_request) :
  frames (create W req : M Self message).
Proof. intros s rt. reflexivity. Qed.

Lemma frames_requests_get (W : World) (city key : text) :
  frames (requests_get W city key : M Self http_response).
Proof. intros s rt. reflexivity. Qed.

Lemma frames_bind {A B} (m : M Self A) (k : A -> M Self B) :
  frames m -> (forall a, frames (k a)) -> frames (bind m k).
Proof.
  intros Fm Fk s rt. unfold bind.
  destruct (m s rt) as [[[a|e] s1] rt1] eqn:E.
  - rewrite (Fk a s1 rt1). exact (frames_run m s s1 rt rt1 _ Fm E).
  - exact (frames_run m s s1 rt rt1 _ Fm E).
Qed.

Lemma frames_try_except {A} (m : M Self A) (caught : Py.exn_class -> bool)
      (handler : Py.exn -> M Self A) :
  frames m -> (forall e, frames (handler e)) ->
  frames (try_except m caught handler).
Proof.
  intros Fm Fh s rt. unfold try_except.
  destruct (m s rt) as [[[a|e] s1] rt1] eqn:E.
  - exact (frames_run m s s1 rt rt1 _ Fm E).
  - destruct (caught (Py.cls e)).
    + rewrite (Fh e s1 rt1). exact (frames_run m s s1 rt rt1 _ Fm E).
    + exact (frames_run m s s1 rt rt1 _ Fm E).
Qed.

(** The two ways a sequence can end. *)
Lemma bind_inv {A B} (m : M Self A) (k : A -> M Self B)
      (s s' : Self) (rt rt' : runtime) (r : Result B) :
  bind m k s rt = (r, s', rt') ->
  (exists a s1 rt1, m s rt = (Ok a, s1, rt1) /\ k a s1 rt1 = (r, s', rt'))
  \/ (exists e, m s rt = (Raise e, s', rt') /\ r = Raise e).
Proof.
  unfold bind. destruct (m s rt) as [[[a|e] s1] rt1].
  - intro H. left. now exists a, s1, rt1.
  - intros [= <- <- <-]. right. now exists e.
Qed.

Lemma frames_now_isoformat (W : World) :
  frames (now_isoformat W : M Self text).
Proof.
  apply frames_bind; [apply frames_time | intro; apply frames_ret].
Qed.

End Frames.

(** One step of a sequence [H : bind m k s rt = ...], [m] leaving the fields
    alone (which [tac] proves): either [m] returned [a] and [H] is about
    [k a], or [m] raised and the goal is about that. *)
Ltac bind_step_with tac H a :=
  let s1 := fresh "s" in
  let rt1 := fresh "rt" in
  let e := fresh "e" in
  let E := fresh "E" in
  let Es := fresh "Es" in
  apply bind_inv in H as [(a & s1 & rt1 & E & H)|(e & E & ->)];
  [ pose proof (run_frames _ _ _ _ _ _ E) as Es;
    specialize (Es ltac:(tac)); subst s1
  | pose proof (run_frames _ _ _ _ _ _ E) as Es;
    specialize (Es ltac:(tac)); subst ].

Ltac frames :=
  repeat first
    [ apply frames_ret | apply frames_lift | apply frames_get_self
    | apply frames_time | apply frames_create | apply frames_requests_get
    | apply frames_now_isoformat
    | apply frames_bind | apply frames_try_except
    | match goal with
      | |- forall _, _ => intro
      | |- frames (match ?x with _ => _ end) => destruct x
      | |- frames (let '(_, _) := ?x in _) => destruct x
      end ].

End EffFacts.

(** ** The weather agent's [process_query] *)

Module WeatherFacts.

Import Eff EffFacts WeatherAgent Samples Notions.

Lemma text_eqb_refl (a : text) : Text.eqb a a = true.
Proof.
  unfold Text.eqb. destruct (list_eq_dec ascii_dec a a); congruence.
Qed.

Lemma frames_extract_location (W : World) (q : text) :
  frames (extract_location W q).
Proof. unfold extract_location. frames. Qed.

Lemma frames_generate_weather_chat_response (W : World) (q : text) (v : value) :
  frames (generate_weather_chat_response W q v).
Proof. unfold generate_weather_chat_response. frames. Qed.

Lemma frames_generate_non_weather_response (W : World) (q : text) :
  frames (generate_non_weather_response W q).
Proof. unfold generate_non_weather_response. frames. Qed.

Lemma frames_get_weather_data (W : World) (l : location) :
  frames (get_weather_data W l).
Proof. unfold get_weather_data. frames. Qed.

Lemma frames_calculate_confidence_score (W : World) (wd : option dict)
      (m : message) (t : Z) :
  frames (calculate_confidence_score W wd m t).
Proof. unfold calculate_confidence_score. frames. Qed.

Lemma frames_request_id (W : World) (q : text) : frames (request_id W q).
Proof. unfold request_id. frames. Qed.

Lemma frames_elapsed_ms (W : World) (t : Q) : frames (elapsed_ms W t).
Proof. unfold elapsed_ms. frames. Qed.

Ltac solve_frames :=
  first [ apply frames_extract_location
        | apply frames_generate_weather_chat_response
        | apply frames_generate_non_weather_response
        | apply frames_get_weather_data
        | apply frames_calculate_confidence_score
        | apply frames_request_id
        | apply frames_elapsed_ms
        | solve [frames]
        | solve [frames; destruct (_ && _); frames] ].

Ltac bind_step H a := bind_step_with solve_frames H a.

(** What one call of the agent's [update_rate_limit] does. *)
Lemma update_rate_limit_run (W : World) (s : self_t) (rt : runtime) :
  update_rate_limit W s rt =
    (Ok (fst (RateLimit.update_rate_limit (clock W) (rate_limit s) (ticks rt))),
     set_rate_limit
       (fst (RateLimit.update_rate_limit (clock W) (rate_limit s) (ticks rt))) s,
     {| ticks := snd (RateLimit.update_rate_limit
                        (clock W) (rate_limit s) (ticks rt));
        llm_calls := llm_calls rt; http_calls := http_calls rt |}).
Proof.
  unfold update_rate_limit.
  now destruct (RateLimit.update_rate_limit _ _ _).
Qed.

Lemma update_rate_limit_inv (W : World) (s s' : self_t) (rt rt' : runtime)
      (r : Result RateLimit.t) :
  update_rate_limit W s rt = (r, s', rt') ->
  exists rl, r = Ok rl /\ s' = set_rate_limit rl s /\ updated_once W s s'.
Proof.
  rewrite update_rate_limit_run. intros [= <- <- <-].
  eexists. repeat split. now exists (ticks rt).
Qed.

(** The weather-related chat: what it leaves in the agent and what its
    envelope says. *)
Lemma weather_chat_effect (W : World) (q : text) (t0 : Q) (l : location)
      (fw : value) (art : Z) (fb : bool)
      (s s' : self_t) (rt rt' : runtime) (r : Result value) :
  weather_chat W q t0 l fw art fb s rt = (r, s', rt') ->
  last_location s' = last_location s
  /\ at_most_once W s s'
  /\ forall env, r = Ok env ->
       updated_once W s s'
       /\ Py.path (texts ["rate_limit"]) env <> None
       /\ Py.path (texts ["weather_data"]) env = Some fw
       /\ Py.path (texts ["error"]) env = None
       /\ Py.path (texts ["response"; "type"]) env = Some (VStr "weather_chat")
       /\ Py.path (texts ["response"; "fallback_used"]) env = Some (VBool fb)
       /\ Py.path (texts ["response"; "location_context"]) env
          = Some (VStr (context_of l (last_location s)))
       /\ Py.path (texts ["query"; "extracted_location"]) env
          = Some (location_value l).
Proof.
  unfold weather_chat. intro H.
  bind_step H msg;
    [|split; [reflexivity|split; [now left|discriminate]]].
  bind_step H ms;
    [|split; [reflexivity|split; [now left|discriminate]]].
  apply bind_inv in H as [(rl & sU & rtU & EU & H)|(eU & EU & ->)];
    apply update_rate_limit_inv in EU as (rl' & Erl & -> & U);
    [|discriminate Erl].
  bind_step H rid;
    [|split; [reflexivity|split; [now right|discriminate]]].
  bind_step H ts;
    [|split; [reflexivity|split; [now right|discriminate]]].
  bind_step H reply;
    [|split; [reflexivity|split; [now right|discriminate]]].
  cbn in H. injection H as <- <- <-.
  split; [reflexivity|]. split; [now right|].
  intros env [= <-]. repeat split; try reflexivity; try exact U.
  discriminate.
Qed.

(** The weather report: what it leaves in the agent and what its envelope
    says. *)
Lemma weather_report_effect (W : World) (q : text) (t0 : Q) (l : location)
      (wd : option dict) (fw : value) (art : Z) (fb : bool)
      (s s' : self_t) (rt rt' : runtime) (r : Result value) :
  weather_report W q t0 l wd fw art fb s rt = (r, s', rt') ->
  last_location s' = last_location s
  /\ at_most_once W s s'
  /\ forall env, r = Ok env ->
       updated_once W s s'
       /\ Py.path (texts ["rate_limit"]) env <> None
       /\ Py.path (texts ["weather_data"]) env = Some fw
       /\ Py.path (texts ["error"]) env = None
       /\ Py.path (texts ["response"; "type"]) env = Some (VStr "weather_report")
       /\ Py.path (texts ["response"; "fallback_used"]) env = Some (VBool fb)
       /\ Py.path (texts ["query"; "extracted_location"]) env
          = Some (location_value l).
Proof.
  unfold weather_report. intro H.
  bind_step H msg;
    [|split; [reflexivity|split; [now left|discriminate]]].
  bind_step H ms;
    [|split; [reflexivity|split; [now left|discriminate]]].
  bind_step H fresh_;
    [|split; [reflexivity|split; [now left|discriminate]]].
  bind_step H score;
    [|split; [reflexivity|split; [now left|discriminate]]].
  apply bind_inv in H as [(rl & sU & rtU & EU & H)|(eU & EU & ->)];
    apply update_rate_limit_inv in EU as (rl' & Erl & -> & U);
    [|discriminate Erl].
  bind_step H reply;
    [|split; [reflexivity|split; [now right|discriminate]]].
  bind_step H rid;
    [|split; [reflexivity|split; [now right|discriminate]]].
  bind_step H ts;
    [|split; [reflexivity|split; [now right|discriminate]]].
  cbn in H. injection H as <- <- <-.
  split; [reflexivity|]. split; [now right|].
  intros env [= <-]. repeat split; try reflexivity; try exact U.
  discriminate.
Qed.

(** The off-topic reply: the counter is updated first, and nothing that
    follows can raise. *)
Lemma off_topic_effect (W : World) (q : text) (t0 : Q)
      (s s' : self_t) (rt rt' : runtime) (r : Result value) :
  off_topic W q t0 s rt = (r, s', rt') ->
  last_location s' = last_location s
  /\ updated_once W s s'
  /\ forall env, r = Ok env ->
       Py.path (texts ["rate_limit"]) env <> None
       /\ Py.path (texts ["weather_data"]) env = None
       /\ Py.path (texts ["error"]) env = None
       /\ Py.path (texts ["response"; "type"]) env
          = Some (VStr "off_topic_response").
Proof.
  unfold off_topic. intro H.
  apply bind_inv in H as [(rl & sU & rtU & EU & H)|(eU & EU & ->)];
    apply update_rate_limit_inv in EU as (rl' & Erl & -> & U);
    [|discriminate Erl].
  bind_step H rid; [|split; [reflexivity|split; [exact U|discriminate]]].
  bind_step H ts; [|split; [reflexivity|split; [exact U|discriminate]]].
  bind_step H ms; [|split; [reflexivity|split; [exact U|discriminate]]].
  bind_step H reply; [|split; [reflexivity|split; [exact U|discriminate]]].
  cbn in H. injection H as <- <- <-.
  split; [reflexivity|]. split; [exact U|].
  intros env [= <-]. repeat split; try reflexivity. discriminate.
Qed.

(** With such a provider the fetch gives no payload and flags the
    fallback. *)
Lemma get_weather_data_never_200 (W : World) (l : location)
      (s s' : self_t) (rt rt' : runtime)
      (r : Result (option dict * Z * bool)) :
  provider_never_200 W ->
  get_weather_data W l s rt = (r, s', rt') ->
  exists art, r = Ok (None, art, true).
Proof.
  intros P. unfold get_weather_data, try_except.
  destruct (Text.strip (city l)) as [|c cs].
  - cbn. intros [= <- <- <-]. now exists 0%Z.
  - unfold bind, get_self, time, requests_get. cbn [ticks llm_calls http_calls].
    destruct (P (List.length (http_calls rt)) (c :: cs) (weather_api_key s))
      as (resp & -> & Hs).
    destruct (status_code resp =? 200)%Z eqn:E200;
      [apply Z.eqb_eq in E200; contradiction|].
    cbn. intros [= <- <- <-]. eauto.
Qed.

(** Fetch, format, then chat or report. *)
Lemma answer_effect (W : World) (q : text) (t0 : Q) (direct chat : bool)
      (l : location) (s s' : self_t) (rt rt' : runtime) (r : Result value) :
  answer W q t0 direct chat l s rt = (r, s', rt') ->
  last_location s' = last_location s
  /\ at_most_once W s s'
  /\ forall env, r = Ok env ->
       updated_once W s s'
       /\ Py.path (texts ["rate_limit"]) env <> None
       /\ Py.path (texts ["error"]) env = None
       /\ Py.path (texts ["query"; "extracted_location"]) env
          = Some (location_value l)
       /\ (exists wd art fb rt1 fw,
             get_weather_data W l s rt = (Ok (wd, art, fb), s, rt1)
             /\ format_weather_data
                  (or_empty (if truthy wd then wd else None)) = Ok fw
             /\ Py.path (texts ["weather_data"]) env = Some fw
             /\ Py.path (texts ["response"; "fallback_used"]) env
                = Some (VBool fb))
       /\ (if chat && negb direct
           then Py.path (texts ["response"; "type"]) env
                = Some (VStr "weather_chat")
                /\ Py.path (texts ["response"; "location_context"]) env
                   = Some (VStr (context_of l (last_location s)))
           else Py.path (texts ["response"; "type"]) env
                = Some (VStr "weather_report")).
Proof.
  unfold answer. intro H.
  apply bind_inv in H as [([[wd art] fb] & s1 & rt1 & E & H)|(e & E & ->)].
  2:{ pose proof (run_frames _ _ _ _ _ _ E (frames_get_weather_data W l)).
      subst. split; [reflexivity|split; [now left|discriminate]]. }
  pose proof (run_frames _ _ _ _ _ _ E (frames_get_weather_data W l)).
  subst s1.
  apply bind_inv in H as [(fw & s1 & rt2 & Ef & H)|(e & Ef & ->)];
    unfold lift in Ef; injection Ef as Ef <- <-.
  2:{ split; [reflexivity|split; [now left|discriminate]]. }
  destruct (chat && negb direct).
  - apply weather_chat_effect in H as (L & A & K).
    split; [exact L|split; [exact A|]]. intros env ->.
    destruct (K env eq_refl) as (U & R & D & Er & T & F & C & X).
    repeat split; try assumption. exists wd, art, fb, rt1, fw. now repeat split.
  - apply weather_report_effect in H as (L & A & K).
    split; [exact L|split; [exact A|]]. intros env ->.
    destruct (K env eq_refl) as (U & R & D & Er & T & F & X).
    repeat split; try assumption. exists wd, art, fb, rt1, fw. now repeat split.
Qed.

Lemma process_query_route (W : World) (q : text) (s s' : self_t)
      (rt rt' : runtime) (r : Result value) :
  process_query W q s rt = (r, s', rt') -> route W q s rt r s' rt'.
Proof.
  unfold process_query. intro H.
  apply bind_inv in H as [(t0 & s0 & rt0 & E0 & H)|(e & E0 & _)];
    [|discriminate E0].
  unfold time in E0. injection E0 as <- <- <-. fold (ticked rt) in H.
  destruct (is_weather_query q) eqn:D, (is_weather_related q) eqn:C;
    cbn [orb negb andb] in H.
  4:{ apply OffTopic; [now rewrite D, C | exact H]. }
  all: apply bind_inv in H as [(found & s1 & rt1 & E & H)|(e & E & ->)];
    pose proof (run_frames _ _ _ _ _ _ E (frames_extract_location W q));
    subst;
    [|apply (ExtractorRaised _ _ _ _ _ _ _ e);
      [now rewrite D, C | exact E | reflexivity | reflexivity]].
  all: apply bind_inv in H as [(self & s2 & rt2 & Eg & H)|(e & Eg & _)];
    [|discriminate Eg].
  all: unfold get_self in Eg; injection Eg as <- <- <-.
  all: destruct found as [l|].
  all: try (apply bind_inv in H as [(u & s3 & rt3 & Ep & H)|(e & Ep & _)];
            [|discriminate Ep];
            unfold put_self in Ep; injection Ep as <- <- <-;
            apply (Extracted _ _ _ _ _ _ _ l rt1);
            [now rewrite D, C | exact E | rewrite D, C; exact H]).
  all: match type of H with
       | context [last_location ?x] =>
           destruct (last_location x) as [last|] eqn:L
       end.
  all: try (unfold ret in H; injection H as <- <- <-;
            apply NoLocation; [exact D | exact E | reflexivity | reflexivity]).
  - now apply (Reused _ _ _ _ _ _ _ last rt1).
  - now apply (Sentinel _ _ _ _ _ _ _ rt1).
Qed.

Lemma context_of_same (l : location) : context_of l (Some l) = "cached".
Proof. unfold context_of, location_eqb. now rewrite text_eqb_refl. Qed.

Ltac wrong_type T Htype :=
  rewrite T in Htype; discriminate Htype.

(** C9.  Whenever [process_query] returns a weather-chat envelope, its
    [location_context] is "cached" if the extractor returned a location
    (which was stored as the last location before the comparison) or the
    last location was reused, and "new" only when neither was there: then
    the location is the sentinel [{"city": "general"}] and the stored last
    location is [None], which differs from it. *)
Theorem chat_location_context
        (W : World) (q : text) (s s' : self_t) (rt rt' : runtime)
        (env : value) :
  process_query W q s rt = (Ok env, s', rt') ->
  Py.path (texts ["response"; "type"]) env = Some (VStr "weather_chat") ->
  exists found rt1,
    extract_location W q s (ticked rt) = (Ok found, s, rt1)
    /\ match found, last_location s with
       | Some l, _ =>
           Py.path (texts ["response"; "location_context"]) env
           = Some (VStr "cached")
           /\ last_location s' = Some l
           /\ Py.path (texts ["query"; "extracted_location"]) env
              = Some (location_value l)
       | None, Some last =>
           Py.path (texts ["response"; "location_context"]) env
           = Some (VStr "cached")
           /\ last_location s' = Some last
           /\ Py.path (texts ["query"; "extracted_location"]) env
              = Some (location_value last)
       | None, None =>
           Py.path (texts ["response"; "location_context"]) env
           = Some (VStr "new")
           /\ last_location s' = None
           /\ Py.path (texts ["query"; "extracted_location"]) env
              = Some (location_value general)
       end.
Proof.
  intros H Htype. apply process_query_route in H.
  destruct H as [Hq H|e Hq E Hr Hs|Hq E Hr Hs|l rt1 Hq E H
                 |last rt1 D C E L H|rt1 D C E L H].
  - apply off_topic_effect in H as (_ & _ & K).
    destruct (K env eq_refl) as (_ & _ & _ & T). wrong_type T Htype.
  - discriminate Hr.
  - injection Hr as ->. discriminate Htype.
  - apply answer_effect in H as (L & _ & K).
    destruct (K env eq_refl) as (_ & _ & _ & X & _ & T).
    exists (Some l), rt1. split; [exact E|].
    destruct (is_weather_related q && negb (is_weather_query q)).
    + destruct T as [_ Cx]. cbn [last_location set_last_location] in Cx.
      rewrite context_of_same in Cx. cbv beta iota.
      repeat split; assumption.
    + wrong_type T Htype.
  - apply answer_effect in H as (L' & _ & K).
    destruct (K env eq_refl) as (_ & _ & _ & X & _ & T).
    exists None, rt1. split; [exact E|]. rewrite L.
    cbn [andb negb] in T. destruct T as [_ Cx].
    rewrite L, context_of_same in Cx. cbv beta iota.
    repeat split; try assumption. now rewrite L'.
  - apply answer_effect in H as (L' & _ & K).
    destruct (K env eq_refl) as (_ & _ & _ & X & _ & T).
    exists None, rt1. split; [exact E|]. rewrite L.
    cbn [andb negb] in T. destruct T as [_ Cx].
    rewrite L in Cx. cbv beta iota.
    repeat split; try assumption. now rewrite L'.
Qed.

(** A chat about the cold with nothing cached and an extractor that fails:
    the sentinel is used and the context is "new". *)
Lemma chat_location_context_witness :
  exists found rt1,
    extract_location world_with_failing_extractor "it's so cold today"
                     fresh_weather_agent (ticked fresh_runtime)
    = (Ok found, fresh_weather_agent, rt1)
    /\ found = None
    /\ field ["response"; "location_context"]
             (envelope_of world_with_failing_extractor "it's so cold today")
       = Some (VStr "new")
    /\ last_location
         (agent_after world_with_failing_extractor "it's so cold today")
       = None.
Proof.
  destruct (chat_location_context
              world_with_failing_extractor "it's so cold today"
              fresh_weather_agent
              (agent_after world_with_failing_extractor "it's so cold today")
              fresh_runtime
              (runtime_after world_with_failing_extractor "it's so cold today")
              (match envelope_of world_with_failing_extractor
                                 "it's so cold today" with
               | Some env => env
               | None => VNone
               end))
    as (found & rt1 & E & K).
  - vm_compute. reflexivity.
  - vm_compute. reflexivity.
  - exists found, rt1. split; [exact E|].
    assert (F : found = None).
    { vm_compute in E. now injection E as <- _. }
    subst found. split; [reflexivity|].
    cbn [last_location fresh_weather_agent] in K.
    destruct K as (Cx & L & _). split; [|exact L].
    vm_compute. reflexivity.
Defined.

Lemma updated_once_decrements (W : World) (s s' : self_t) :
  updated_once W s s' ->
  (1 < RateLimit.remaining (rate_limit s))%Z ->
  RateLimit.remaining (rate_limit s')
  = (RateLimit.remaining (rate_limit s) - 1)%Z.
Proof.
  intros [tick ->] H. now rewrite RateLimitFacts.update_above_one.
Qed.

(** C4, as stated, fails: the direct query "forecast", for which neither a
    pattern nor the model gives a location, ends in the location error and
    leaves [remaining] at 100000. *)
Lemma location_error_does_not_count :
  envelope_of silent_world "forecast" = Some location_error
  /\ RateLimit.remaining (rate_limit fresh_weather_agent) = 100000%Z
  /\ RateLimit.remaining (rate_limit (agent_after silent_world "forecast"))
     = 100000%Z.
Proof. vm_compute. repeat split; reflexivity. Qed.

(** C4, amended.  An invocation of [process_query] calls
    [update_rate_limit] at most once.  When it returns an envelope other
    than the location error (off-topic, chat or report) it has called it
    exactly once, so [remaining] is one less whenever more than one call was
    left; when it returns the location error the counter is as it was. *)
Theorem every_envelope_counts_once
        (W : World) (q : text) (s s' : self_t) (rt rt' : runtime)
        (r : Result value) :
  process_query W q s rt = (r, s', rt') ->
  at_most_once W s s'
  /\ (r = Ok location_error -> rate_limit s' = rate_limit s)
  /\ (forall env, r = Ok env -> env <> location_error ->
        Py.path (texts ["rate_limit"]) env <> None
        /\ updated_once W s s'
        /\ ((1 < RateLimit.remaining (rate_limit s))%Z ->
            RateLimit.remaining (rate_limit s')
            = (RateLimit.remaining (rate_limit s) - 1)%Z)).
Proof.
  intro H. apply process_query_route in H.
  destruct H as [Hq H|e Hq E Hr Hs|Hq E Hr Hs|l rt1 Hq E H
                 |last rt1 D C E L H|rt1 D C E L H].
  - apply off_topic_effect in H as (_ & U & K).
    split; [now right|]. split.
    + intros ->. destruct (K _ eq_refl) as (R & _). now contradiction R.
    + intros env -> _. destruct (K env eq_refl) as (R & _).
      split; [exact R|]. split; [exact U|].
      exact (updated_once_decrements W _ _ U).
  - subst. split; [now left|]. split; [discriminate|discriminate].
  - subst. split; [now left|]. split; [reflexivity|].
    intros env [= <-] N. now contradiction N.
  - apply answer_effect in H as (_ & A & K).
    split; [exact A|]. split.
    + intros ->. destruct (K _ eq_refl) as (_ & R & _). now contradiction R.
    + intros env -> _. destruct (K env eq_refl) as (U & R & _).
      split; [exact R|]. split; [exact U|].
      exact (updated_once_decrements W (set_last_location (Some l) s) _ U).
  - apply answer_effect in H as (_ & A & K).
    split; [exact A|]. split.
    + intros ->. destruct (K _ eq_refl) as (_ & R & _). now contradiction R.
    + intros env -> _. destruct (K env eq_refl) as (U & R & _).
      split; [exact R|]. split; [exact U|].
      exact (updated_once_decrements W _ _ U).
  - apply answer_effect in H as (_ & A & K).
    split; [exact A|]. split.
    + intros ->. destruct (K _ eq_refl) as (_ & R & _). now contradiction R.
    + intros env -> _. destruct (K env eq_refl) as (U & R & _).
      split; [exact R|]. split; [exact U|].
      exact (updated_once_decrements W _ _ U).
Qed.

(** An off-topic question to a fresh agent: the envelope comes back with
    [remaining] at 99999. *)
Lemma every_envelope_counts_once_witness :
  field ["response"; "type"]
        (envelope_of silent_world "what is the capital of France")
  = Some (VStr "off_topic_response")
  /\ RateLimit.remaining
       (rate_limit (agent_after silent_world "what is the capital of France"))
     = (RateLimit.remaining (rate_limit fresh_weather_agent) - 1)%Z.
Proof.
  split; [vm_compute; reflexivity|].
  destruct (every_envelope_counts_once
              silent_world "what is the capital of France"
              fresh_weather_agent
              (agent_after silent_world "what is the capital of France")
              fresh_runtime
              (runtime_after silent_world "what is the capital of France")
              (fst (fst (process_query
                           silent_world "what is the capital of France"
                           fresh_weather_agent fresh_runtime))))
    as (_ & _ & K).
  - vm_compute. reflexivity.
  - destruct (envelope_of silent_world "what is the capital of France")
      as [env|] eqn:E; [|vm_compute in E; discriminate E].
    destruct (K env) as (_ & _ & D).
    + vm_compute in E. injection E as <-. vm_compute. reflexivity.
    + vm_compute in E. injection E as <-. discriminate.
    + apply D. vm_compute. reflexivity.
Defined.

(** C1, as stated, fails: with a provider that answers 404 to every
    request, the direct query "weather in Xyzzyplatypus123" comes back as a
    weather report whose [weather_data] key is there, holding the
    unavailable marker, and which has no [error] key. *)
Lemma unresolvable_city_still_reports :
  is_weather_query "weather in Xyzzyplatypus123" = true
  /\ field ["response"; "type"]
           (envelope_of world_without_cities "weather in Xyzzyplatypus123")
     = Some (VStr "weather_report")
  /\ field ["weather_data"]
           (envelope_of world_without_cities "weather in Xyzzyplatypus123")
     = Some unavailable
  /\ field ["error"]
           (envelope_of world_without_cities "weather in Xyzzyplatypus123")
     = None.
Proof. vm_compute. repeat split; reflexivity. Qed.

(** C1, amended.  For a direct weather query, when the provider answers
    every request with a status other than 200, an envelope that
    [process_query] returns is either the location error, with no
    [weather_data] key, and then the extractor found no location; or, the
    extractor having found one, a weather report with no [error] key whose
    [weather_data] key holds the unavailable marker and whose
    [fallback_used] is true. *)
Theorem direct_query_with_failing_provider
        (W : World) (q : text) (s s' : self_t) (rt rt' : runtime)
        (env : value) :
  provider_never_200 W ->
  is_weather_query q = true ->
  process_query W q s rt = (Ok env, s', rt') ->
  (env = location_error
   /\ Py.path (texts ["weather_data"]) env = None
   /\ extract_location W q s (ticked rt) = (Ok None, s', rt'))
  \/ (exists l rt1,
        extract_location W q s (ticked rt) = (Ok (Some l), s, rt1)
        /\ Py.path (texts ["response"; "type"]) env
           = Some (VStr "weather_report")
        /\ Py.path (texts ["weather_data"]) env = Some unavailable
        /\ Py.path (texts ["error"]) env = None
        /\ Py.path (texts ["response"; "fallback_used"]) env
           = Some (VBool true)
        /\ Py.path (texts ["query"; "extracted_location"]) env
           = Some (location_value l)).
Proof.
  intros P D H. apply process_query_route in H.
  destruct H as [Hq H|e Hq E Hr Hs|Hq E Hr Hs|l rt1 Hq E H
                 |last rt1 D' C E L H|rt1 D' C E L H];
    try congruence.
  - rewrite D in Hq. discriminate Hq.
  - injection Hr as ->. left. repeat split. exact E.
  - right. apply answer_effect in H as (_ & _ & K).
    destruct (K env eq_refl) as (_ & _ & Er & X & F & T).
    destruct F as (wd & art & fb & rt2 & fw & G & Ff & Wd & Fb).
    destruct (get_weather_data_never_200 _ _ _ _ _ _ _ P G) as (art' & Eq).
    injection Eq as -> _ ->. cbn in Ff. injection Ff as <-.
    rewrite D, andb_false_r in T.
    exists l, rt1. repeat split; assumption.
Qed.

Lemma direct_query_with_failing_provider_witness :
  exists l rt1,
    extract_location world_without_cities "weather in Xyzzyplatypus123"
                     fresh_weather_agent (ticked fresh_runtime)
    = (Ok (Some l), fresh_weather_agent, rt1)
    /\ city l = list_ascii_of_string "xyzzyplatypus123"
    /\ field ["weather_data"]
             (envelope_of world_without_cities "weather in Xyzzyplatypus123")
       = Some unavailable.
Proof.
  destruct (direct_query_with_failing_provider
              world_without_cities "weather in Xyzzyplatypus123"
              fresh_weather_agent
              (agent_after world_without_cities "weather in Xyzzyplatypus123")
              fresh_runtime
              (runtime_after world_without_cities "weather in Xyzzyplatypus123")
              (match envelope_of world_without_cities
                                 "weather in Xyzzyplatypus123" with
               | Some env => env
               | None => VNone
               end))
    as [(E & _)|(l & rt1 & E & _ & Wd & _)].
  - intros n c k. eexists. split; [reflexivity|]. cbn. discriminate.
  - vm_compute. reflexivity.
  - vm_compute. reflexivity.
  - vm_compute in E. discriminate E.
  - exists l, rt1. split; [exact E|]. split.
    + vm_compute in E. now injection E as <- _.
    + vm_compute. reflexivity.
Defined.

End WeatherFacts.

(** ** The location extractor *)

Module ExtractFacts.

Import Eff Re ReFacts WeatherAgent Samples Notions.

(** *** Characters *)

Ltac by_cases_on ch :=
  destruct ch as [[] [] [] [] [] [] [] []]; vm_compute; try reflexivity;
  try discriminate; auto.

Lemma word_not_space (ch : ascii) :
  Text.is_word ch = true -> Text.is_space ch = false.
Proof. by_cases_on ch. Qed.

Lemma is_word_lower (ch : ascii) :
  Text.is_word (Text.lower_char ch) = Text.is_word ch.
Proof. by_cases_on ch. Qed.

Lemma lower_plain (ch : ascii) :
  Text.is_word ch || Ascii.eqb ch " " = true ->
  word_or_space (Text.lower_char ch) = true.
Proof. by_cases_on ch. Qed.

Lemma lower_app (a b : text) :
  Text.lower (a ++ b) = Text.lower a ++ Text.lower b.
Proof. apply map_app. Qed.

(** *** Texts that begin and end with a word character *)

Lemma strip_id (s : text) : word_first s -> word_last s -> Text.strip s = s.
Proof.
  intros (h & tl & -> & Hh) (b & z & E & Hz).
  unfold Text.strip. cbn [Text.lstrip]. rewrite (word_not_space h Hh).
  unfold Text.rstrip. rewrite E, rev_app_distr. cbn [rev app Text.lstrip].
  rewrite (word_not_space z Hz). cbn [rev]. now rewrite rev_involutive.
Qed.

Lemma word_last_suffix (s a b : text) :
  word_last s -> s = a ++ b -> b <> [] -> word_last b.
Proof.
  intros (body & z & -> & Hz) E N.
  destruct (exists_last N) as (b' & y & ->).
  rewrite app_assoc in E. apply app_inj_tail in E as [_ <-].
  now exists b', z.
Qed.

Lemma word_last_app (a b : text) : word_last b -> word_last (a ++ b).
Proof.
  intros (b' & z & -> & Hz). exists (a ++ b'), z. now rewrite app_assoc.
Qed.

Lemma word_last_not_space (s b : text) (y : ascii) :
  word_last s -> s = b ++ [y] -> Text.is_space y = false.
Proof.
  intros (b' & z & -> & Hz) E. apply app_inj_tail in E as [_ ->].
  now apply word_not_space.
Qed.

Lemma time_word_in (w : text) :
  w = list_ascii_of_string "today"
  \/ w = list_ascii_of_string "now"
  \/ w = list_ascii_of_string "tomorrow" ->
  In w time_words.
Proof. intros [->|[->| ->]]; cbn; auto. Qed.

Lemma time_word_last (w : text) : In w time_words -> word_last w.
Proof.
  intros [<-|[<-|[<-|[]]]].
  - now exists (list_ascii_of_string "toda"), "y"%char.
  - now exists (list_ascii_of_string "no"), "w"%char.
  - now exists (list_ascii_of_string "tomorro"), "w"%char.
Qed.

Lemma time_word_words (w : text) :
  In w time_words -> forallb Text.is_word w = true.
Proof. intros [<-|[<-|[<-|[]]]]; reflexivity. Qed.

Lemma time_word_lower (w : text) : In w time_words -> Text.lower w = w.
Proof. intros [<-|[<-|[<-|[]]]]; reflexivity. Qed.

(** What [plain_city] gives about the lowercase city. *)
Lemma plain_city_lower (c : text) :
  plain_city c = true ->
  word_first (Text.lower c) /\ word_last (Text.lower c)
  /\ forallb word_or_space (Text.lower c) = true.
Proof.
  unfold plain_city. intro H.
  apply andb_true_iff in H as [H Hall]. apply andb_true_iff in H as [Hh Hl].
  destruct c as [|h tl]; [discriminate Hh|]. repeat split.
  - exists (Text.lower_char h), (Text.lower tl). split; [reflexivity|].
    now rewrite is_word_lower.
  - assert (N : h :: tl <> []) by discriminate.
    destruct (exists_last N) as (b & z & E). rewrite E in Hl |- *.
    rewrite last_last in Hl. exists (Text.lower b), (Text.lower_char z).
    split; [apply map_last|]. now rewrite is_word_lower.
  - unfold Text.lower. rewrite forallb_forall in Hall |- *.
    intros x Hx. apply in_map_iff in Hx as (y & <- & Hy).
    apply lower_plain. now apply Hall.
Qed.

(** *** The two tails *)

Lemma ends_with_app (p w : text) : ends_with w (p ++ w) = true.
Proof.
  unfold ends_with. rewrite length_app, Nat.add_sub, skipn_app.
  rewrite skipn_all, Nat.sub_diag. cbn. unfold Text.eqb.
  destruct (list_eq_dec ascii_dec w w); congruence.
Qed.

Lemma ends_with_time_word_app (p w : text) :
  In w time_words -> ends_with_time_word (p ++ w) = true.
Proof.
  intro H. unfold ends_with_time_word. apply existsb_exists.
  exists w. split; [exact H | apply ends_with_app].
Qed.

(** Where [(?:\s+(?:today|now|tomorrow))?\??$] matches a text that ends with
    a word character, the text is whitespace and a time word. *)
Lemma time_tail_word_end {R : Type} (s : text) (g : option text)
      (k : text -> option text -> option R) (x : R) :
  word_last s ->
  run time_tail s g k = Some x ->
  exists ws tw,
    s = ws ++ tw /\ ws <> [] /\ forallb Text.is_space ws = true
    /\ In tw time_words.
Proof.
  intros (b & z & E & Hz) H.
  apply run_sound in H as (w & rest0 & g' & Es & M & _).
  cbn in M.
  destruct M as (w1 & w2 & -> & M1 & w3 & w4 & -> & M3 & -> & Mrest).
  rewrite app_nil_r in Es.
  destruct Mrest as [->| ->].
  - rewrite app_nil_r in Es. destruct M3 as [->| ->].
    + rewrite app_nil_r in Es. destruct M1 as [->|(u & v & -> & [N F] & V)].
      * rewrite E in Es. now destruct b.
      * exists u, v. repeat split; try assumption. now apply time_word_in.
    + rewrite E in Es. apply app_inj_tail in Es as [_ ->]. discriminate Hz.
  - rewrite E in Es. apply app_inj_tail in Es as [_ ->]. discriminate Hz.
Qed.

(** Where [\s*(?:today|now|tomorrow)\s*$] matches a text that ends with a word
    character, the text is whitespace and a time word. *)
Lemma trailing_time_word_end (s : text) (m : rmatch) :
  word_last s ->
  match_here trailing_time s = Some m ->
  exists ws tw, s = ws ++ tw /\ In tw time_words.
Proof.
  intros L H. pose proof L as (b & z & E & Hz).
  apply match_here_sound in H as (w & Es & M).
  cbn in M.
  destruct M as (w1 & w2 & -> & F1 & w3 & w4 & -> & V & w5 & w6 & -> & F5
                 & -> & Mrest).
  rewrite app_nil_r in Es.
  destruct Mrest as [Er|Er]; rewrite Er in Es.
  - rewrite app_nil_r in Es. destruct w5 as [|c5 w5'].
    + rewrite app_nil_r in Es. exists w1, w3. split; [exact Es|].
      now apply time_word_in.
    + assert (N : c5 :: w5' <> []) by discriminate.
      destruct (exists_last N) as (w5b & y & E5). rewrite E5 in Es, F5.
      rewrite forallb_app in F5. apply andb_true_iff in F5 as [_ Fy].
      cbn in Fy. rewrite andb_true_r in Fy.
      rewrite !app_assoc in Es.
      now rewrite (word_last_not_space s _ y L Es) in Fy.
  - rewrite E in Es. apply app_inj_tail in Es as [_ ->]. discriminate Hz.
Qed.

(** *** The capture *)

Lemma firstn_consumed (a b : text) :
  firstn (List.length (a ++ b) - List.length b) (a ++ b) = a.
Proof.
  rewrite length_app, Nat.add_sub, firstn_app, Nat.sub_diag, firstn_all.
  cbn. apply app_nil_r.
Qed.

(** [([\w\s]+?)] followed by the tail captures [lc] when the tail matches
    what follows [lc] and no shorter capture lets the tail match. *)
Lemma city_then_tail_captures (lc t : text) :
  lc <> [] ->
  forallb word_or_space lc = true ->
  (forall g, run time_tail t g matched = matched [] g) ->
  (forall a1 a2 g, lc = a1 ++ a2 -> a1 <> [] -> a2 <> [] ->
                   run time_tail (a2 ++ t) g matched = None) ->
  run city_then_tail (lc ++ t) None matched
  = Some {| rest := []; group1 := Some lc |}.
Proof.
  intros N F Hend Hin. unfold city_then_tail. cbn [run].
  apply lazy_plus_first; try assumption.
  - intros a1 a2 E N1 N2. now apply Hin with a1.
  - rewrite Hend, firstn_consumed. reflexivity.
Qed.

(** The tail cannot match from inside a city that does not end with a time
    word. *)
Lemma time_tail_fails_inside (lc a1 a2 : text) (g : option text) :
  word_last lc ->
  ends_with_time_word lc = false ->
  lc = a1 ++ a2 -> a2 <> [] ->
  run time_tail (a2 ++ []) g matched = None.
Proof.
  intros L Hno E N. rewrite app_nil_r.
  destruct (run time_tail a2 g matched) as [x|] eqn:H; [|reflexivity].
  apply time_tail_word_end in H as (ws & tw & Ea & _ & _ & Htw).
  - rewrite E, Ea, app_assoc, ends_with_time_word_app in Hno by exact Htw.
    discriminate Hno.
  - exact (word_last_suffix lc a1 a2 L E N).
Qed.

(** Nor from inside a city that a space and a time word follow. *)
Lemma time_tail_fails_before_time_word (lc a1 a2 w0 : text) (g : option text) :
  word_last lc ->
  In w0 time_words ->
  lc = a1 ++ a2 -> a2 <> [] ->
  run time_tail (a2 ++ " "%char :: w0) g matched = None.
Proof.
  intros L Hw E N.
  destruct (run time_tail _ g matched) as [x|] eqn:H; [|reflexivity].
  exfalso.
  pose proof (word_last_suffix lc a1 a2 L E N) as (b2 & z & E2 & Hz).
  apply time_tail_word_end in H as (ws & tw & Ea & _ & Fws & Htw).
  - apply app_eq_app in Ea as (l & [[Ex Ey]|[Ex Ey]]).
    + pose proof (time_word_words tw Htw) as Fw. rewrite Ey in Fw.
      rewrite forallb_app in Fw. apply andb_true_iff in Fw as [_ Fw].
      discriminate Fw.
    + rewrite Ex, E2, !forallb_app in Fws.
      apply andb_true_iff in Fws as [Fws _].
      apply andb_true_iff in Fws as [_ Fz]. cbn in Fz.
      now rewrite (word_not_space z Hz) in Fz.
  - change (a2 ++ " "%char :: w0) with (a2 ++ [" "%char] ++ w0).
    apply word_last_app, word_last_app. now apply time_word_last.
Qed.

(** The tail matches the end of the query, and a space and a time word. *)
Lemma time_tail_at_end (g : option text) :
  run time_tail [] g matched = matched [] g.
Proof. reflexivity. Qed.

Lemma time_tail_at_time_word (w0 : text) (g : option text) :
  In w0 time_words ->
  run time_tail (" "%char :: w0) g matched = matched [] g.
Proof. intros [<-|[<-|[<-|[]]]]; reflexivity. Qed.

(** [re.sub] finds no trailing time word in a city that does not end with
    one. *)
Lemma trailing_time_absent (lc : text) :
  word_last lc ->
  ends_with_time_word lc = false ->
  sub_empty trailing_time lc = lc.
Proof.
  intros L Hno. apply sub_empty_none. intros a b E N.
  destruct (match_here trailing_time b) as [m|] eqn:H; [|reflexivity].
  apply trailing_time_word_end in H as (ws & tw & Eb & Htw).
  - rewrite E, Eb, app_assoc, ends_with_time_word_app in Hno by exact Htw.
    discriminate Hno.
  - exact (word_last_suffix lc a b L E N).
Qed.

(** The first pattern matches at the head of "weather in " and what
    [city_then_tail] matches. *)
Lemma weather_in_here (X : text) (m : rmatch) :
  run city_then_tail X None matched = Some m ->
  first_match location_patterns (list_ascii_of_string "weather in " ++ X)
  = Some m.
Proof.
  intro H. unfold location_patterns. cbn [first_match].
  rewrite (search_here _ _ m); [reflexivity|].
  unfold match_here. cbn [seqs run in_at_for alts texts map].
  change (list_ascii_of_string "weather in " ++ X)
    with (list_ascii_of_string "weather "
          ++ (list_ascii_of_string "in" ++ (list_ascii_of_string " " ++ X))).
  rewrite !match_lit_app. fold matched. now rewrite H.
Qed.

(** The extractor on "weather in ", a lowercase city and a tail, when the
    capture is the city. *)
Lemma extract_location_weather_in (W : World) (q lc t : text)
      (s : self_t) (rt : runtime) :
  Text.strip (Text.lower q) = list_ascii_of_string "weather in " ++ lc ++ t ->
  word_first lc -> word_last lc ->
  forallb word_or_space lc = true ->
  ends_with_time_word lc = false ->
  (forall g, run time_tail t g matched = matched [] g) ->
  (forall a1 a2 g, lc = a1 ++ a2 -> a1 <> [] -> a2 <> [] ->
                   run time_tail (a2 ++ t) g matched = None) ->
  extract_location W q s rt = (Ok (Some {| city := lc |}), s, rt).
Proof.
  intros Eq Hf Hl Hall Hno Hend Hin. unfold extract_location. rewrite Eq.
  assert (N : lc <> []) by (destruct Hf as (h & tl & -> & _); discriminate).
  rewrite (weather_in_here _ _ (city_then_tail_captures lc t N Hall Hend Hin)).
  cbn [group1]. rewrite (strip_id lc Hf Hl), (trailing_time_absent lc Hl Hno).
  reflexivity.
Qed.

Lemma weather_in_word_first (X : text) :
  word_first (list_ascii_of_string "weather in " ++ X).
Proof. eexists _, _. split; reflexivity. Qed.

(** C2.  At "weather in Lucknow" the first pattern captures [lucknow], and
    the substitution of line 52, whose pattern has no word boundary before
    its time words, cuts the capture to [luck]: the city returned is not the
    captured text, though no time word follows the city.  The same happens
    when one does follow: the tail of the pattern takes it, and the
    substitution still finds [now] at the end of the capture. *)
Theorem extract_location_cuts_city_name
        (W : World) (s : self_t) (rt : runtime) :
  first_match location_patterns (Text.strip (Text.lower "weather in Lucknow"))
  = Some {| rest := []; group1 := Some (list_ascii_of_string "lucknow") |}
  /\ sub_empty trailing_time "lucknow" = list_ascii_of_string "luck"
  /\ extract_location W "weather in Lucknow" s rt
     = (Ok (Some {| city := "luck" |}), s, rt)
  /\ extract_location W "weather in Lucknow today" s rt
     = (Ok (Some {| city := "luck" |}), s, rt)
  /\ list_ascii_of_string "luck" <> list_ascii_of_string "lucknow".
Proof.
  repeat split; try reflexivity. discriminate.
Qed.

(** X23.  For a query "weather in <city>", where the city is made of word
    characters and spaces, begins and ends with a word character and, in
    lowercase, does not end with today, now or tomorrow,
    [extract_location] returns the city in lowercase, without a call of the
    model; and it returns the same when a space and today, now or tomorrow
    follow the city. *)
Theorem extract_location_weather_in_city
        (W : World) (c : text) (s : self_t) (rt : runtime) :
  plain_city c = true ->
  ends_with_time_word (Text.lower c) = false ->
  extract_location W (list_ascii_of_string "weather in " ++ c) s rt
  = (Ok (Some {| city := Text.lower c |}), s, rt)
  /\ forall w, In w time_words ->
       extract_location
         W (list_ascii_of_string "weather in " ++ c ++ " "%char :: w) s rt
       = (Ok (Some {| city := Text.lower c |}), s, rt).
Proof.
  intros Hc Hno. destruct (plain_city_lower c Hc) as (Hf & Hl & Hall). split.
  - apply extract_location_weather_in with (t := []); try assumption.
    + rewrite lower_app, app_nil_r.
      change (Text.lower "weather in ") with (list_ascii_of_string "weather in ").
      apply strip_id; [apply weather_in_word_first | now apply word_last_app].
    + apply time_tail_at_end.
    + intros a1 a2 g E _ N.
      now apply (time_tail_fails_inside (Text.lower c) a1).
  - intros w Hw.
    apply extract_location_weather_in with (t := " "%char :: w);
      try assumption.
    + rewrite lower_app.
      change (c ++ " "%char :: w) with (c ++ [" "%char] ++ w).
      rewrite !lower_app, (time_word_lower w Hw).
      change (Text.lower "weather in ") with (list_ascii_of_string "weather in ").
      apply strip_id; [apply weather_in_word_first|].
      apply word_last_app, word_last_app.
      apply (word_last_app [" "%char] w). now apply time_word_last.
    + intro g. now apply time_tail_at_time_word.
    + intros a1 a2 g E _ N.
      now apply (time_tail_fails_before_time_word (Text.lower c) a1).
Qed.

Lemma extract_location_weather_in_city_witness :
  extract_location silent_world "weather in New York"
                   fresh_weather_agent fresh_runtime
  = (Ok (Some {| city := "new york" |}), fresh_weather_agent, fresh_runtime)
  /\ extract_location silent_world "weather in New York tomorrow"
                      fresh_weather_agent fresh_runtime
     = (Ok (Some {| city := "new york" |}), fresh_weather_agent, fresh_runtime).
Proof.
  destruct (extract_location_weather_in_city
              silent_world "New York" fresh_weather_agent fresh_runtime
              eq_refl eq_refl) as [A B].
  split.
  - exact A.
  - apply (B "tomorrow"). cbn. auto.
Defined.

End ExtractFacts.

(** ** The extractor never raises *)

Module ExtractTotal.

Import Eff EffFacts Re ReFacts WeatherAgent Samples Notions More.

(** A pattern without a group hands group 1 on as it got it. *)
Lemma run_groupless (r : regex) :
  groupless r = true ->
  forall (R : Type) (s : text) (g : option text)
         (k : text -> option text -> option R) (x : R),
    run r s g k = Some x -> exists s', k s' g = Some x.
Proof.
  induction r as [l|r1 IH1 r2 IH2|r1 IH1 r2 IH2|r1 IH1|cls|cls|cls|r1 IH1|];
    intros G R s g k x H; cbn in G, H; try discriminate G.
  - destruct (match_lit l s) as [s'|]; [eauto|discriminate H].
  - apply andb_true_iff in G as [G1 G2].
    destruct (run r1 s g k) as [y|] eqn:E.
    + injection H as ->. exact (IH1 G1 _ _ _ _ _ E).
    + exact (IH2 G2 _ _ _ _ _ H).
  - apply andb_true_iff in G as [G1 G2].
    destruct (IH1 G1 _ _ _ _ _ H) as (s1 & H1).
    exact (IH2 G2 _ _ _ _ _ H1).
  - destruct (run r1 s g k) as [y|] eqn:E.
    + injection H as ->. exact (IH1 G _ _ _ _ _ E).
    + eauto.
  - apply plus_some in H as (w & rest & _ & _ & _ & K). eauto.
  - apply lazy_plus_some in H as (w & rest & _ & _ & _ & K). eauto.
  - apply star_some in H as (w & rest & _ & _ & K). eauto.
  - destruct s as [|c [|d s]]; try discriminate H; eauto.
    destruct (Ascii.eqb c "010"); [eauto|discriminate H].
Qed.

(** A capturing pattern hands on a group that is set. *)
Lemma run_captures (r : regex) :
  captures r = true ->
  forall (R : Type) (s : text) (g : option text)
         (k : text -> option text -> option R) (x : R),
    run r s g k = Some x -> exists s' c, k s' (Some c) = Some x.
Proof.
  induction r as [l|r1 IH1 r2 IH2|r1 IH1 r2 IH2|r1 IH1|cls|cls|cls|r1 IH1|];
    intros C R s g k x H; cbn in C; try discriminate C.
  - apply andb_true_iff in C as [C1 C2]. cbn in H.
    destruct (run r1 s g k) as [y|] eqn:E.
    + injection H as ->. exact (IH1 C1 _ _ _ _ _ E).
    + exact (IH2 C2 _ _ _ _ _ H).
  - cbn in H. destruct (captures r2) eqn:C2.
    + apply run_sound in H as (w & rest & g' & _ & _ & H2).
      exact (IH2 eq_refl _ _ _ _ _ H2).
    + cbn in C. apply andb_true_iff in C as [C1 G2].
      destruct (IH1 C1 _ _ _ _ _ H) as (s1 & c & H1).
      destruct (run_groupless r2 G2 _ _ _ _ _ H1) as (s2 & H2). eauto.
  - cbn in H. apply run_sound in H as (w & rest & g' & _ & _ & K). eauto.
Qed.

Lemma search_captures (r : regex) (s : text) (m : rmatch) :
  captures r = true -> search r s = Some m -> group1 m <> None.
Proof.
  intros C. induction s as [|c s IH]; cbn; intro H.
  - destruct (match_here r []) as [m'|] eqn:E; [|discriminate H].
    injection H as ->. unfold match_here in E.
    apply (run_captures r C) in E as (s' & g & [= <-]). discriminate.
  - destruct (match_here r (c :: s)) as [m'|] eqn:E; [|exact (IH H)].
    injection H as ->. unfold match_here in E.
    apply (run_captures r C) in E as (s' & g & [= <-]). discriminate.
Qed.

(** Each of the four location patterns captures. *)
Lemma location_patterns_capture :
  forallb captures location_patterns = true.
Proof. reflexivity. Qed.

Lemma first_match_captures (ps : list regex) (q : text) (m : rmatch) :
  forallb captures ps = true ->
  first_match ps q = Some m -> group1 m <> None.
Proof.
  induction ps as [|p ps IH]; cbn; [discriminate|]. intros C H.
  apply andb_true_iff in C as [Cp Cps].
  destruct (search p q) as [m'|] eqn:E.
  - injection H as <-. exact (search_captures p q m' Cp E).
  - exact (IH Cps H).
Qed.

Lemma extract_location_run (W : World) (q : text)
        (s : self_t) (rt : runtime) :
  exists found rt',
    extract_location W q s rt = (Ok found, s, rt')
    /\ ticks rt' = ticks rt
    /\ http_calls rt' = http_calls rt
    /\ match first_match location_patterns (Text.strip (Text.lower q)) with
       | Some m => found <> None /\ rt' = rt
       | None =>
           llm_calls rt'
           = extractor_request (Text.strip (Text.lower q)) :: llm_calls rt
           /\ forall l, found = Some l -> city l <> []
       end.
Proof.
  unfold extract_location.
  destruct (first_match location_patterns (Text.strip (Text.lower q)))
    as [m|] eqn:E.
  - pose proof (first_match_captures _ _ _ location_patterns_capture E) as G.
    destruct (group1 m) as [g|]; [|congruence].
    do 2 eexists. repeat split. discriminate.
  - unfold try_except, bind, create, lift, ret, extractor_request.
    cbn [ticks llm_calls http_calls].
    destruct (llm W _ _) as [msg|e]; cbn -[sub_empty Text.strip trailing_time].
    + destruct (content0_text msg) as [t|e]; cbn -[sub_empty Text.strip trailing_time].
      * destruct (sub_empty trailing_time (Text.strip t)) as [|c l] eqn:Ec;
          do 2 eexists; repeat split;
          try (intros l' Hl; discriminate Hl).
        intros l' [= <-]. cbn. discriminate.
      * do 2 eexists. repeat split. intros l' Hl. discriminate Hl.
    + do 2 eexists. repeat split. intros l' Hl. discriminate Hl.
Qed.

(** X1.  [extract_location] always returns, and never reads the clock,
    sends a request or writes a field.  When one of the patterns matches,
    the model is not called and the location is the capture, stripped and
    cut by the substitution of line 52.  Otherwise the model is called
    once with the cleaned query, and the location is its reply's text,
    stripped and cut the same way; the result is [None] when the call
    raises, when the reply has no first text block, and when nothing is
    left of the text. *)
Theorem extract_location_returns (W : World) (q : text)
        (s : self_t) (rt : runtime) :
  exists found rt',
    extract_location W q s rt = (Ok found, s, rt')
    /\ ticks rt' = ticks rt
    /\ http_calls rt' = http_calls rt
    /\ match first_match location_patterns (Text.strip (Text.lower q)) with
       | Some m =>
           rt' = rt
           /\ exists g,
                group1 m = Some g
                /\ found
                   = Some {| city := sub_empty trailing_time (Text.strip g) |}
       | None =>
           llm_calls rt'
           = extractor_request (Text.strip (Text.lower q)) :: llm_calls rt
           /\ match llm W (List.length (llm_calls rt))
                        (extractor_request (Text.strip (Text.lower q))) with
              | Ok m =>
                  match content0_text m with
                  | Ok t =>
                      match sub_empty trailing_time (Text.strip t) with
                      | [] => found = None
                      | c :: cs => found = Some {| city := c :: cs |}
                      end
                  | Raise _ => found = None
                  end
              | Raise _ => found = None
              end
       end.
Proof.
  unfold extract_location.
  destruct (first_match location_patterns (Text.strip (Text.lower q)))
    as [m|] eqn:E.
  - pose proof (first_match_captures _ _ _ location_patterns_capture E) as G.
    destruct (group1 m) as [g|]; [|congruence].
    do 2 eexists. repeat split. exists g. split; reflexivity.
  - unfold try_except, bind, create, lift, ret.
    cbn [ticks llm_calls http_calls].
    fold (extractor_request (Text.strip (Text.lower q))).
    destruct (llm W _ _) as [msg|e];
      cbn -[sub_empty Text.strip trailing_time].
    + destruct (content0_text msg) as [t|e];
        cbn -[sub_empty Text.strip trailing_time].
      * destruct (sub_empty trailing_time (Text.strip t)) as [|c l] eqn:Ec;
          do 2 eexists; repeat split.
      * do 2 eexists. repeat split.
    + do 2 eexists. repeat split.
Qed.

End ExtractTotal.

(** ** The two reply generators *)

Module GeneratorFacts.

Import Eff EffFacts WeatherAgent Samples Notions More.

Lemma fallback_line (t : Q) :
  In (nth (Z.to_nat (Py.int t mod Z.of_nat (List.length fallback_responses)))
          fallback_responses [])
     fallback_responses.
Proof.
  apply nth_In.
  change (List.length fallback_responses) with 4.
  pose proof (Z.mod_pos_bound (Py.int t) 4 ltac:(lia)). cbn in *. lia.
Qed.

Lemma non_weather_response_run (W : World) (q : text)
        (s : self_t) (rt : runtime) :
  exists t rt' req,
    generate_non_weather_response W q s rt = (Ok t, s, rt')
    /\ llm_calls rt' = req :: llm_calls rt
    /\ user_content req = ("Off-topic question: " ++ q)%list
    /\ max_tokens req = 50%Z
    /\ http_calls rt' = http_calls rt
    /\ match llm W (List.length (llm_calls rt)) req with
       | Ok m =>
           match content m with
           | [] => In t fallback_responses /\ ticks rt' = S (ticks rt)
           | _ => response_text W m = Ok t /\ ticks rt' = ticks rt
           end
       | Raise _ => In t fallback_responses /\ ticks rt' = S (ticks rt)
       end.
Proof.
  unfold generate_non_weather_response, try_except, bind, create, lift, ret,
    time.
  cbv zeta. cbn [ticks llm_calls http_calls].
  match goal with
  | |- context [llm W ?n ?r] =>
      set (req := r); destruct (llm W n req) as [m|e] eqn:E
  end.
  - unfold response_text, content0. destruct (content m) as [|[x|] bs] eqn:C;
      cbv beta iota; cbn [Py.raise Py.cls any_exception];
      eexists _, _, req; (split; [reflexivity|]); repeat split;
      rewrite E, ?C; cbv beta iota;
      unfold response_text, content0; rewrite ?C;
      (split; [first [apply fallback_line|reflexivity]|reflexivity]).
  - cbv beta iota. cbn [Py.raise Py.cls any_exception].
    eexists _, _, req. split; [reflexivity|]. repeat split.
    rewrite E. split; [apply fallback_line|reflexivity].
Qed.

(** X2.  [generate_non_weather_response] never raises.  It calls the model once;
    the reply's text is returned, and when the call fails or the reply has no
    content block the text is one of the four fixed lines, chosen by the
    clock. *)
Theorem off_topic_reply_never_fails (W : World) (q : text)
        (s : self_t) (rt : runtime) :
  exists t rt' req,
    generate_non_weather_response W q s rt = (Ok t, s, rt')
    /\ llm_calls rt' = req :: llm_calls rt
    /\ user_content req = ("Off-topic question: " ++ q)%list
    /\ max_tokens req = 50%Z
    /\ http_calls rt' = http_calls rt
    /\ match llm W (List.length (llm_calls rt)) req with
       | Ok m =>
           match content m with
           | [] => In t fallback_responses /\ ticks rt' = S (ticks rt)
           | _ => response_text W m = Ok t /\ ticks rt' = ticks rt
           end
       | Raise _ => In t fallback_responses /\ ticks rt' = S (ticks rt)
       end.
Proof. exact (non_weather_response_run W q s rt). Qed.

(** What the formatter returns is a dictionary whose [location], if it has
    one, is a dictionary. *)
Lemma formatted_location (data : dict) (v : value) :
  format_weather_data data = Ok v ->
  exists d l, v = VDict d /\ Py.get "location" (VDict []) d = VDict l.
Proof.
  intro H.
  destruct (FormatFacts.format_weather_data_cases data)
    as [E|[[_ E]|[(v' & B & E)|(e & _ & _ & E)]]]; rewrite E in H;
    try discriminate H; injection H as <-.
  - now exists [item "error" (VStr "Weather data currently unavailable")], [].
  - now exists [item "error" (VStr "Error formatting weather data")], [].
  - unfold format_body in B. repeat FormatFacts.step_result B.
    injection B as <-. eexists _, _. split; reflexivity.
Qed.

Lemma weather_chat_response_run (W : World) (q : text) (data : dict)
        (v : value) (s : self_t) (rt : runtime) :
  format_weather_data data = Ok v ->
  exists t rt' req,
    generate_weather_chat_response W q v s rt = (Ok t, s, rt')
    /\ llm_calls rt' = req :: llm_calls rt
    /\ max_tokens req = 200%Z
    /\ http_calls rt' = http_calls rt
    /\ ticks rt' = ticks rt
    /\ match llm W (List.length (llm_calls rt)) req with
       | Ok m =>
           match content m with
           | [] => exists name, t = ("Well, " ++ name ++ " is keeping me on my toes today... even forecasts have their cloudy moments! ðŸ˜…")%list
           | _ => response_text W m = Ok t
           end
       | Raise _ => exists name, t = ("Well, " ++ name ++ " is keeping me on my toes today... even forecasts have their cloudy moments! ðŸ˜…")%list
       end.
Proof.
  intro H. destruct (formatted_location data v H) as (d & l & -> & L).
  unfold generate_weather_chat_response, try_except, bind, create, lift, ret.
  cbv zeta. rewrite L. cbn [ticks llm_calls http_calls].
  match goal with
  | |- context [llm W ?n ?r] =>
      set (req := r); destruct (llm W n req) as [m|e] eqn:E
  end.
  - unfold response_text, content0. destruct (content m) as [|[x|] bs] eqn:C;
      cbv beta iota; cbn [Py.raise Py.cls any_exception];
      eexists _, _, req; (split; [reflexivity|]); repeat split;
      rewrite E, ?C; cbv beta iota;
      unfold response_text, content0; rewrite ?C;
      first [eexists; reflexivity | reflexivity].
  - cbv beta iota. cbn [Py.raise Py.cls any_exception].
    eexists _, _, req. split; [reflexivity|]. repeat split.
    rewrite E. eexists. reflexivity.
Qed.

(** X3.  On whatever the formatter returned, [generate_weather_chat_response]
    never raises.  It calls the model once; when the call fails or the reply
    has no content block, the text is the fixed line about the location. *)
Theorem chat_reply_never_fails (W : World) (q : text) (data : dict)
        (v : value) (s : self_t) (rt : runtime) :
  format_weather_data data = Ok v ->
  exists t rt' req,
    generate_weather_chat_response W q v s rt = (Ok t, s, rt')
    /\ llm_calls rt' = req :: llm_calls rt
    /\ max_tokens req = 200%Z
    /\ http_calls rt' = http_calls rt
    /\ ticks rt' = ticks rt
    /\ match llm W (List.length (llm_calls rt)) req with
       | Ok m =>
           match content m with
           | [] => exists name, t = ("Well, " ++ name ++ " is keeping me on my toes today... even forecasts have their cloudy moments! ðŸ˜…")%list
           | _ => response_text W m = Ok t
           end
       | Raise _ => exists name, t = ("Well, " ++ name ++ " is keeping me on my toes today... even forecasts have their cloudy moments! ðŸ˜…")%list
       end.
Proof. exact (weather_chat_response_run W q data v s rt). Qed.

(** The unavailable marker has no location: the line is about "your
    area", as [str] renders it. *)
Lemma chat_reply_never_fails_witness :
  exists t rt' req,
    generate_weather_chat_response silent_world "it's so cold today"
                                   unavailable fresh_weather_agent fresh_runtime
    = (Ok t, fresh_weather_agent, rt')
    /\ llm_calls rt' = req :: llm_calls fresh_runtime
    /\ max_tokens req = 200%Z.
Proof.
  destruct (chat_reply_never_fails silent_world "it's so cold today" []
              unavailable fresh_weather_agent fresh_runtime eq_refl)
    as (t & rt' & req & A & B & C & _).
  exists t, rt', req. repeat split; assumption.
Defined.

End GeneratorFacts.

(** ** The weather fetch *)

Module FetchFacts.

Import Eff EffFacts WeatherAgent Samples Notions More.
Local Open Scope Q_scope.

Lemma int_nonneg (x : Q) : 0 <= x -> (0 <= Py.int x)%Z.
Proof.
  intro H. unfold Py.int.
  assert (F : (0 <= Qfloor x)%Z).
  { rewrite <- (Qfloor_Z 0). now apply Qfloor_resp_le. }
  destruct (0 <=? Qnum x)%Z; [exact F|].
  pose proof (Qle_floor_ceiling x) as C. rewrite <- Zle_Qle in C. lia.
Qed.

Lemma get_weather_data_run (W : World) (l : location)
        (s : self_t) (rt : runtime) :
  exists wd ms fb rt',
    get_weather_data W l s rt = (Ok (wd, ms, fb), s, rt')
    /\ (fb = true -> wd = None)
    /\ llm_calls rt' = llm_calls rt
    /\ (http_calls rt' = http_calls rt
        \/ http_calls rt' = Text.strip (city l) :: http_calls rt)
    /\ match Text.strip (city l) with
       | [] => rt' = rt /\ wd = None /\ ms = 0%Z /\ fb = true
       | _ =>
           http_calls rt' = Text.strip (city l) :: http_calls rt
           /\ match http_get W (List.length (http_calls rt))
                             (Text.strip (city l)) (weather_api_key s) with
              | Raise _ => wd = None /\ ms = 0%Z /\ fb = true
              | Ok resp =>
                  if (status_code resp =? 200)%Z
                  then match json_body resp with
                       | Ok d => wd = Some d /\ fb = false
                       | Raise _ => wd = None /\ ms = 0%Z /\ fb = true
                       end
                  else wd = None /\ fb = true
              end
       end.
Proof.
  unfold get_weather_data, try_except.
  destruct (Text.strip (city l)) as [|c cs].
  - cbn. eexists _, _, _, _. split; [reflexivity|].
    repeat split; auto.
  - unfold bind, get_self, time, requests_get, lift, ret.
    cbn [ticks llm_calls http_calls].
    destruct (http_get W _ _ _) as [resp|e].
    + destruct (status_code resp =? 200)%Z.
      * destruct (json_body resp) as [d|e];
          cbn; eexists _, _, _, _; (split; [reflexivity|]);
          repeat split; auto; discriminate.
      * cbn. eexists _, _, _, _. split; [reflexivity|].
        repeat split; auto.
    + cbn. eexists _, _, _, _. split; [reflexivity|].
      repeat split; auto.
Qed.

(** X4.  [get_weather_data] never raises and never writes a field.  It
    calls no model and sends at most one request, none for a city that is
    blank.  Whenever the fallback flag is set there is no payload: for a
    blank city, a request that raises, a status other than 200 and a 200
    whose body is not JSON; in the first, second and last case the time
    reported is 0.  A 200 with a JSON object gives that object with the
    flag off. *)
Theorem fetch_never_raises (W : World) (l : location)
        (s : self_t) (rt : runtime) :
  exists wd ms fb rt',
    get_weather_data W l s rt = (Ok (wd, ms, fb), s, rt')
    /\ (fb = true -> wd = None)
    /\ llm_calls rt' = llm_calls rt
    /\ (http_calls rt' = http_calls rt
        \/ http_calls rt' = Text.strip (city l) :: http_calls rt)
    /\ match Text.strip (city l) with
       | [] => rt' = rt /\ wd = None /\ ms = 0%Z /\ fb = true
       | _ =>
           http_calls rt' = Text.strip (city l) :: http_calls rt
           /\ match http_get W (List.length (http_calls rt))
                             (Text.strip (city l)) (weather_api_key s) with
              | Raise _ => wd = None /\ ms = 0%Z /\ fb = true
              | Ok resp =>
                  if (status_code resp =? 200)%Z
                  then match json_body resp with
                       | Ok d => wd = Some d /\ fb = false
                       | Raise _ => wd = None /\ ms = 0%Z /\ fb = true
                       end
                  else wd = None /\ fb = true
              end
       end.
Proof. exact (get_weather_data_run W l s rt). Qed.

(** X5.  When the provider answers 200 with a JSON object, the payload comes
    back with the fallback flag off; the city sent is the stripped one; the
    time reported is the difference of the two clock readings around the
    request, in whole milliseconds, and is not negative if the clock did not
    go back. *)
Theorem fetch_success (W : World) (l : location) (s : self_t) (rt : runtime)
        (resp : http_response) (d : dict) :
  Text.strip (city l) <> [] ->
  http_get W (List.length (http_calls rt)) (Text.strip (city l))
           (weather_api_key s) = Ok resp ->
  status_code resp = 200%Z ->
  json_body resp = Ok d ->
  get_weather_data W l s rt =
    (Ok (Some d,
         Py.int ((clock W (S (ticks rt)) - clock W (ticks rt)) * 1000),
         false),
     s,
     {| ticks := S (S (ticks rt));
        llm_calls := llm_calls rt;
        http_calls := Text.strip (city l) :: http_calls rt |})
  /\ (clock W (ticks rt) <= clock W (S (ticks rt)) ->
      (0 <= Py.int ((clock W (S (ticks rt)) - clock W (ticks rt)) * 1000))%Z).
Proof.
  intros N H200 Hs Hj. split.
  - unfold get_weather_data, try_except.
    destruct (Text.strip (city l)) as [|c cs]; [congruence|].
    unfold bind, get_self, time, requests_get, lift, ret.
    cbn [ticks llm_calls http_calls]. rewrite H200, Hs, Hj. reflexivity.
  - intro M. apply int_nonneg. apply Qmult_le_0_compat; [lra|discriminate].
Qed.

(** A city written with blanks around it, half a second between the two
    readings. *)
Lemma fetch_success_witness :
  get_weather_data world_with_cities {| city := " Paris " |}
                   fresh_weather_agent fresh_runtime
  = (Ok (Some (sample_payload 20 3), 500%Z, false), fresh_weather_agent,
     {| ticks := 2; llm_calls := [];
        http_calls := [list_ascii_of_string "Paris"] |}).
Proof.
  exact (proj1 (fetch_success world_with_cities {| city := " Paris " |}
                  fresh_weather_agent fresh_runtime
                  {| status_code := 200;
                     json_body := Ok (sample_payload 20 3);
                     body_text := [] |}
                  (sample_payload 20 3)
                  ltac:(discriminate) eq_refl eq_refl eq_refl)).
Defined.

End FetchFacts.

(** ** Token accounting *)

Module UsageFacts.

Import Samples Notions More.

(** X6.  In both agents [billable_tokens] equals [total_tokens].  With both token
    counts reported, the total is their sum and no estimation is flagged;
    otherwise the counts are [None], the estimation is flagged as a word
    count, and the total is the agent's estimate of [str(content)]: the
    number of words in the weather agent, a quarter of the characters (at
    least 1) in the language agent. *)
Theorem token_usage_accounts (W : World) (m : message) :
  (let u := WeatherAgent.calculate_token_usage W m in
   Py.path (texts ["billable_tokens"]) u = Py.path (texts ["total_tokens"]) u
   /\ match usage m with
      | Some {| input_tokens := Some i; output_tokens := Some o |} =>
          Py.path (texts ["total_tokens"]) u = Some (VNum (inject_Z (i + o)))
          /\ Py.path (texts ["input_tokens"]) u = Some (VNum (inject_Z i))
          /\ Py.path (texts ["output_tokens"]) u = Some (VNum (inject_Z o))
          /\ Py.path (texts ["estimation_method"]) u = None
      | _ =>
          Py.path (texts ["total_tokens"]) u
          = Some (VNum (inject_Z (Z.of_nat (List.length
                     (Text.split (str_content W (content m)))))))
          /\ Py.path (texts ["input_tokens"]) u = Some VNone
          /\ Py.path (texts ["output_tokens"]) u = Some VNone
          /\ Py.path (texts ["estimation_method"]) u
             = Some (VStr "word_count_approximation")
      end)
  /\ (let u := LanguageAgent.calculate_token_usage W m in
      Py.path (texts ["billable_tokens"]) u = Py.path (texts ["total_tokens"]) u
      /\ match usage m with
         | Some {| input_tokens := Some i; output_tokens := Some o |} =>
             Py.path (texts ["total_tokens"]) u
             = Some (VNum (inject_Z (i + o)))
             /\ Py.path (texts ["estimation_method"]) u = None
         | _ =>
             Py.path (texts ["total_tokens"]) u
             = Some (VNum (inject_Z
                       (Z.max 1 (Text.len (str_content W (content m)) / 4))))
             /\ Py.path (texts ["input_tokens"]) u = Some VNone
             /\ Py.path (texts ["estimation_method"]) u
                = Some (VStr "word_count_approximation")
         end).
Proof.
  unfold WeatherAgent.calculate_token_usage,
    LanguageAgent.calculate_token_usage.
  destruct (usage m) as [[[i|] [o|]]|]; cbv zeta; repeat split.
Qed.

End UsageFacts.

(** ** Routes of the weather agent's [process_query] *)

Module QueryFacts.

Import Eff EffFacts WeatherAgent Samples Notions More.
Import WeatherFacts.

(** The off-topic reply always comes back. *)
Lemma off_topic_run (W : World) (q : text) (t0 : Q)
      (s : self_t) (rt : runtime) :
  exists env s' rt' req,
    off_topic W q t0 s rt = (Ok env, s', rt')
    /\ llm_calls rt' = req :: llm_calls rt
    /\ http_calls rt' = http_calls rt
    /\ Py.path (texts ["usage"; "total_tokens"]) env = Some (VNum 0)
    /\ Py.path (texts ["response"; "fallback_used"]) env = Some (VBool false)
    /\ Py.path (texts ["query"; "extracted_location"]) env = Some VNone.
Proof.
  unfold off_topic, bind. rewrite update_rate_limit_run.
  unfold request_id, now_isoformat, elapsed_ms, bind, time, ret.
  cbn [ticks llm_calls http_calls].
  match goal with
  | |- context [generate_non_weather_response W q ?s1 ?rt1] =>
      destruct (GeneratorFacts.non_weather_response_run W q s1 rt1)
        as (t & rt' & req & E & L & _ & _ & H & _)
  end.
  rewrite E. cbn [llm_calls http_calls] in L, H.
  eexists _, _, _, req. split; [reflexivity|]. repeat split; assumption.
Qed.

(** X7.  A query that is neither a direct weather question nor weather-related
    always gets the off-topic envelope: no weather data, no token usage, no
    fallback flagged, no location.  One model call is made for it, no
    request is sent to the provider, the counter is updated once and the
    last location stays. *)
Theorem off_topic_query_is_answered (W : World) (q : text)
        (s : self_t) (rt : runtime) :
  is_weather_query q || is_weather_related q = false ->
  exists env s' rt' req,
    process_query W q s rt = (Ok env, s', rt')
    /\ Py.path (texts ["response"; "type"]) env
       = Some (VStr "off_topic_response")
    /\ Py.path (texts ["usage"; "total_tokens"]) env = Some (VNum 0)
    /\ Py.path (texts ["response"; "fallback_used"]) env = Some (VBool false)
    /\ Py.path (texts ["weather_data"]) env = None
    /\ Py.path (texts ["error"]) env = None
    /\ Py.path (texts ["query"; "extracted_location"]) env = Some VNone
    /\ llm_calls rt' = req :: llm_calls rt
    /\ http_calls rt' = http_calls rt
    /\ last_location s' = last_location s
    /\ updated_once W s s'.
Proof.
  intro H. unfold process_query, bind at 1, time.
  rewrite H. cbn [negb]. fold (ticked rt).
  destruct (off_topic_run W q (clock W (ticks rt)) s (ticked rt))
    as (env & s' & rt' & req & E & L & Hh & U0 & F & X).
  destruct (off_topic_effect _ _ _ _ _ _ _ _ E) as (Ll & U & K).
  destruct (K env eq_refl) as (_ & Wd & Er & T).
  exists env, s', rt', req. repeat split; assumption.
Qed.

Lemma off_topic_query_is_answered_witness :
  exists env s' rt' req,
    process_query silent_world "what is the capital of France"
                  fresh_weather_agent fresh_runtime = (Ok env, s', rt')
    /\ Py.path (texts ["response"; "type"]) env
       = Some (VStr "off_topic_response")
    /\ llm_calls rt' = [req]
    /\ http_calls rt' = [].
Proof.
  destruct (off_topic_query_is_answered
              silent_world "what is the capital of France"
              fresh_weather_agent fresh_runtime eq_refl)
    as (env & s' & rt' & req & E & T & _ & _ & _ & _ & _ & L & H & _).
  exists env, s', rt', req. repeat split; assumption.
Defined.

(** X8.  The envelope's type follows the two classifiers: a direct query gets
    the weather report or the location error; a related query that is not
    direct gets the chat; any other query gets the off-topic reply. *)
Theorem envelope_type_follows_classification
        (W : World) (q : text) (s s' : self_t) (rt rt' : runtime)
        (env : value) :
  process_query W q s rt = (Ok env, s', rt') ->
  match is_weather_query q, is_weather_related q with
  | true, _ =>
      env = location_error
      \/ Py.path (texts ["response"; "type"]) env
         = Some (VStr "weather_report")
  | false, true =>
      Py.path (texts ["response"; "type"]) env = Some (VStr "weather_chat")
  | false, false =>
      Py.path (texts ["response"; "type"]) env
      = Some (VStr "off_topic_response")
  end.
Proof.
  intro H. apply process_query_route in H.
  destruct H as [Hq H|e Hq E Hr Hs|Hq E Hr Hs|l rt1 Hq E H
                 |last rt1 D C E L H|rt1 D C E L H].
  - apply orb_false_iff in Hq as [-> ->].
    apply off_topic_effect in H as (_ & _ & K).
    now destruct (K env eq_refl) as (_ & _ & _ & T).
  - discriminate Hr.
  - rewrite Hq. left. now injection Hr.
  - apply answer_effect in H as (_ & _ & K).
    destruct (K env eq_refl) as (_ & _ & _ & _ & _ & T).
    destruct (is_weather_query q), (is_weather_related q);
      try discriminate Hq; cbn [andb negb] in T; auto. now destruct T.
  - rewrite D, C. apply answer_effect in H as (_ & _ & K).
    destruct (K env eq_refl) as (_ & _ & _ & _ & _ & T). now destruct T.
  - rewrite D, C. apply answer_effect in H as (_ & _ & K).
    destruct (K env eq_refl) as (_ & _ & _ & _ & _ & T). now destruct T.
Qed.

Lemma envelope_type_follows_classification_witness :
  field ["response"; "type"]
        (envelope_of world_without_cities "it's so cold today")
  = Some (VStr "weather_chat").
Proof.
  exact (envelope_type_follows_classification
           world_without_cities "it's so cold today"
           fresh_weather_agent
           (agent_after world_without_cities "it's so cold today")
           fresh_runtime
           (runtime_after world_without_cities "it's so cold today")
           (match envelope_of world_without_cities "it's so cold today" with
            | Some env => env
            | None => VNone
            end)
           eq_refl).
Defined.

(** X9.  The last location changes only by caching what the extractor found,
    which happens even when the query then fails; once there is a last
    location there always is one. *)
Theorem last_location_only_grows
        (W : World) (q : text) (s s' : self_t) (rt rt' : runtime)
        (r : Result value) :
  process_query W q s rt = (r, s', rt') ->
  (last_location s' = last_location s
   \/ exists l rt1,
        extract_location W q s (ticked rt) = (Ok (Some l), s, rt1)
        /\ last_location s' = Some l)
  /\ (last_location s <> None -> last_location s' <> None).
Proof.
  intro H. apply process_query_route in H.
  destruct H as [Hq H|e Hq E Hr Hs|Hq E Hr Hs|l rt1 Hq E H
                 |last rt1 D C E L H|rt1 D C E L H].
  - apply off_topic_effect in H as (L & _). rewrite L. auto.
  - subst. auto.
  - subst. auto.
  - apply answer_effect in H as (L & _). cbn in L. split.
    + right. now exists l, rt1.
    + intros _. rewrite L. discriminate.
  - apply answer_effect in H as (L' & _). rewrite L'. auto.
  - apply answer_effect in H as (L' & _). rewrite L'. auto.
Qed.

(** The city is cached although the model then fails to write the
    report. *)
Lemma last_location_only_grows_witness :
  fst (fst (process_query silent_world "weather in Paris"
                          fresh_weather_agent fresh_runtime))
  = Py.raise Py.OtherError "connection error"
  /\ last_location (agent_after silent_world "weather in Paris")
     = Some {| city := "paris" |}.
Proof.
  split; [reflexivity|].
  destruct (last_location_only_grows
              silent_world "weather in Paris" fresh_weather_agent
              (agent_after silent_world "weather in Paris")
              fresh_runtime
              (runtime_after silent_world "weather in Paris")
              (fst (fst (process_query silent_world "weather in Paris"
                                       fresh_weather_agent fresh_runtime)))
              eq_refl) as [[A|(l & rt1 & E & A)] _].
  - vm_compute in A. discriminate A.
  - rewrite A. vm_compute in E. now injection E as <- _.
Defined.

Lemma request_id_returns (W : World) (q : text) (s s' : self_t)
      (rt rt' : runtime) (r : Result value) :
  request_id W q s rt = (r, s', rt') -> exists v, r = Ok v.
Proof.
  unfold request_id, bind, time, ret. intros [= <- _ _]. eauto.
Qed.

Lemma now_isoformat_returns (W : World) (s s' : self_t)
      (rt rt' : runtime) (r : Result text) :
  now_isoformat W s rt = (r, s', rt') -> exists v, r = Ok v.
Proof.
  unfold now_isoformat, bind, time, ret. intros [= <- _ _]. eauto.
Qed.

(** In the chat, nothing raises once the counter is updated: an exception
    leaves the agent as it was. *)
Lemma weather_chat_raise (W : World) (q : text) (t0 : Q) (l : location)
      (data : dict) (fw : value) (art : Z) (fb : bool)
      (s s' : self_t) (rt rt' : runtime) (r : Result value) (e : Py.exn) :
  format_weather_data data = Ok fw ->
  weather_chat W q t0 l fw art fb s rt = (r, s', rt') ->
  r = Raise e -> s' = s.
Proof.
  unfold weather_chat. intros F H Hr.
  bind_step H msg; [|reflexivity].
  bind_step H ms; [|reflexivity].
  apply bind_inv in H as [(rl & sU & rtU & EU & H)|(eU & EU & ->)];
    apply update_rate_limit_inv in EU as (rl' & Erl & -> & U);
    [|discriminate Erl].
  apply bind_inv in H as [(rid & sI & rtI & EI & H)|(eI & EI & _)];
    [|apply request_id_returns in EI as (v & Ev); discriminate Ev].
  apply bind_inv in H as [(ts & sT & rtT & ET & H)|(eT & ET & _)];
    [|apply now_isoformat_returns in ET as (v & Ev); discriminate Ev].
  apply bind_inv in H as [(reply & sR & rtR & ER & H)|(eR & ER & _)].
  - apply bind_inv in H as [(self & sG & rtG & EG & H)|(eG & EG & _)].
    + unfold ret in H. injection H as <- _ _. discriminate Hr.
    + discriminate EG.
  - match type of ER with
    | generate_weather_chat_response W q fw ?s1 ?rt1 = _ =>
        destruct (GeneratorFacts.weather_chat_response_run
                    W q data fw s1 rt1 F) as (tW & rtW & reqW & EW & _)
    end.
    rewrite EW in ER. discriminate ER.
Qed.

(** X10.  For a query that is not a direct weather question, an exception never
    costs budget: if [process_query] raises, the query was weather-related
    and the counter is as it was. *)
Theorem chat_exception_costs_nothing
        (W : World) (q : text) (s s' : self_t) (rt rt' : runtime)
        (e : Py.exn) :
  is_weather_query q = false ->
  process_query W q s rt = (Raise e, s', rt') ->
  is_weather_related q = true /\ rate_limit s' = rate_limit s.
Proof.
  intros D H. apply process_query_route in H.
  assert (A : forall l s0 rt1 r,
             answer W q (clock W (ticks rt)) false true l s0 rt1 = (r, s', rt')
             -> r = Raise e -> s' = s0).
  { intros l s0 rt1 r Ha Hr. unfold answer in Ha.
    apply bind_inv in Ha as [([[wd art] fb] & s1 & rt2 & E & Ha)|(e1 & E & _)];
      pose proof (run_frames _ _ _ _ _ _ E (frames_get_weather_data W l));
      subst; [|reflexivity].
    apply bind_inv in Ha as [(fw & s1 & rt3 & Ef & Ha)|(e1 & Ef & _)];
      unfold lift in Ef; injection Ef as Ef <- <-; [|reflexivity].
    cbn [andb negb] in Ha.
    exact (weather_chat_raise _ _ _ _ _ _ _ _ _ _ _ _ _ e Ef Ha eq_refl). }
  destruct H as [Hq H|e1 Hq E Hr Hs|Hq E Hr Hs|l rt1 Hq E H
                 |last rt1 D' C E L H|rt1 D' C E L H].
  - destruct (off_topic_run W q (clock W (ticks rt)) s (ticked rt))
      as (env & s1 & rt1 & req & E & _). rewrite E in H. discriminate H.
  - subst. rewrite D in Hq. cbn [orb] in Hq. auto.
  - discriminate Hr.
  - rewrite D in Hq, H. cbn [orb] in Hq. rewrite Hq in H. split; [exact Hq|].
    now rewrite (A _ _ _ _ H eq_refl).
  - split; [exact C|]. now rewrite (A _ _ _ _ H eq_refl).
  - split; [exact C|]. now rewrite (A _ _ _ _ H eq_refl).
Qed.

(** A chat that the model does not answer. *)
Lemma chat_exception_costs_nothing_witness :
  is_weather_related "it's so cold today" = true
  /\ rate_limit (agent_after silent_world "it's so cold today")
     = rate_limit fresh_weather_agent.
Proof.
  apply (chat_exception_costs_nothing
           silent_world "it's so cold today" fresh_weather_agent
           (agent_after silent_world "it's so cold today")
           fresh_runtime
           (runtime_after silent_world "it's so cold today")
           {| Py.cls := Py.OtherError; Py.msg := "connection error" |}).
  - reflexivity.
  - vm_compute. reflexivity.
Defined.

End QueryFacts.

(** ** The budget *)

Module BudgetFacts.

Import Eff EffFacts WeatherAgent Samples Notions More.
Import RateLimit.

Lemma int_above (x : Q) (z : Z) :
  (inject_Z z <= x)%Q -> (z <= Py.int x)%Z.
Proof.
  intro H. unfold Py.int.
  assert (F : (z <= Qfloor x)%Z).
  { rewrite <- (Qfloor_Z z). now apply Qfloor_resp_le. }
  destruct (0 <=? Qnum x)%Z; [exact F|].
  pose proof (Qle_floor_ceiling x) as C. rewrite <- Zle_Qle in C. lia.
Qed.

(** One call: [limit] stays, [remaining] stays within it and loses at most
    one, and under a clock that does not go back [reset_at] does not
    either. *)
Lemma update_keeps_budget (clk : nat -> Q) (rl : t) (tick : nat) :
  (remaining rl <= limit rl)%Z ->
  limit (fst (update_rate_limit clk rl tick)) = limit rl
  /\ (remaining (fst (update_rate_limit clk rl tick)) <= limit rl)%Z
  /\ (remaining rl - 1 <= remaining (fst (update_rate_limit clk rl tick)))%Z
  /\ (tick <= snd (update_rate_limit clk rl tick) <= tick + 2)%nat
  /\ ((forall i j, (i <= j)%nat -> (clk i <= clk j)%Q) ->
      (reset_at rl <= reset_at (fst (update_rate_limit clk rl tick)))%Z).
Proof.
  intro H. unfold update_rate_limit. cbn [limit remaining reset_at].
  destruct (remaining rl - 1 <=? 0)%Z eqn:E0.
  - destruct (Qle_bool (inject_Z (reset_at rl)) (clk tick)) eqn:Et;
      cbn [fst snd limit remaining reset_at]; repeat split; try lia.
    intro M. apply Qle_bool_iff in Et.
    assert (inject_Z (reset_at rl) <= clk (S tick))%Q as Hle.
    { apply Qle_trans with (clk tick); [exact Et|]. apply M. lia. }
    apply int_above in Hle. lia.
  - cbn [fst snd limit remaining reset_at]. repeat split; lia.
Qed.

(** X11.  Any number of calls in a row, in either agent: [limit] never changes,
    [remaining] never exceeds it, [n] calls cost at most [n], the clock is
    read at most twice per call, and under a clock that does not go back
    [reset_at] never moves back. *)
Theorem budget_is_kept (clk : nat -> Q) (n : nat) (rl : t) (tick : nat) :
  (remaining rl <= limit rl)%Z ->
  limit (fst (calls clk n rl tick)) = limit rl
  /\ (remaining (fst (calls clk n rl tick)) <= limit rl)%Z
  /\ (remaining rl - Z.of_nat n <= remaining (fst (calls clk n rl tick)))%Z
  /\ (tick <= snd (calls clk n rl tick) <= tick + 2 * n)%nat
  /\ ((forall i j, (i <= j)%nat -> (clk i <= clk j)%Q) ->
      (reset_at rl <= reset_at (fst (calls clk n rl tick)))%Z).
Proof.
  revert rl tick. induction n as [|n IH]; intros rl tick H.
  - cbn. repeat split; lia.
  - cbn [calls].
    destruct (update_keeps_budget clk rl tick H) as (L & R & D & T & A).
    destruct (update_rate_limit clk rl tick) as [rl1 tick1].
    cbn [fst snd] in L, R, D, T, A.
    destruct (IH rl1 tick1) as (L' & R' & D' & T' & A'); [lia|].
    repeat split; try lia. intro M. specialize (A M). specialize (A' M). lia.
Qed.

(** A budget of two under a clock that advances by 2000 seconds per
    reading: the second call refills. *)
Lemma budget_is_kept_witness :
  calls (fun i => inject_Z (2000 * Z.of_nat i)) 2
        {| limit := 2; remaining := 2; reset_at := 3600 |} 0
  = ({| limit := 2; remaining := 0; reset_at := 3600 |}, 1%nat)
  /\ (remaining
        (fst (calls (fun i => inject_Z (2000 * Z.of_nat i)) 5
                    {| limit := 2; remaining := 2; reset_at := 3600 |} 0))
      <= 2)%Z.
Proof.
  split; [reflexivity|].
  destruct (budget_is_kept (fun i => inject_Z (2000 * Z.of_nat i)) 5
              {| limit := 2; remaining := 2; reset_at := 3600 |} 0)
    as (_ & R & _).
  - cbn. lia.
  - exact R.
Defined.

End BudgetFacts.

(** ** Outbound calls *)

Module CallFacts.

Import Eff EffFacts WeatherAgent Samples Notions More.
Import WeatherFacts.

Section Spends.
Context {Self : Type}.

Lemma spends_weaken {A} (a b a' b' : nat) (m : Eff.M Self A) :
  spends a b m -> a <= a' -> b <= b' -> spends a' b' m.
Proof.
  intros H Ha Hb s rt. destruct (H s rt) as (l & h & ? & ? & ? & ?).
  exists l, h. repeat split; try assumption; lia.
Qed.

Lemma spends_nothing {A} (a b : nat) (m : Eff.M Self A) :
  (forall s rt, llm_calls (snd (m s rt)) = llm_calls rt
                /\ http_calls (snd (m s rt)) = http_calls rt) ->
  spends a b m.
Proof.
  intros H s rt. destruct (H s rt) as [L Hh].
  exists [], []. cbn. repeat split; try assumption; lia.
Qed.

Lemma spends_ret {A} (a b : nat) (x : A) : spends a b (ret x : Eff.M Self A).
Proof. now apply spends_nothing. Qed.

Lemma spends_lift {A} (a b : nat) (r : Result A) :
  spends a b (lift r : Eff.M Self A).
Proof. now apply spends_nothing. Qed.

Lemma spends_get_self (a b : nat) : spends a b (get_self : Eff.M Self Self).
Proof. now apply spends_nothing. Qed.

Lemma spends_put_self (a b : nat) (s : Self) :
  spends a b (put_self s : Eff.M Self unit).
Proof. now apply spends_nothing. Qed.

Lemma spends_time (W : World) (a b : nat) : spends a b (time W : Eff.M Self Q).
Proof. now apply spends_nothing. Qed.

Lemma spends_now_isoformat (W : World) (a b : nat) :
  spends a b (now_isoformat W : Eff.M Self text).
Proof. now apply spends_nothing. Qed.

Lemma spends_create (W : World) (a b : nat) (req : llm_request) :
  spends (S a) b (create W req : Eff.M Self message).
Proof.
  intros s rt. exists [req], []. cbn. repeat split; lia.
Qed.

Lemma spends_requests_get (W : World) (a b : nat) (city key : text) :
  spends a (S b) (requests_get W city key : Eff.M Self http_response).
Proof.
  intros s rt. exists [], [city]. cbn. repeat split; lia.
Qed.

(** A sequence spends what its two parts spend. *)
Lemma spends_bind {A B} (a1 b1 a b : nat) (m : Eff.M Self A) (k : A -> Eff.M Self B) :
  spends a1 b1 m -> a1 <= a -> b1 <= b ->
  (forall x, spends (a - a1) (b - b1) (k x)) ->
  spends a b (bind m k).
Proof.
  intros Hm Ha Hb Hk s rt. unfold bind.
  destruct (Hm s rt) as (l1 & h1 & L1 & N1 & H1 & M1).
  destruct (m s rt) as [[[x|e] s1] rt1]; cbn [snd] in L1, H1.
  - destruct (Hk x s1 rt1) as (l2 & h2 & L2 & N2 & H2 & M2).
    exists (l2 ++ l1), (h2 ++ h1). rewrite L2, H2, L1, H1, !app_assoc, !length_app.
    repeat split; lia.
  - exists l1, h1. cbn [snd]. repeat split; try assumption; lia.
Qed.

Lemma spends_try_except {A} (a1 b1 a b : nat) (m : Eff.M Self A)
      (caught : Py.exn_class -> bool) (handler : Py.exn -> Eff.M Self A) :
  spends a1 b1 m -> a1 <= a -> b1 <= b ->
  (forall e, spends (a - a1) (b - b1) (handler e)) ->
  spends a b (try_except m caught handler).
Proof.
  intros Hm Ha Hb Hk s rt. unfold try_except.
  destruct (Hm s rt) as (l1 & h1 & L1 & N1 & H1 & M1).
  destruct (m s rt) as [[[x|e] s1] rt1]; cbn [snd] in L1, H1.
  - exists l1, h1. cbn [snd]. repeat split; try assumption; lia.
  - destruct (caught (Py.cls e)).
    + destruct (Hk e s1 rt1) as (l2 & h2 & L2 & N2 & H2 & M2).
      exists (l2 ++ l1), (h2 ++ h1).
      rewrite L2, H2, L1, H1, !app_assoc, !length_app. repeat split; lia.
    + exists l1, h1. cbn [snd]. repeat split; try assumption; lia.
Qed.

End Spends.

(** Steps that call nobody. *)
Ltac quiet :=
  repeat first
    [ apply spends_ret | apply spends_lift | apply spends_get_self
    | apply spends_put_self | apply spends_time | apply spends_now_isoformat
    | apply (spends_bind 0 0); [ | lia | lia | intro ]
    | match goal with
      | |- spends _ _ (if ?c then _ else _) => destruct c
      | |- spends _ _ (match ?x with _ => _ end) => destruct x
      end ].

Lemma spends_update_rate_limit (W : World) (a b : nat) :
  spends a b (update_rate_limit W).
Proof.
  apply spends_nothing. intros s rt. now rewrite update_rate_limit_run.
Qed.

Lemma spends_request_id (W : World) (q : text) (a b : nat) :
  spends a b (request_id W q).
Proof. unfold request_id. quiet. Qed.

Lemma spends_elapsed_ms (W : World) (t : Q) (a b : nat) :
  spends a b (elapsed_ms W t).
Proof. unfold elapsed_ms. quiet. Qed.

Lemma spends_calculate_confidence_score (W : World) (wd : option dict)
      (m : message) (t : Z) (a b : nat) :
  spends a b (calculate_confidence_score W wd m t).
Proof. unfold calculate_confidence_score. quiet. Qed.

Lemma spends_extract_location (W : World) (q : text) (a b : nat) :
  spends (S a) b (extract_location W q).
Proof.
  intros s rt.
  destruct (ExtractTotal.extract_location_run W q s rt)
    as (found & rt' & E & _ & H & K).
  rewrite E. cbn [snd].
  destruct (first_match location_patterns (Text.strip (Text.lower q))).
  - destruct K as [_ ->]. exists [], []. cbn. repeat split; lia.
  - destruct K as [L _]. eexists [_], []. rewrite L, H. cbn.
    repeat split; lia.
Qed.

Lemma spends_get_weather_data (W : World) (l : location) (a b : nat) :
  spends a (S b) (get_weather_data W l).
Proof.
  intros s rt.
  destruct (FetchFacts.get_weather_data_run W l s rt)
    as (wd & ms & fb & rt' & E & _ & L & [H|H] & _); rewrite E; cbn [snd].
  - exists [], []. cbn. repeat split; try assumption; lia.
  - eexists [], [_]. rewrite L, H. cbn. repeat split; lia.
Qed.

Lemma spends_generate_non_weather_response (W : World) (q : text)
      (a b : nat) :
  spends (S a) b (generate_non_weather_response W q).
Proof.
  intros s rt.
  destruct (GeneratorFacts.non_weather_response_run W q s rt)
    as (t & rt' & req & E & L & _ & _ & H & _).
  rewrite E. cbn [snd]. exists [req], []. rewrite L, H. cbn.
  repeat split; lia.
Qed.

Lemma spends_generate_weather_chat_response (W : World) (q : text)
      (v : value) (a b : nat) :
  spends (S a) b (generate_weather_chat_response W q v).
Proof.
  unfold generate_weather_chat_response. cbv zeta.
  apply (spends_bind 0 0); [apply spends_lift|lia|lia|intro loc].
  apply (spends_bind 0 0); [apply spends_lift|lia|lia|intro name].
  apply (spends_try_except 1 0); [|lia|lia|intro; apply spends_ret].
  apply (spends_bind 1 0); [apply spends_create|lia|lia|intro].
  apply spends_lift.
Qed.

Lemma spends_off_topic (W : World) (q : text) (t0 : Q) (a b : nat) :
  spends (S a) b (off_topic W q t0).
Proof.
  unfold off_topic.
  apply (spends_bind 0 0); [apply spends_update_rate_limit|lia|lia|intro].
  apply (spends_bind 0 0); [apply spends_request_id|lia|lia|intro].
  apply (spends_bind 0 0); [apply spends_now_isoformat|lia|lia|intro].
  apply (spends_bind 0 0); [apply spends_elapsed_ms|lia|lia|intro].
  apply (spends_bind 1 0);
    [apply spends_generate_non_weather_response|lia|lia|intro].
  apply spends_ret.
Qed.

Lemma spends_weather_chat (W : World) (q : text) (t0 : Q) (l : location)
      (fw : value) (art : Z) (fb : bool) (a b : nat) :
  spends (S (S a)) b (weather_chat W q t0 l fw art fb).
Proof.
  unfold weather_chat.
  apply (spends_bind 1 0); [apply spends_create|lia|lia|intro].
  apply (spends_bind 0 0); [apply spends_elapsed_ms|lia|lia|intro].
  apply (spends_bind 0 0); [apply spends_update_rate_limit|lia|lia|intro].
  apply (spends_bind 0 0); [apply spends_request_id|lia|lia|intro].
  apply (spends_bind 0 0); [apply spends_now_isoformat|lia|lia|intro].
  apply (spends_bind 1 0);
    [apply spends_generate_weather_chat_response|lia|lia|intro].
  quiet.
Qed.

Lemma spends_weather_report (W : World) (q : text) (t0 : Q) (l : location)
      (wd : option dict) (fw : value) (art : Z) (fb : bool) (a b : nat) :
  spends (S a) b (weather_report W q t0 l wd fw art fb).
Proof.
  unfold weather_report.
  apply (spends_bind 1 0); [apply spends_create|lia|lia|intro].
  apply (spends_bind 0 0); [apply spends_elapsed_ms|lia|lia|intro].
  apply (spends_bind 0 0); [quiet|lia|lia|intro].
  apply (spends_bind 0 0);
    [apply spends_calculate_confidence_score|lia|lia|intro].
  apply (spends_bind 0 0); [apply spends_update_rate_limit|lia|lia|intro].
  apply (spends_bind 0 0); [apply spends_lift|lia|lia|intro].
  apply (spends_bind 0 0); [apply spends_request_id|lia|lia|intro].
  quiet.
Qed.

Lemma spends_answer (W : World) (q : text) (t0 : Q) (direct chat : bool)
      (l : location) (a b : nat) :
  spends (if chat && negb direct then S (S a) else S a) (S b)
         (answer W q t0 direct chat l).
Proof.
  unfold answer.
  apply (spends_bind 0 1); [apply spends_get_weather_data|lia|lia|].
  intros [[wd art] fb].
  apply (spends_bind 0 0); [apply spends_lift|lia|lia|intro fw].
  destruct (chat && negb direct).
  - eapply spends_weaken; [apply (spends_weather_chat _ _ _ _ _ _ _ a b)|lia|lia].
  - eapply spends_weaken; [apply (spends_weather_report _ _ _ _ _ _ _ _ a b)|lia|lia].
Qed.

(** X12.  One query costs at most three model calls and one request to the
    provider, which are logged in front of the earlier ones; a direct
    weather query costs at most two model calls, and a query that is neither
    direct nor weather-related one model call and no request. *)
Theorem process_query_call_budget (W : World) (q : text) :
  spends (if is_weather_query q then 2
          else if is_weather_related q then 3 else 1)
         (if is_weather_query q || is_weather_related q then 1 else 0)
         (process_query W q)
  /\ spends 3 1 (process_query W q).
Proof.
  assert (H : spends (if is_weather_query q then 2
                      else if is_weather_related q then 3 else 1)
                     (if is_weather_query q || is_weather_related q
                      then 1 else 0)
                     (process_query W q)).
  { unfold process_query.
    apply (spends_bind 0 0); [apply spends_time|lia|lia|intro t0].
    destruct (is_weather_query q) eqn:D, (is_weather_related q) eqn:C;
      cbn [orb negb andb Nat.sub].
    4:{ apply spends_off_topic. }
    all: apply (spends_bind 1 0); [apply spends_extract_location|lia|lia|];
      intro found; cbn [Nat.sub].
    all: apply (spends_bind 0 0); [apply spends_get_self|lia|lia|];
      intro self; cbn [Nat.sub].
    all: destruct found as [l|], (last_location self) as [last|];
      try apply spends_ret;
      try (apply (spends_bind 0 0); [apply spends_put_self|lia|lia|];
           intro; cbn [Nat.sub]).
    all: eapply spends_weaken; [apply (spends_answer _ _ _ _ _ _ 0 0)|..];
      cbn; lia. }
  split; [exact H|].
  eapply spends_weaken; [exact H|..];
    destruct (is_weather_query q), (is_weather_related q); cbn; lia.
Qed.

End CallFacts.

(** ** The language agent's [process_query] *)

Module LanguageQueryFacts.

Import Eff LanguageAgent Samples More.

(** Every way [process_query] can end. *)
Lemma language_query_run (W : World) (user_input language : text)
      (s : self_t) (rt : runtime) :
  exists v s' rt',
    process_query W user_input language s rt = (Ok v, s', rt')
    /\ http_calls rt' = http_calls rt
    /\ if validate_input_length user_input
       then
         llm_calls rt' = language_request language user_input :: llm_calls rt
         /\ match llm W (List.length (llm_calls rt))
                      (language_request language user_input) with
            | Raise e =>
                s' = s
                /\ v = error_value (Py.msg e)
                                   (isoformat W (clock W (S (ticks rt))))
            | Ok m =>
                s' = counted W s (S (S (ticks rt)))
                /\ match response_text W m with
                   | Raise e =>
                       exists timestamp, v = error_value (Py.msg e) timestamp
                   | Ok t =>
                       Py.keys v = texts ["meta"; "rate_limit"; "response";
                                          "usage"; "query"]
                       /\ Py.path (texts ["response"; "text"]) v
                          = Some (VStr t)
                       /\ Py.path (texts ["response"; "language"]) v
                          = Some (VStr language)
                       /\ Py.path (texts ["query"; "text"]) v
                          = Some (VStr user_input)
                       /\ Py.path (texts ["usage"]) v
                          = Some (calculate_token_usage W m)
                       /\ Py.path (texts ["rate_limit"; "remaining"]) v
                          = Some (VNum (inject_Z (RateLimit.remaining
                                                    (rate_limit s'))))
                   end
            end
       else
         s' = s /\ llm_calls rt' = llm_calls rt
         /\ v = error_value "Input text must be between 1 and 200000 tokens"
                            (isoformat W (clock W (S (ticks rt)))).
Proof.
  destruct (validate_input_length user_input) eqn:V.
  - unfold process_query, try_except, bind, time. rewrite V. cbn [negb].
    unfold create at 1. cbn [ticks llm_calls http_calls].
    fold (language_request language user_input).
    destruct (llm W _ _) as [m|e].
    + rewrite LanguageAgentFacts.language_update_rate_limit_run.
      cbn [rate_limit].
      unfold lift. destruct (response_text W m) as [t|e].
      * cbn. do 3 eexists. split; [reflexivity|].
        repeat split; reflexivity.
      * cbn. do 3 eexists. split; [reflexivity|].
        repeat split; try reflexivity. eexists. reflexivity.
    + cbn. do 3 eexists. split; [reflexivity|]. repeat split; reflexivity.
  - rewrite (LanguageAgentFacts.process_query_rejects W _ _ _ _ V).
    do 3 eexists. split; [reflexivity|]. repeat split; reflexivity.
Qed.

(** X13.  The language agent answers every request with a dictionary and never
    raises: the dictionary is an error envelope (keys [error], [meta]) or a
    reply envelope (keys [meta], [rate_limit], [response], [usage],
    [query]); at most one model call is made and no HTTP request; a request
    that did not reach the model leaves the agent as it was; the limit of
    the counter never changes. *)
Theorem language_query_never_raises (W : World) (user_input language : text)
        (s : self_t) (rt : runtime) :
  exists v s' rt',
    process_query W user_input language s rt = (Ok v, s', rt')
    /\ http_calls rt' = http_calls rt
    /\ (llm_calls rt' = llm_calls rt
        \/ exists req, llm_calls rt' = req :: llm_calls rt)
    /\ (Py.keys v = texts ["error"; "meta"]
        \/ Py.keys v = texts ["meta"; "rate_limit"; "response"; "usage";
                              "query"])
    /\ (llm_calls rt' = llm_calls rt -> s' = s)
    /\ RateLimit.limit (rate_limit s') = RateLimit.limit (rate_limit s).
Proof.
  destruct (language_query_run W user_input language s rt)
    as (v & s' & rt' & E & H & K).
  exists v, s', rt'. split; [exact E|]. split; [exact H|].
  destruct (validate_input_length user_input).
  - destruct K as [L K]. split; [right; eexists; exact L|].
    assert (N : llm_calls rt' = llm_calls rt -> s' = s).
    { intro C. rewrite L in C. apply (f_equal (@List.length _)) in C.
      cbn in C. lia. }
    destruct (llm W _ _) as [m|e].
    + destruct K as [-> K]. repeat split; try exact N.
      * destruct (response_text W m) as [t|e].
        -- right. apply K.
        -- left. destruct K as [ts ->]. reflexivity.
      * apply RateLimitFacts.update_limit.
    + destruct K as [-> ->]. repeat split. now left.
  - destruct K as (-> & L & ->). repeat split; try assumption; now left.
Qed.

(** X14.  A reply of the model that begins with a text block is passed on: the
    envelope carries the block's text, the language and the input as they
    were given, the usage of the reply and the counter after this request;
    the one model call made asks for the language in the system prompt,
    with the input as the user's message, and the request is counted. *)
Theorem language_reply_is_passed_on (W : World) (user_input language : text)
        (s : self_t) (rt : runtime) (m : message) (t : text)
        (rest : list block) :
  validate_input_length user_input = true ->
  llm W (List.length (llm_calls rt)) (language_request language user_input)
  = Ok m ->
  content m = TextBlock t :: rest ->
  exists v rt',
    process_query W user_input language s rt
    = (Ok v, counted W s (S (S (ticks rt))), rt')
    /\ llm_calls rt' = language_request language user_input :: llm_calls rt
    /\ Py.path (texts ["response"; "text"]) v = Some (VStr t)
    /\ Py.path (texts ["response"; "language"]) v = Some (VStr language)
    /\ Py.path (texts ["query"; "text"]) v = Some (VStr user_input)
    /\ Py.path (texts ["usage"]) v = Some (calculate_token_usage W m)
    /\ Py.path (texts ["rate_limit"; "remaining"]) v
       = Some (VNum (inject_Z (RateLimit.remaining
                                 (rate_limit
                                    (counted W s (S (S (ticks rt)))))))).
Proof.
  intros V E C.
  destruct (language_query_run W user_input language s rt)
    as (v & s' & rt' & R & _ & K).
  rewrite V, E in K. destruct K as (L & -> & K).
  unfold response_text, content0 in K. rewrite C in K.
  exists v, rt'. split; [exact R|]. split; [exact L|]. apply K.
Qed.

Lemma language_reply_is_passed_on_witness :
  exists v rt',
    process_query world_with_cities "hello" "fr"
                  fresh_language_agent fresh_runtime
    = (Ok v, counted world_with_cities fresh_language_agent 2, rt')
    /\ llm_calls rt' = [language_request "fr" "hello"]
    /\ Py.path (texts ["response"; "text"]) v = Some (VStr "Sunny.")
    /\ Py.path (texts ["response"; "language"]) v = Some (VStr "fr")
    /\ Py.path (texts ["query"; "text"]) v = Some (VStr "hello")
    /\ Py.path (texts ["usage"]) v
       = Some (calculate_token_usage world_with_cities sample_reply)
    /\ Py.path (texts ["rate_limit"; "remaining"]) v
       = Some (VNum (inject_Z 99999)).
Proof.
  exact (language_reply_is_passed_on
           world_with_cities "hello" "fr" fresh_language_agent fresh_runtime
           sample_reply "Sunny." [] eq_refl eq_refl eq_refl).
Defined.

(** X15.  When the model call raises, the caller gets the error envelope with the
    exception's message, and the request is not counted: the agent is as
    it was. *)
Theorem language_model_failure_is_not_counted
        (W : World) (user_input language : text)
        (s : self_t) (rt : runtime) (e : Py.exn) :
  validate_input_length user_input = true ->
  llm W (List.length (llm_calls rt)) (language_request language user_input)
  = Raise e ->
  exists timestamp rt',
    process_query W user_input language s rt
    = (Ok (error_value (Py.msg e) timestamp), s, rt')
    /\ llm_calls rt' = language_request language user_input :: llm_calls rt.
Proof.
  intros V E.
  destruct (language_query_run W user_input language s rt)
    as (v & s' & rt' & R & _ & K).
  rewrite V, E in K. destruct K as (L & -> & ->).
  eexists _, rt'. split; [exact R|exact L].
Qed.

Lemma language_model_failure_is_not_counted_witness :
  exists timestamp rt',
    process_query silent_world "hello" "fr" fresh_language_agent fresh_runtime
    = (Ok (error_value "connection error" timestamp),
       fresh_language_agent, rt')
    /\ llm_calls rt' = [language_request "fr" "hello"].
Proof.
  exact (language_model_failure_is_not_counted
           silent_world "hello" "fr" fresh_language_agent fresh_runtime
           {| Py.cls := Py.OtherError; Py.msg := "connection error" |}
           eq_refl eq_refl).
Defined.

(** X16.  A reply of the model without any content block is answered with the
    error envelope of the [IndexError], although the request was counted
    before the text was read: with more than one request left, one fewer
    is left afterwards. *)
Theorem language_empty_reply_is_counted
        (W : World) (user_input language : text)
        (s : self_t) (rt : runtime) (m : message) :
  validate_input_length user_input = true ->
  llm W (List.length (llm_calls rt)) (language_request language user_input)
  = Ok m ->
  content m = [] ->
  (1 < RateLimit.remaining (rate_limit s))%Z ->
  exists timestamp s' rt',
    process_query W user_input language s rt
    = (Ok (error_value "list index out of range" timestamp), s', rt')
    /\ RateLimit.remaining (rate_limit s')
       = (RateLimit.remaining (rate_limit s) - 1)%Z.
Proof.
  intros V E C B.
  destruct (language_query_run W user_input language s rt)
    as (v & s' & rt' & R & _ & K).
  rewrite V, E in K. destruct K as (L & -> & K).
  unfold response_text, content0 in K. rewrite C in K.
  destruct K as [ts ->].
  eexists ts, _, rt'. split; [exact R|].
  unfold counted. cbn [rate_limit].
  unfold RateLimit.update_rate_limit. cbn [RateLimit.remaining].
  destruct (_ <=? 0)%Z eqn:D; [apply Z.leb_le in D; lia|reflexivity].
Qed.

Lemma language_empty_reply_is_counted_witness :
  exists timestamp s' rt',
    process_query world_with_empty_reply "hello" "fr"
                  fresh_language_agent fresh_runtime
    = (Ok (error_value "list index out of range" timestamp), s', rt')
    /\ RateLimit.remaining (rate_limit s')
       = (RateLimit.remaining (rate_limit fresh_language_agent) - 1)%Z.
Proof.
  apply (language_empty_reply_is_counted
           world_with_empty_reply "hello" "fr"
           fresh_language_agent fresh_runtime
           {| content := []; usage := None |} eq_refl eq_refl eq_refl).
  reflexivity.
Defined.

End LanguageQueryFacts.

(** ** The weather route *)

Module RouteFacts.

Import Eff WeatherAgent Samples More Routes.

Lemma text_eqb_eq (a b : text) : Text.eqb a b = true -> a = b.
Proof.
  unfold Text.eqb. now destruct (list_eq_dec ascii_dec a b).
Qed.

(** The handler past the key check. *)
Lemma weather_query_with_key (W : World) (req : request) :
  x_api_key req = Some API_KEY ->
  weather_query W req
  = bind (lift (get_json req))
      (fun data =>
         bind (lift (if negb (truth data) then Ok true
                     else match contains "query" data with
                          | Ok b => Ok (negb b)
                          | Raise e => Raise e
                          end))
           (fun missing : bool =>
              if missing
              then ret (error_body "Missing query parameter", 400%Z)
              else
                try_except
                  (bind (lift (Py.subscript data "query"))
                     (fun query =>
                        bind (process_query_of W query)
                          (fun response => ret (response, 200%Z))))
                  any_exception
                  (fun e =>
                     bind (now_isoformat W)
                       (fun timestamp =>
                          ret (error_value (Py.msg e) timestamp, 500%Z))))).
Proof.
  intro K. unfold weather_query. rewrite K. reflexivity.
Qed.

(** X17.  A request without the key, with an empty key or with another key is
    answered 401 with [{"error": "Invalid API key"}], whatever its body is
    and even when the body cannot be read; the agent, the clock and the
    logs of outbound calls are as they were. *)
Theorem weather_route_rejects_bad_key (W : World) (req : request)
        (s : self_t) (rt : runtime) :
  x_api_key req <> Some API_KEY ->
  weather_query W req s rt = (Ok (error_body "Invalid API key", 401%Z), s, rt).
Proof.
  intro K. unfold weather_query.
  destruct (x_api_key req) as [[|c k]|]; try reflexivity.
  destruct (Text.eqb (c :: k) API_KEY) eqn:E; [|reflexivity].
  apply text_eqb_eq in E. rewrite E in K. now contradiction K.
Qed.

Lemma weather_route_rejects_bad_key_witness :
  weather_query world_with_cities
                {| x_api_key := Some (list_ascii_of_string "neha-2025");
                   get_json := Ok (VDict [item "query"
                                            (VStr "weather in paris")]) |}
                fresh_weather_agent fresh_runtime
  = (Ok (error_body "Invalid API key", 401%Z),
     fresh_weather_agent, fresh_runtime).
Proof.
  apply (weather_route_rejects_bad_key world_with_cities).
  cbn. discriminate.
Defined.

(** X18.  With the key and a JSON object as the body, the handler never raises.
    An object without [query] is answered 400 and the agent is not
    reached.  A [query] that is a string is given to [process_query]: what
    it returns goes out with status 200, also the location error, and what
    it raises goes out as status 500 with the exception's message and a
    timestamp, the agent staying as the failed call left it.  A [query]
    that is not a string is answered 500 with the agent as it was. *)
Theorem weather_route_on_json_object (W : World) (req : request) (d : dict)
        (s : self_t) (rt : runtime) :
  x_api_key req = Some API_KEY ->
  get_json req = Ok (VDict d) ->
  exists body status s' rt',
    weather_query W req s rt = (Ok (body, status), s', rt')
    /\ match Py.lookup "query" d with
       | None =>
           status = 400%Z /\ body = error_body "Missing query parameter"
           /\ s' = s /\ rt' = rt
       | Some (VStr q) =>
           match process_query W q s rt with
           | (Ok v, s1, rt1) =>
               status = 200%Z /\ body = v /\ s' = s1 /\ rt' = rt1
           | (Raise e, s1, rt1) =>
               status = 500%Z
               /\ body = error_value (Py.msg e)
                                     (isoformat W (clock W (ticks rt1)))
               /\ s' = s1
               /\ llm_calls rt' = llm_calls rt1
               /\ http_calls rt' = http_calls rt1
           end
       | Some _ =>
           status = 500%Z /\ Py.keys body = texts ["error"; "meta"]
           /\ s' = s
           /\ llm_calls rt' = llm_calls rt
           /\ http_calls rt' = http_calls rt
       end.
Proof.
  intros K J. rewrite (weather_query_with_key W req K), J.
  unfold bind at 1, lift at 1.
  unfold contains, Py.has_key, Py.subscript.
  destruct d as [|kv d'].
  - cbn. do 4 eexists. split; [reflexivity|]. repeat split.
  - cbn [truth negb].
    destruct (Py.lookup "query" (kv :: d')) as [x|].
    + unfold bind at 1, lift at 1. cbn [negb].
      unfold try_except, bind at 1, lift at 1.
      destruct x as [|b|n|q|l|d2];
        try (cbn; do 4 eexists; split; [reflexivity|]; repeat split;
             reflexivity).
      unfold process_query_of, bind at 1.
      destruct (process_query W q s rt) as [[[v|e] s1] rt1].
      * cbn. do 4 eexists. split; [reflexivity|]. repeat split.
      * cbn. do 4 eexists. split; [reflexivity|]. repeat split.
    + cbn. do 4 eexists. split; [reflexivity|]. repeat split.
Qed.

Lemma weather_route_on_json_object_witness :
  exists body s' rt',
    weather_query world_with_cities
                  {| x_api_key := Some API_KEY;
                     get_json := Ok (VDict [item "query" (VStr "hello")]) |}
                  fresh_weather_agent fresh_runtime
    = (Ok (body, 200%Z), s', rt')
    /\ Py.path (texts ["response"; "type"]) body
       = Some (VStr "off_topic_response").
Proof.
  destruct (weather_route_on_json_object
              world_with_cities
              {| x_api_key := Some API_KEY;
                 get_json := Ok (VDict [item "query" (VStr "hello")]) |}
              [item "query" (VStr "hello")]
              fresh_weather_agent fresh_runtime eq_refl eq_refl)
    as (body & status & s' & rt' & E & H).
  vm_compute in H. destruct H as (-> & -> & _).
  eexists _, s', rt'. split; [exact E|reflexivity].
Defined.

(** X19.  With the key and a body that is not a JSON object the agent is never
    reached.  A body that is falsy ([null], [false], 0, an empty string or
    list) or does not contain [query] is answered 400.  A truthy number or
    [true] makes the membership test raise [TypeError], outside the
    handler's [try].  A string of which [query] is a part, or a list of
    which it is an element, passes the test and is answered 500, for it
    cannot be subscripted by [query]. *)
Theorem weather_route_body_not_an_object (W : World) (req : request)
        (data : value) (s : self_t) (rt : runtime) :
  x_api_key req = Some API_KEY ->
  get_json req = Ok data ->
  (forall d, data <> VDict d) ->
  exists r rt',
    weather_query W req s rt = (r, s, rt')
    /\ llm_calls rt' = llm_calls rt
    /\ http_calls rt' = http_calls rt
    /\ if negb (truth data)
       then r = Ok (error_body "Missing query parameter", 400%Z) /\ rt' = rt
       else match contains "query" data with
            | Raise e =>
                r = Raise e /\ Py.cls e = Py.TypeError /\ rt' = rt
            | Ok false =>
                r = Ok (error_body "Missing query parameter", 400%Z)
                /\ rt' = rt
            | Ok true =>
                exists message timestamp,
                  r = Ok (error_value message timestamp, 500%Z)
            end.
Proof.
  intros K J N. rewrite (weather_query_with_key W req K), J.
  unfold bind at 1, lift at 1.
  destruct (negb (truth data)) eqn:T.
  - do 2 eexists. split; [reflexivity|]. repeat split.
  - destruct data as [|b|n|q|l|d]; try discriminate T;
      try (now contradiction (N d)).
    + cbn. do 2 eexists. split; [reflexivity|]. repeat split.
    + cbn. do 2 eexists. split; [reflexivity|]. repeat split.
    + cbn [contains]. destruct (occurs "query" q);
        cbn; do 2 eexists; (split; [reflexivity|]); repeat split.
      do 2 eexists. reflexivity.
    + cbn [contains]. destruct (existsb _ l);
        cbn; do 2 eexists; (split; [reflexivity|]); repeat split.
      do 2 eexists. reflexivity.
Qed.

Lemma weather_route_body_not_an_object_witness :
  exists message timestamp rt',
    weather_query world_with_cities
                  {| x_api_key := Some API_KEY;
                     get_json := Ok (VStr "my query") |}
                  fresh_weather_agent fresh_runtime
    = (Ok (error_value message timestamp, 500%Z), fresh_weather_agent, rt')
    /\ llm_calls rt' = [] /\ http_calls rt' = [].
Proof.
  destruct (weather_route_body_not_an_object
              world_with_cities
              {| x_api_key := Some API_KEY;
                 get_json := Ok (VStr "my query") |}
              (VStr "my query") fresh_weather_agent fresh_runtime
              eq_refl eq_refl ltac:(discriminate))
    as (r & rt' & E & L & H & message & timestamp & ->).
  exists message, timestamp, rt'. repeat split; assumption.
Defined.

(** X20.  The language route asks for no key: the header plays no part.  With
    a JSON object as the body it never raises and never answers 500 on
    strings: an object without [user_input] is answered 400 and the agent
    is not reached; a [user_input] that is a string goes to
    [process_query] with the [language] of the body, [en] where there is
    none, and whatever envelope comes back, the error envelopes too, goes
    out with status 200. *)
Theorem language_route_on_json_object (W : World) (req : request) (d : dict)
        (language : text) (s : LanguageAgent.self_t) (rt : runtime) :
  get_json req = Ok (VDict d) ->
  Py.get "language" (VStr "en") d = VStr language ->
  exists reply s' rt',
    language_query W req s rt = (Ok reply, s', rt')
    /\ match Py.lookup "user_input" d with
       | None =>
           reply = Some (error_body "Missing user_input parameter", 400%Z)
           /\ s' = s /\ rt' = rt
       | Some (VStr u) =>
           exists v,
             LanguageAgent.process_query W u language s rt = (Ok v, s', rt')
             /\ reply = Some (v, 200%Z)
       | Some _ => True
       end.
Proof.
  intros J L. unfold language_query. rewrite J.
  unfold bind at 1, lift at 1.
  unfold contains, Py.has_key, Py.subscript.
  destruct d as [|kv d'].
  - cbn. do 3 eexists. split; [reflexivity|]. repeat split.
  - cbn [truth negb].
    destruct (Py.lookup "user_input" (kv :: d')) as [x|].
    + unfold bind at 1, lift at 1. cbn [negb].
      unfold try_except, bind at 1, lift at 1.
      unfold bind at 1, lift at 1. rewrite L.
      destruct x as [|b|n|u|l|d2];
        try (do 3 eexists; split; [reflexivity|exact I]).
      destruct (LanguageQueryFacts.language_query_run W u language s rt)
        as (v & s' & rt' & E & _).
      unfold bind. rewrite E. cbn.
      do 3 eexists. split; [reflexivity|]. exists v. now split.
    + cbn. do 3 eexists. split; [reflexivity|]. repeat split.
Qed.

Lemma language_route_on_json_object_witness :
  exists v s' rt',
    language_query silent_world
                   {| x_api_key := None;
                      get_json := Ok (VDict [item "user_input"
                                               (VStr "hello")]) |}
                   fresh_language_agent fresh_runtime
    = (Ok (Some (v, 200%Z)), s', rt')
    /\ Py.path (texts ["error"]) v = Some (VStr "connection error").
Proof.
  destruct (language_route_on_json_object
              silent_world
              {| x_api_key := None;
                 get_json := Ok (VDict [item "user_input" (VStr "hello")]) |}
              [item "user_input" (VStr "hello")] "en"
              fresh_language_agent fresh_runtime eq_refl eq_refl)
    as (reply & s' & rt' & E & H).
  cbn in H. destruct H as (v & P & ->).
  exists v, s', rt'. split; [exact E|].
  vm_compute in P. injection P as <- _ _. reflexivity.
Defined.

End RouteFacts.

(** ** The formatter on complete payloads *)

Module FormatMore.

Import WeatherAgent Samples Notions More.
Local Open Scope Q_scope.

Ltac split_result H :=
  match type of H with
  | context [match ?r with Ok _ => _ | Raise _ => _ end] =>
      let E := fresh "E" in
      destruct r eqn:E; [|discriminate H]
  end.

(** Case analysis on what the reads of the body found. *)
Ltac invert_reads :=
  repeat match goal with
         | H : Raise _ = Ok _ |- _ => discriminate H
         | H : Ok _ = Ok _ |- _ => injection H as H; subst
         | H : match ?x with _ => _ end = _ |- _ =>
             destruct x eqn:?; try discriminate H
         end.

Ltac rewrite_lookups :=
  repeat match goal with
         | H : Py.lookup _ _ = _ |- _ => rewrite H; clear H
         end.

(** The body of the [try] succeeds on complete payloads only. *)
Lemma format_body_complete (data : dict) (v : value) :
  format_body data = Ok v ->
  Py.has_key "error" data = false ->
  complete_payload data = true.
Proof.
  unfold format_body. intros H Herr.
  repeat split_result H. clear H.
  unfold complete_payload, number_at, dict_or_absent, is_number, Py.has_key.
  unfold Py.has_key in Herr.
  unfold Py.subscript, Py.subscript0, Py.get_method, Py.get, Py.number,
    Py.raise in *.
  invert_reads.
  all: rewrite_lookups.
  all: reflexivity.
Qed.

(** X21.  The full record is only ever built from a complete payload: one
    without [error] that carries numbers under [main.temp],
    [main.feels_like] and [wind.speed], a [main.humidity], a first element
    of [weather] with [description], [main] and [icon], and whose [sys]
    and [coord] are dictionaries where present.  From any other payload the
    formatter returns one of the two error markers, when it returns. *)
Theorem record_only_from_complete_payload (data : dict) (v : value) :
  format_weather_data data = Ok v ->
  (Py.keys v = record_keys -> complete_payload data = true)
  /\ (complete_payload data = false ->
      v = unavailable \/ v = formatting_error).
Proof.
  intro F.
  assert (R : Py.keys v = record_keys -> complete_payload data = true).
  { intro K. destruct (Py.has_key "error" data) eqn:E.
    - unfold format_weather_data in F. rewrite E in F.
      destruct data; injection F as <-; discriminate K.
    - destruct (FormatFacts.format_weather_data_cases data)
        as [R|[[_ R]|[(v' & B & R)|(e & _ & _ & R)]]]; rewrite R in F;
        try discriminate F; injection F as <-; try discriminate K.
      exact (format_body_complete data v' B E). }
  split; [exact R|]. intro C.
  destruct (FormatFacts.format_weather_data_all_or_nothing data v F)
    as [U|[U|K]]; [now left|now right|].
  rewrite (R K) in C. discriminate C.
Qed.

Lemma record_only_from_complete_payload_witness :
  complete_payload (sample_payload 20 3) = true.
Proof.
  exact (proj1 (record_only_from_complete_payload
                  (sample_payload 20 3)
                  (match format_weather_data (sample_payload 20 3) with
                   | Ok v => v
                   | Raise _ => VNone
                   end)
                  eq_refl) eq_refl).
Defined.

(** What the body of the [try] copies from the payload. *)
Lemma format_body_copies (data : dict) (v : value) :
  format_body data = Ok v ->
  exists main w0 rest hum cm cd ci,
    Py.lookup "main" data = Some (VDict main)
    /\ Py.lookup "weather" data = Some (VList (VDict w0 :: rest))
    /\ Py.lookup "humidity" main = Some hum
    /\ Py.lookup "main" w0 = Some cm
    /\ Py.lookup "description" w0 = Some cd
    /\ Py.lookup "icon" w0 = Some ci
    /\ Py.path (texts ["humidity"]) v = Some hum
    /\ Py.path (texts ["conditions"; "main"]) v = Some cm
    /\ Py.path (texts ["conditions"; "description"]) v = Some cd
    /\ Py.path (texts ["conditions"; "icon_code"]) v = Some ci
    /\ Py.path (texts ["pressure"]) v = Some (Py.get "pressure" VNone main)
    /\ Py.path (texts ["location"; "city"]) v
       = Some (Py.get "name" VNone data)
    /\ Py.path (texts ["visibility"]) v
       = Some (Py.get "visibility" VNone data)
    /\ Py.path (texts ["timezone"]) v = Some (Py.get "timezone" VNone data).
Proof.
  unfold format_body. intro H.
  repeat split_result H. injection H as <-.
  unfold Py.subscript, Py.subscript0, Py.get_method, Py.get, Py.number,
    Py.raise in *.
  invert_reads.
  all: do 7 eexists.
  all: repeat match goal with |- _ /\ _ => split end;
    try eassumption; try reflexivity.
Qed.

(** X22.  What is not a measurement goes into the record as the payload
    has it: the humidity, the three fields of the first weather condition,
    the pressure, the name of the place, the visibility and the time zone
    are copied unchanged, and the last four are [None] where the payload
    has none. *)
Theorem formatted_record_copies_fields (data : dict) (v : value) :
  format_weather_data data = Ok v ->
  Py.path (texts ["error"]) v = None ->
  exists main w0 rest hum cm cd ci,
    Py.lookup "main" data = Some (VDict main)
    /\ Py.lookup "weather" data = Some (VList (VDict w0 :: rest))
    /\ Py.lookup "humidity" main = Some hum
    /\ Py.lookup "main" w0 = Some cm
    /\ Py.lookup "description" w0 = Some cd
    /\ Py.lookup "icon" w0 = Some ci
    /\ Py.path (texts ["humidity"]) v = Some hum
    /\ Py.path (texts ["conditions"; "main"]) v = Some cm
    /\ Py.path (texts ["conditions"; "description"]) v = Some cd
    /\ Py.path (texts ["conditions"; "icon_code"]) v = Some ci
    /\ Py.path (texts ["pressure"]) v = Some (Py.get "pressure" VNone main)
    /\ Py.path (texts ["location"; "city"]) v
       = Some (Py.get "name" VNone data)
    /\ Py.path (texts ["visibility"]) v
       = Some (Py.get "visibility" VNone data)
    /\ Py.path (texts ["timezone"]) v = Some (Py.get "timezone" VNone data).
Proof.
  intros H Hrec.
  destruct (FormatFacts.format_weather_data_cases data)
    as [E|[[_ E]|[(v' & B & E)|(e & _ & _ & E)]]]; rewrite E in H;
    try discriminate; injection H as <-; try discriminate Hrec.
  exact (format_body_copies data v' B).
Qed.

Lemma formatted_record_copies_fields_witness :
  exists v,
    format_weather_data (sample_payload 20 3) = Ok v
    /\ Py.path (texts ["humidity"]) v = Some (VNum 50)
    /\ Py.path (texts ["conditions"; "description"]) v
       = Some (VStr "clear sky")
    /\ Py.path (texts ["conditions"; "icon_code"]) v = Some (VStr "01d")
    /\ Py.path (texts ["pressure"]) v = Some VNone
    /\ Py.path (texts ["location"; "city"]) v = Some VNone.
Proof.
  destruct (formatted_record_copies_fields
              (sample_payload 20 3)
              (match format_weather_data (sample_payload 20 3) with
               | Ok v => v
               | Raise _ => VNone
               end)
              eq_refl eq_refl)
    as (main & w0 & rest & hum & cm & cd & ci
        & Em & Ew & Eh & _ & Ed & Ei & Ph & _ & Pd & Pi & Pp & Pc & _).
  injection Em as <-. injection Ew as <- _.
  injection Eh as <-. injection Ed as <-. injection Ei as <-.
  eexists. split; [reflexivity|].
  repeat split; assumption.
Defined.

End FormatMore.
